(** * The map facade of mbgl: camera, bounds, still images, load state

  A shallow embedding of [mbgl::Map] (map.cpp, map.hpp) and of the state it
  owns through [Map::Impl] (map_impl.hpp), together with the rolling files of
  the action journal, and of the Android classes [Style] and [MapView].

  C++ [double] values are Rocq's primitive binary64 floats, so [INFINITY],
  NaN and division by zero behave as they do in the program.  Methods that
  mutate the map are functions from the state to the new state and the list
  of effects they caused (observer notifications, log records, callback
  invocations, update requests), in the order the code causes them. *)

From stdpp Require Import base option list gmap pretty.
From Stdlib Require Import ZArith Floats Bool String Lia.
From Stdlib Require Uint63.

Local Open Scope Z_scope.

(** ** Doubles *)

Module Dbl.
Local Open Scope float_scope.

Definition INFINITY : float := infinity.

(** [static_cast<double>] of an unsigned integer. *)
Definition of_Z (z : Z) : float := PrimFloat.of_uint63 (Uint63.of_Z z).

Definition isnan (a : float) : bool := negb (a =? a).

(** [std::min(a, b)] is [(b < a) ? b : a], [std::max(a, b)] is
    [(a < b) ? b : a]. *)
Definition std_min (a b : float) : float := if b <? a then b else a.
Definition std_max (a b : float) : float := if a <? b then b else a.

(** Order on doubles as propositions; both fail on NaN. *)
Definition le (a b : float) : Prop := (a <=? b) = true.
Definition lt (a b : float) : Prop := (a <? b) = true.

Definition M_PI : float := 0x1.921fb54442d18p+1.
End Dbl.

(** Helpers of mbgl/math and mbgl/util/math.hpp, which map.cpp includes. *)
Module util.
Local Open Scope float_scope.

(** Modelled from the spec: [util::min] of mbgl/math/minmax.hpp is missing;
    the smaller of two doubles, read as C's [fmin], which ignores a NaN
    operand. *)
Definition min (a b : float) : float :=
  if Dbl.isnan a then b else if Dbl.isnan b then a
  else if a <? b then a else b.

(** Modelled from the spec: [util::max] of mbgl/math/minmax.hpp is missing;
    the larger of two doubles, read as C's [fmax]. *)
Definition max (a b : float) : float :=
  if Dbl.isnan a then b else if Dbl.isnan b then a
  else if b <? a then a else b.

(** Modelled from the spec: [util::clamp] of mbgl/math/clamp.hpp is missing;
    the spec's clamp(z, minZoom, maxZoom), a value limited to a range. *)
Definition clamp (value min_ max_ : float) : float :=
  max min_ (min max_ value).

(** Modelled from the spec: [util::deg2rad] and [util::rad2deg] of
    mbgl/math/angles.hpp are missing; the camera options carry degrees and
    the transform state radians. *)
Definition deg2rad (deg : float) : float := deg * Dbl.M_PI / 180.
Definition rad2deg (rad : float) : float := rad * 180 / Dbl.M_PI.
End util.

(** ** Geometry and option types *)

Module LatLng.
Record t := mk { latitude : float; longitude : float }.
End LatLng.

Module ScreenCoordinate.
Local Open Scope float_scope.
Record t := mk { x : float; y : float }.
Definition plus (a b : t) : t := mk (x a + x b) (y a + y b).
Definition div (a : t) (d : float) : t := mk (x a / d) (y a / d).
End ScreenCoordinate.

Module EdgeInsets.
Record t := mk { top : float; left : float; bottom : float; right : float }.
End EdgeInsets.

Module Size.
(** [uint32_t] width and height. *)
Record t := mk { width : Z; height : Z }.
End Size.

Module LatLngBounds.
Record t := mk { sw : LatLng.t; ne : LatLng.t }.
Definition northwest (b : t) := LatLng.mk (LatLng.latitude (ne b)) (LatLng.longitude (sw b)).
Definition southwest (b : t) := sw b.
Definition southeast (b : t) := LatLng.mk (LatLng.latitude (sw b)) (LatLng.longitude (ne b)).
Definition northeast (b : t) := ne b.
End LatLngBounds.

Module CameraOptions.
(** Every field is optional; [{}] sets none.  Zoom is a zoom level, bearing
    and pitch are degrees. *)
Record t := mk {
  center : option LatLng.t;
  padding : option EdgeInsets.t;
  anchor : option ScreenCoordinate.t;
  zoom : option float;
  bearing : option float;
  pitch : option float
}.

Definition empty : t := mk None None None None None None.

Definition withCenter (o : option LatLng.t) (c : t) : t :=
  mk o (padding c) (anchor c) (zoom c) (bearing c) (pitch c).
Definition withPadding (o : option EdgeInsets.t) (c : t) : t :=
  mk (center c) o (anchor c) (zoom c) (bearing c) (pitch c).
Definition withAnchor (o : option ScreenCoordinate.t) (c : t) : t :=
  mk (center c) (padding c) o (zoom c) (bearing c) (pitch c).
Definition withZoom (o : option float) (c : t) : t :=
  mk (center c) (padding c) (anchor c) o (bearing c) (pitch c).
Definition withBearing (o : option float) (c : t) : t :=
  mk (center c) (padding c) (anchor c) (zoom c) o (pitch c).
Definition withPitch (o : option float) (c : t) : t :=
  mk (center c) (padding c) (anchor c) (zoom c) (bearing c) o.
End CameraOptions.

Module BoundOptions.
(** Zooms are zoom levels, pitches are degrees. *)
Record t := mk {
  bounds : option LatLngBounds.t;
  minZoom : option float;
  maxZoom : option float;
  minPitch : option float;
  maxPitch : option float
}.
End BoundOptions.

(** Identifier of a [std::function] value handed to the map (a still-image
  callback, a transition-finished callback). *)
Definition CallbackId := nat.

(** Time points and durations, in milliseconds. *)
Definition TimePoint := Z.
Definition Duration := Z.

Module AnimationOptions.
Record t := mk {
  duration : option Duration;
  easing : float -> float;
  transitionFinishFn : option CallbackId
}.
End AnimationOptions.

Inductive MapMode := Continuous | Static | Tile.

Definition MapMode_eqb (a b : MapMode) : bool :=
match a, b with
| Continuous, Continuous | Static, Static | Tile, Tile => true
| _, _ => false
end.

(** [MapDebugOptions] is a bit mask, [NoDebug] is 0. *)
Definition MapDebugOptions := Z.
Definition NoDebug : MapDebugOptions := 0.

(** What an [std::exception_ptr] points to; [None] is the null pointer. *)
Inductive Exception :=
| MisuseException (what : string)
| StyleError (what : string).

Definition exception_ptr := option Exception.

Inductive EventSeverity := Debug | Info | Warning | Error.
Inductive Event := General | Setup | Render | ParseStyle | Database.

Inductive CameraChangeMode := Immediate | Animated.

(** [RenderMode] of the renderer observer. *)
Inductive RenderMode := Partial | Full.

(** Everything a call does besides changing the map's own fields. *)
Inductive Effect :=
| Log (severity : EventSeverity) (event : Event) (msg : string)
| Invoke (callback : CallbackId) (error : exception_ptr)
| Finished (callback : CallbackId)
| CameraWillChange (mode : CameraChangeMode)
| CameraIsChanging
| CameraDidChange (mode : CameraChangeMode)
| Update.

(** ** Parameters

    Functions of libm and of the projection code that map.cpp calls are taken
    as parameters, and so is what the spec leaves open or the sources only
    declare: every statement below holds whatever they return. *)

Class Math := {
  (** [util::log2] of mbgl/math/log2.hpp. *)
  log2 : float -> float;
  (** Normalisation of an angle in radians to the half-open turn around 0. *)
  wrapAngle : float -> float
}.

(** ** TransformState *)

Module Camera.
(** The camera of the glossary: center, zoom level, bearing and pitch in
    radians, padding. *)
Record t := mk {
  center : LatLng.t;
  zoom : float;
  bearing : float;
  pitch : float;
  padding : EdgeInsets.t
}.
End Camera.

Module TransformState.
(** Modelled from the spec: class TransformState (mbgl/map/transform_state.hpp)
    is missing.  The camera geometry of section 3: the camera, the viewport
    size, the optional bounds restricting pan, and the configured zoom and
    pitch ranges. *)
Record t := mk {
  camera : Camera.t;
  size : Size.t;
  latLngBounds : option LatLngBounds.t;
  minZoom : float;
  maxZoom : float;
  minPitch : float;
  maxPitch : float
}.

Definition getSize := size.
Definition getZoom (s : t) : float := Camera.zoom (camera s).
Definition getPitch (s : t) : float := Camera.pitch (camera s).
Definition getBearing (s : t) : float := Camera.bearing (camera s).
Definition getLatLngBounds := latLngBounds.
Definition getMinZoom := minZoom.
Definition getMaxZoom := maxZoom.
Definition getMinPitch := minPitch.
Definition getMaxPitch := maxPitch.

(** Modelled from the spec: the constraint setters of section 4.1 update the
    constraint; bringing the camera back into the range is left to the caller
    ([Map::setBounds] tests the current value after the call and jumps). *)
Definition setLatLngBounds (b : LatLngBounds.t) (s : t) : t :=
  mk (camera s) (size s) (Some b) (minZoom s) (maxZoom s) (minPitch s) (maxPitch s).
Definition setMinZoom (z : float) (s : t) : t :=
  mk (camera s) (size s) (latLngBounds s) z (maxZoom s) (minPitch s) (maxPitch s).
Definition setMaxZoom (z : float) (s : t) : t :=
  mk (camera s) (size s) (latLngBounds s) (minZoom s) z (minPitch s) (maxPitch s).
Definition setMinPitch (p : float) (s : t) : t :=
  mk (camera s) (size s) (latLngBounds s) (minZoom s) (maxZoom s) p (maxPitch s).
Definition setMaxPitch (p : float) (s : t) : t :=
  mk (camera s) (size s) (latLngBounds s) (minZoom s) (maxZoom s) (minPitch s) p.

(** Modelled from the spec: every camera written to the state has its zoom and
    its pitch clamped to the configured ranges (section 3: clamping, not
    rejection). *)
Definition setCamera (c : Camera.t) (s : t) : t :=
  mk (Camera.mk (Camera.center c)
                (util.clamp (Camera.zoom c) (minZoom s) (maxZoom s))
                (Camera.bearing c)
                (util.clamp (Camera.pitch c) (minPitch s) (maxPitch s))
                (Camera.padding c))
     (size s) (latLngBounds s) (minZoom s) (maxZoom s) (minPitch s) (maxPitch s).

Section WithMath.
Context `{Math}.

(** Modelled from the spec: [scaleZoom] is the log2-based conversion of
    section 4.1, as [Map::scaleBy] uses it on doubles. *)
Definition scaleZoom (scale : float) : float := log2 scale.
End WithMath.
End TransformState.

Class Projection := {
  (** [Transform::latLngToScreenCoordinate]. *)
  latLngToScreenCoordinate : TransformState.t -> LatLng.t -> ScreenCoordinate.t;
  (** [Transform::screenCoordinateToLatLng]. *)
  screenCoordinateToLatLng : TransformState.t -> ScreenCoordinate.t -> LatLng.t;
  (** The center a camera asks for in a state: the requested or the current
      center, moved for an anchor and clamped into the bounds. *)
  resolveCenter : TransformState.t -> CameraOptions.t -> LatLng.t;
  (** [LayerManager::annotationsEnabled]. *)
  annotationsEnabled : bool;
  (** What the observer and the completion callback see when
      [Transform::cancelTransitions] interrupts a transition whose callback is
      the argument.  Sections 4.2 and 9 leave it open, so it is a parameter
      as well. *)
  cancelled : option CallbackId -> list Effect
}.

(** What [Transform::moveBy] and [Transform::rotateBy] make of the screen
    points they are given (section 4.2): the center the map moves to and the
    bearing, in degrees, it turns to. *)
Class Gestures := {
  movedCenter : TransformState.t -> ScreenCoordinate.t -> LatLng.t;
  rotatedBearing : TransformState.t -> ScreenCoordinate.t -> ScreenCoordinate.t -> float
}.

(** ** Transform *)

Module Transform.
Local Open Scope float_scope.

(** Modelled from the spec: class Transform (mbgl/map/transform.hpp) is
    missing.  A transition stores its start time, its duration, the camera it
    started from, the camera it ends in, the easing curve and the callback to
    run when it ends (sections 4.2 and 9). *)
Record Transition := mkTransition {
  startTime : TimePoint;
  duration : Duration;
  source : Camera.t;
  target : Camera.t;
  easing : float -> float;
  transitionFinishFn : option CallbackId
}.

(** Modelled from the spec: the fields of Transform in section 3, one state,
    the gesture flag and the handle of the active transition: at most one
    transition exists at a time. *)
Record t := mk {
  state : TransformState.t;
  gestureInProgress : bool;
  transition : option Transition
}.

Definition getState := state.
Definition getZoom (tr : t) : float := TransformState.getZoom (state tr).
Definition getPitch (tr : t) : float := TransformState.getPitch (state tr).
Definition getBearing (tr : t) : float := TransformState.getBearing (state tr).
Definition isGestureInProgress := gestureInProgress.
Definition inTransition (tr : t) : bool :=
  match transition tr with Some _ => true | None => false end.

(** Modelled from the spec: the constructor [Transform(const TransformState&)]
    that map.cpp uses for its shallow copies: the state, no gesture, no
    transition, no observer. *)
Definition of_state (s : TransformState.t) : t := mk s false None.

Definition withState (f : TransformState.t -> TransformState.t) (tr : t) : t :=
  mk (f (state tr)) (gestureInProgress tr) (transition tr).

Definition setLatLngBounds (b : LatLngBounds.t) : t -> t :=
  withState (TransformState.setLatLngBounds b).
Definition setMinZoom (z : float) : t -> t :=
  withState (TransformState.setMinZoom z).
Definition setMaxZoom (z : float) : t -> t :=
  withState (TransformState.setMaxZoom z).
(** Modelled from the spec: the pitch setters of Transform are missing; pitch
    limits arrive in degrees and are kept in radians ([Map::getBounds] converts
    them back). *)
Definition setMinPitch (p : float) : t -> t :=
  withState (TransformState.setMinPitch (util.deg2rad p)).
Definition setMaxPitch (p : float) : t -> t :=
  withState (TransformState.setMaxPitch (util.deg2rad p)).

Definition setGestureInProgress (b : bool) (tr : t) : t :=
  mk (state tr) b (transition tr).

Definition fireFinish (f : option CallbackId) : list Effect :=
  match f with Some k => [Finished k] | None => [] end.

(** [util::interpolate(a, b, t)]. *)
Definition interpolate (a b t_ : float) : float := a * (1 - t_) + b * t_.

(** Modelled from the spec: the interpolation of section 4.2, from the
    current camera to the target along the easing curve; the camera of a
    transition at a time before its end. *)
Definition frame (x : Transition) (now : TimePoint) : Camera.t :=
  let a := source x in
  let b := target x in
  let k := easing x (Dbl.of_Z (now - startTime x) / Dbl.of_Z (duration x)) in
  Camera.mk
    (LatLng.mk
       (interpolate (LatLng.latitude (Camera.center a)) (LatLng.latitude (Camera.center b)) k)
       (interpolate (LatLng.longitude (Camera.center a)) (LatLng.longitude (Camera.center b)) k))
    (interpolate (Camera.zoom a) (Camera.zoom b) k)
    (interpolate (Camera.bearing a) (Camera.bearing b) k)
    (interpolate (Camera.pitch a) (Camera.pitch b) k)
    (Camera.padding b).

(** Modelled from the spec: the per-frame step of section 9.  Once the
    duration has elapsed the camera is the target, the transition is gone, the
    observer is told and the completion callback runs; before that the camera
    is the interpolated one. *)
Definition advance (now : TimePoint) (tr : t) : t * list Effect :=
  match transition tr with
  | None => (tr, [])
  | Some x =>
      if (startTime x + duration x <=? now)%Z then
        (mk (TransformState.setCamera (target x) (state tr)) (gestureInProgress tr) None,
         CameraDidChange Animated :: fireFinish (transitionFinishFn x))
      else
        (mk (TransformState.setCamera (frame x now) (state tr)) (gestureInProgress tr) (Some x),
         [CameraIsChanging])
  end.

(** Modelled from the spec: the camera of the current state, angles in
    degrees, with the padding asked for or the state's own. *)
Definition getCameraOptions (padding : option EdgeInsets.t) (tr : t) : CameraOptions.t :=
  let c := TransformState.camera (state tr) in
  CameraOptions.mk
    (Some (Camera.center c))
    (Some (default (Camera.padding c) padding))
    None
    (Some (Camera.zoom c))
    (Some (util.rad2deg (- Camera.bearing c)))
    (Some (util.rad2deg (Camera.pitch c))).

Section WithEnv.
Context `{Math} `{Projection} `{Gestures}.

(** Modelled from the spec: [cancelTransitions] forces Idle and leaves the
    camera as it is (section 4.2).  What it tells the observer and the
    completion callback of the transition it interrupts is an open question
    of the spec (section 9) and is not guessed: it is the parameter
    [cancelled]. *)
Definition cancelTransitions (tr : t) : t * list Effect :=
  match transition tr with
  | None => (tr, [])
  | Some x => (mk (state tr) (gestureInProgress tr) None, cancelled (transitionFinishFn x))
  end.

(** Modelled from the spec: the partial update of [jumpTo] and [easeTo]; only
    the fields present in the camera options replace the current ones. *)
Definition merge (camera : CameraOptions.t) (s : TransformState.t) : Camera.t :=
  Camera.mk
    (resolveCenter s camera)
    (default (TransformState.getZoom s) (CameraOptions.zoom camera))
    (from_option (fun d => wrapAngle (- util.deg2rad d))
                 (TransformState.getBearing s) (CameraOptions.bearing camera))
    (from_option util.deg2rad (TransformState.getPitch s) (CameraOptions.pitch camera))
    (default (Camera.padding (TransformState.camera s)) (CameraOptions.padding camera)).

(** Modelled from the spec: [jumpTo] changes the state at once, whatever the
    current state, and drops a transition in flight without running its
    completion; the observer sees will-change then did-change, not animated. *)
Definition jumpTo (camera : CameraOptions.t) (tr : t) : t * list Effect :=
  (mk (TransformState.setCamera (merge camera (state tr)) (state tr)) (gestureInProgress tr) None,
   [CameraWillChange Immediate; CameraDidChange Immediate]).

(** Modelled from the spec: [easeTo] with a duration above zero registers the
    target and the duration and returns; the transition it replaces is
    abandoned and its completion callback is not run.  Without a duration the
    change is applied at once and the callback runs at once. *)
Definition easeTo (camera : CameraOptions.t) (animation : AnimationOptions.t)
    (now : TimePoint) (tr : t) : t * list Effect :=
  let goal := merge camera (state tr) in
  let d := default 0%Z (AnimationOptions.duration animation) in
  if (0 <? d)%Z then
    (mk (state tr) (gestureInProgress tr)
        (Some (mkTransition now d (TransformState.camera (state tr)) goal
                 (AnimationOptions.easing animation)
                 (AnimationOptions.transitionFinishFn animation))),
     [CameraWillChange Animated])
  else
    (mk (TransformState.setCamera goal (state tr)) (gestureInProgress tr) None,
     [CameraWillChange Immediate; CameraDidChange Immediate]
       ++ fireFinish (AnimationOptions.transitionFinishFn animation)).

(** Modelled from the spec: [flyTo] is like [easeTo], with the same event
    contract (section 4.2).  The two differ in the curve the zoom and the
    center follow between the two ends, which the spec does not give; a
    flight is registered as an ease is, and nothing below speaks of the
    cameras between its two ends other than of their limits. *)
Definition flyTo (camera : CameraOptions.t) (animation : AnimationOptions.t)
    (now : TimePoint) (tr : t) : t * list Effect :=
  easeTo camera animation now tr.

(** Modelled from the spec: [moveBy] translates the center by a screen
    vector, converted through the current projection; without a duration the
    change is synchronous, with one the transform animates as for [easeTo]
    (section 4.2). *)
Definition moveBy (point : ScreenCoordinate.t) (animation : AnimationOptions.t)
    (now : TimePoint) (tr : t) : t * list Effect :=
  easeTo (CameraOptions.withCenter (Some (movedCenter (state tr) point)) CameraOptions.empty)
         animation now tr.

(** Modelled from the spec: [rotateBy] computes the bearing from the angle
    between two screen vectors and delegates to [easeTo] (section 4.2). *)
Definition rotateBy (first second : ScreenCoordinate.t) (animation : AnimationOptions.t)
    (now : TimePoint) (tr : t) : t * list Effect :=
  easeTo (CameraOptions.withBearing (Some (rotatedBearing (state tr) first second))
            CameraOptions.empty)
         animation now tr.
End WithEnv.
End Transform.

(** ** Map::Impl *)

Module Style.
(** What the map reads of a [style::Style]: whether it is loaded and the
    error of its last load. *)
Record t := mk {
  name : string;
  loaded : bool;
  lastError : exception_ptr
}.
End Style.

Module StillImageRequest.
Record t := mk { callback : CallbackId }.
End StillImageRequest.

Module Impl.
(** The fields of [Map::Impl] (map_impl.hpp).  The observer and the renderer
    frontend are references to collaborators: what is sent to them is in the
    effects of a call.  [annotationStyle] is the style the annotation manager
    is attached to. *)
Record t := mk {
  transform : Transform.t;
  mode : MapMode;
  pixelRatio : float;
  crossSourceCollisions : bool;
  debugOptions : MapDebugOptions;
  style : Style.t;
  annotationStyle : option Style.t;
  cameraMutated : bool;
  prefetchZoomDelta : Z;
  loading : bool;
  rendererFullyLoaded : bool;
  stillImageRequest : option StillImageRequest.t
}.

Definition set_transform (x : Transform.t) (m : t) : t :=
  mk x (mode m) (pixelRatio m) (crossSourceCollisions m) (debugOptions m)
     (style m) (annotationStyle m) (cameraMutated m) (prefetchZoomDelta m)
     (loading m) (rendererFullyLoaded m) (stillImageRequest m).
Definition set_debugOptions (x : MapDebugOptions) (m : t) : t :=
  mk (transform m) (mode m) (pixelRatio m) (crossSourceCollisions m) x
     (style m) (annotationStyle m) (cameraMutated m) (prefetchZoomDelta m)
     (loading m) (rendererFullyLoaded m) (stillImageRequest m).
Definition set_style (x : Style.t) (m : t) : t :=
  mk (transform m) (mode m) (pixelRatio m) (crossSourceCollisions m) (debugOptions m)
     x (annotationStyle m) (cameraMutated m) (prefetchZoomDelta m)
     (loading m) (rendererFullyLoaded m) (stillImageRequest m).
Definition set_annotationStyle (x : option Style.t) (m : t) : t :=
  mk (transform m) (mode m) (pixelRatio m) (crossSourceCollisions m) (debugOptions m)
     (style m) x (cameraMutated m) (prefetchZoomDelta m)
     (loading m) (rendererFullyLoaded m) (stillImageRequest m).
Definition set_cameraMutated (x : bool) (m : t) : t :=
  mk (transform m) (mode m) (pixelRatio m) (crossSourceCollisions m) (debugOptions m)
     (style m) (annotationStyle m) x (prefetchZoomDelta m)
     (loading m) (rendererFullyLoaded m) (stillImageRequest m).
Definition set_prefetchZoomDelta (x : Z) (m : t) : t :=
  mk (transform m) (mode m) (pixelRatio m) (crossSourceCollisions m) (debugOptions m)
     (style m) (annotationStyle m) (cameraMutated m) x
     (loading m) (rendererFullyLoaded m) (stillImageRequest m).
Definition set_rendererFullyLoaded (x : bool) (m : t) : t :=
  mk (transform m) (mode m) (pixelRatio m) (crossSourceCollisions m) (debugOptions m)
     (style m) (annotationStyle m) (cameraMutated m) (prefetchZoomDelta m)
     (loading m) x (stillImageRequest m).
Definition set_stillImageRequest (x : option StillImageRequest.t) (m : t) : t :=
  mk (transform m) (mode m) (pixelRatio m) (crossSourceCollisions m) (debugOptions m)
     (style m) (annotationStyle m) (cameraMutated m) (prefetchZoomDelta m)
     (loading m) (rendererFullyLoaded m) x.
End Impl.

(** ** Calls on the map: state and effects *)

(** A method of the map takes the state and gives its result, the new state
    and the effects it caused, in order. *)
Definition M (A : Type) : Type := Impl.t -> A * Impl.t * list Effect.

#[global] Instance M_ret : MRet M := fun A a m => (a, m, []).

#[global] Instance M_bind : MBind M := fun A B k c m =>
  let '(a, m1, e1) := c m in
  let '(b, m2, e2) := k a m1 in
  (b, m2, e1 ++ e2).

Definition get : M Impl.t := fun m => (m, m, []).
Definition modify (f : Impl.t -> Impl.t) : M unit := fun m => (tt, f m, []).
Definition emit (e : Effect) : M unit := fun m => (tt, m, [e]).
Definition emits {A} (r : A * list Effect) : M A := fun m => (r.1, m, r.2).

(** A call on [impl->transform]. *)
Definition onTransform (f : Transform.t -> Transform.t * list Effect) : M unit :=
  fun m => let '(x, es) := f (Impl.transform m) in (tt, Impl.set_transform x m, es).
Definition setTransform (f : Transform.t -> Transform.t) : M unit :=
  modify (fun m => Impl.set_transform (f (Impl.transform m)) m).

(** The state and the effects of a call. *)
Definition stateOf {A} (r : A * Impl.t * list Effect) : Impl.t := r.1.2.
Definition effectsOf {A} (r : A * Impl.t * list Effect) : list Effect := r.2.
Definition valueOf {A} (r : A * Impl.t * list Effect) : A := r.1.1.

(** [Map::Impl::onStyleLoading] is declared in map_impl.hpp and defined
    elsewhere.  Section 4.3 has it reset [cameraMutated]; section 5 has
    [Map::setStyle], which calls it before anything else, cancel the active
    transition.  It is a parameter: what is proved of [Map::setStyle] holds
    whatever it does. *)
Class StyleLoading := {
  onStyleLoading : M unit
}.

Module ImplOps.
Section WithEnv.
Context `{Math} `{Projection}.

(** Modelled from the spec: [Map::Impl::onUpdate] is declared in map_impl.hpp
    and defined elsewhere; it tells the renderer frontend that the map is
    dirty. *)
Definition onUpdate : M unit := emit Update.

(** Modelled from the spec: [Map::Impl::jumpTo] is declared in map_impl.hpp
    and defined elsewhere; a camera call records that the camera was mutated,
    jumps and asks for an update. *)
Definition jumpTo (camera : CameraOptions.t) : M unit :=
  modify (Impl.set_cameraMutated true);;
  onTransform (Transform.jumpTo camera);;
  onUpdate.

(** Modelled from the spec: the render loop's per-frame tick of section 5,
    which advances the active transition. *)
Definition tick (now : TimePoint) : M unit :=
  onTransform (Transform.advance now).

(** Modelled from the spec: [Map::Impl::onDidFinishRenderingFrame] is declared
    in map_impl.hpp and defined elsewhere; section 4.3 has it set
    [rendererFullyLoaded] to the negation of [needsRepaint]. *)
Definition onDidFinishRenderingFrame (renderMode : RenderMode) (needsRepaint : bool)
    (placementChanged : bool) (encodeTime renderTime : float) : M unit :=
  modify (Impl.set_rendererFullyLoaded (negb needsRepaint)).

(** The frames of a run of the renderer, each with its [needsRepaint]. *)
Fixpoint renderFrames (needsRepaint : list bool) : M unit :=
  match needsRepaint with
  | [] => mret tt
  | b :: bs => onDidFinishRenderingFrame Full b false 0%float 0%float;; renderFrames bs
  end.
End WithEnv.
End ImplOps.

(** ** map.cpp *)

Module mbgl.
Section WithEnv.
Context `{Math} `{Projection}.
Local Open Scope float_scope.

(** One turn of the loop over the points: the pixel of the point extends the
    south-west corner downwards and the north-east corner upwards. *)
Definition extendPixels (transform : Transform.t)
    (acc : ScreenCoordinate.t * ScreenCoordinate.t) (latLng : LatLng.t)
    : ScreenCoordinate.t * ScreenCoordinate.t :=
  let '(nePixel, swPixel) := acc in
  let pixel := latLngToScreenCoordinate (Transform.getState transform) latLng in
  (ScreenCoordinate.mk
     (Dbl.std_max (ScreenCoordinate.x nePixel) (ScreenCoordinate.x pixel))
     (Dbl.std_max (ScreenCoordinate.y nePixel) (ScreenCoordinate.y pixel)),
   ScreenCoordinate.mk
     (Dbl.std_min (ScreenCoordinate.x swPixel) (ScreenCoordinate.x pixel))
     (Dbl.std_min (ScreenCoordinate.y swPixel) (ScreenCoordinate.y pixel))).

(** The corners [(nePixel, swPixel)] after the loop. *)
Definition pixelBounds (latLngs : list LatLng.t) (transform : Transform.t)
    : ScreenCoordinate.t * ScreenCoordinate.t :=
  fold_left (extendPixels transform) latLngs
    (ScreenCoordinate.mk (- Dbl.INFINITY) (- Dbl.INFINITY),
     ScreenCoordinate.mk Dbl.INFINITY Dbl.INFINITY).

(** [minScale] as the function computes it before it looks at the zoom. *)
Definition minScale (latLngs : list LatLng.t) (transform : Transform.t)
    (padding : EdgeInsets.t) : float :=
  let size := TransformState.getSize (Transform.getState transform) in
  let '(nePixel, swPixel) := pixelBounds latLngs transform in
  let width := ScreenCoordinate.x nePixel - ScreenCoordinate.x swPixel in
  let height := ScreenCoordinate.y nePixel - ScreenCoordinate.y swPixel in
  if (0 <? width) || (0 <? height) then
    let scaleX := Dbl.of_Z (Size.width size) / width in
    let scaleY := Dbl.of_Z (Size.height size) / height in
    let scaleX := scaleX - (EdgeInsets.left padding + EdgeInsets.right padding) / width in
    let scaleY := scaleY - (EdgeInsets.top padding + EdgeInsets.bottom padding) / height in
    util.min scaleX scaleY
  else Dbl.INFINITY.

Definition zoomErrorMessage : string :=
  "Unable to calculate appropriate zoom level for bounds. Vertical or horizontal padding is greater than map's height or width.".

(** The free function [cameraForLatLngs(latLngs, transform, padding)]. *)
Definition cameraForLatLngs (latLngs : list LatLng.t) (transform : Transform.t)
    (padding : EdgeInsets.t) : CameraOptions.t * list Effect :=
  match latLngs with
  | [] => (CameraOptions.empty, [])
  | _ :: _ =>
      let '(nePixel, swPixel) := pixelBounds latLngs transform in
      let minScale_ := minScale latLngs transform padding in
      let zoom := Transform.getZoom transform in
      let '(zoom, logged) :=
        if 0 <? minScale_ then
          (util.clamp (zoom + log2 minScale_)
             (TransformState.getMinZoom (Transform.getState transform))
             (TransformState.getMaxZoom (Transform.getState transform)),
           [])
        else (zoom, [Log Error General zoomErrorMessage]) in
      let centerPixel := ScreenCoordinate.div (ScreenCoordinate.plus nePixel swPixel) 2 in
      (CameraOptions.withZoom (Some zoom)
         (CameraOptions.withPadding (Some padding)
            (CameraOptions.withCenter
               (Some (screenCoordinateToLatLng (Transform.getState transform) centerPixel))
               CameraOptions.empty)),
       logged)
  end.
End WithEnv.
End mbgl.

Module Map.
Section WithEnv.
Context `{Math} `{Projection} `{Gestures} `{StyleLoading}.
Local Open Scope float_scope.

Definition notStaticOrTile : string := "Map is not in static or tile image render modes".
Definition alreadyRendering : string := "Map is currently rendering an image".

(** [Map::renderStill(StillImageCallback)]; [None] is an empty
    [std::function]. *)
Definition renderStill (callback : option CallbackId) : M unit :=
  match callback with
  | None => emit (Log Error General "StillImageCallback not set")
  | Some cb =>
      m ← get;
      if negb (MapMode_eqb (Impl.mode m) Static) && negb (MapMode_eqb (Impl.mode m) Tile) then
        emit (Invoke cb (Some (MisuseException notStaticOrTile)))
      else if bool_decide (is_Some (Impl.stillImageRequest m)) then
        emit (Invoke cb (Some (MisuseException alreadyRendering)))
      else
        match Style.lastError (Impl.style m) with
        | Some e => emit (Invoke cb (Some e))
        | None =>
            modify (Impl.set_stillImageRequest (Some (StillImageRequest.mk cb)));;
            ImplOps.onUpdate
        end
  end.

(** [Map::renderStill(const CameraOptions&, MapDebugOptions, StillImageCallback)]. *)
Definition renderStillCamera (camera : CameraOptions.t) (debugOptions : MapDebugOptions)
    (callback : option CallbackId) : M unit :=
  modify (Impl.set_cameraMutated true);;
  modify (Impl.set_debugOptions debugOptions);;
  onTransform (Transform.jumpTo camera);;
  renderStill callback.

Definition triggerRepaint : M unit := ImplOps.onUpdate.

Definition getStyle (m : Impl.t) : Style.t := Impl.style m.

(** [Map::setStyle]; the argument is the style the pointer owns ([assert(style)]). *)
Definition setStyle (style : Style.t) : M unit :=
  onStyleLoading;;
  modify (Impl.set_style style);;
  if annotationsEnabled then
    m ← get;
    modify (Impl.set_annotationStyle (Some (Impl.style m)))
  else mret tt.

Definition cancelTransitions : M unit :=
  onTransform Transform.cancelTransitions;;
  ImplOps.onUpdate.

Definition setGestureInProgress (inProgress : bool) : M unit :=
  setTransform (Transform.setGestureInProgress inProgress);;
  ImplOps.onUpdate.

Definition isGestureInProgress (m : Impl.t) : bool :=
  Transform.isGestureInProgress (Impl.transform m).

Definition getCameraOptions (padding : option EdgeInsets.t) (m : Impl.t) : CameraOptions.t :=
  Transform.getCameraOptions padding (Impl.transform m).

Definition jumpTo (camera : CameraOptions.t) : M unit := ImplOps.jumpTo camera.

(** [now] is the reading of the clock when the transition starts. *)
Definition easeTo (camera : CameraOptions.t) (animation : AnimationOptions.t)
    (now : TimePoint) : M unit :=
  modify (Impl.set_cameraMutated true);;
  onTransform (Transform.easeTo camera animation now);;
  ImplOps.onUpdate.

Definition flyTo (camera : CameraOptions.t) (animation : AnimationOptions.t)
    (now : TimePoint) : M unit :=
  modify (Impl.set_cameraMutated true);;
  onTransform (Transform.flyTo camera animation now);;
  ImplOps.onUpdate.

Definition moveBy (point : ScreenCoordinate.t) (animation : AnimationOptions.t)
    (now : TimePoint) : M unit :=
  modify (Impl.set_cameraMutated true);;
  onTransform (Transform.moveBy point animation now);;
  ImplOps.onUpdate.

Definition pitchBy (pitch : float) (animation : AnimationOptions.t) (now : TimePoint) : M unit :=
  m ← get;
  easeTo (CameraOptions.withPitch
            (Some (util.rad2deg (Transform.getPitch (Impl.transform m)) - pitch))
            CameraOptions.empty)
         animation now.

Definition scaleBy (scale : float) (anchor : option ScreenCoordinate.t)
    (animation : AnimationOptions.t) (now : TimePoint) : M unit :=
  m ← get;
  let zoom := Transform.getZoom (Impl.transform m) + TransformState.scaleZoom scale in
  easeTo (CameraOptions.withAnchor anchor (CameraOptions.withZoom (Some zoom) CameraOptions.empty))
         animation now.

Definition rotateBy (first second : ScreenCoordinate.t) (animation : AnimationOptions.t)
    (now : TimePoint) : M unit :=
  modify (Impl.set_cameraMutated true);;
  onTransform (Transform.rotateBy first second animation now);;
  ImplOps.onUpdate.

(** [Map::cameraForLatLngs], a const method: the transform it jumps is a copy
    with no observer. *)
Definition cameraForLatLngs (latLngs : list LatLng.t) (padding : EdgeInsets.t)
    (bearing pitch : option float) : M CameraOptions.t :=
  m ← get;
  if negb (bool_decide (is_Some bearing)) && negb (bool_decide (is_Some pitch)) then
    emits (mbgl.cameraForLatLngs latLngs (Impl.transform m) padding)
  else
    let transform := Transform.of_state (Transform.getState (Impl.transform m)) in
    let transform :=
      if bool_decide (is_Some bearing) || bool_decide (is_Some pitch) then
        (Transform.jumpTo
           (CameraOptions.withPitch pitch (CameraOptions.withBearing bearing CameraOptions.empty))
           transform).1
      else transform in
    c ← emits (mbgl.cameraForLatLngs latLngs transform padding);
    mret (CameraOptions.withPitch (Some (util.rad2deg (Transform.getPitch transform)))
            (CameraOptions.withBearing (Some (util.rad2deg (- Transform.getBearing transform))) c)).

Definition cameraForLatLngBounds (bounds : LatLngBounds.t) (padding : EdgeInsets.t)
    (bearing pitch : option float) : M CameraOptions.t :=
  cameraForLatLngs
    [LatLngBounds.northwest bounds; LatLngBounds.southwest bounds;
     LatLngBounds.southeast bounds; LatLngBounds.northeast bounds]
    padding bearing pitch.

(** The two locals of [Map::setBounds]. *)
Definition Locals : Type := bool * CameraOptions.t.

Definition boundsStep (options : BoundOptions.t) (l : Locals) : M Locals :=
  match BoundOptions.bounds options with
  | Some b => setTransform (Transform.setLatLngBounds b);; mret (true, l.2)
  | None => mret l
  end.

Definition minZoomStep (options : BoundOptions.t) (l : Locals) : M Locals :=
  match BoundOptions.minZoom options with
  | Some z =>
      setTransform (Transform.setMinZoom z);;
      m ← get;
      if Transform.getZoom (Impl.transform m) <? z
      then mret (true, CameraOptions.withZoom (BoundOptions.minZoom options) l.2)
      else mret l
  | None => mret l
  end.

Definition maxZoomStep (options : BoundOptions.t) (l : Locals) : M Locals :=
  match BoundOptions.maxZoom options with
  | Some z =>
      setTransform (Transform.setMaxZoom z);;
      m ← get;
      if z <? Transform.getZoom (Impl.transform m)
      then mret (true, CameraOptions.withZoom (BoundOptions.maxZoom options) l.2)
      else mret l
  | None => mret l
  end.

Definition maxPitchStep (options : BoundOptions.t) (l : Locals) : M Locals :=
  match BoundOptions.maxPitch options with
  | Some p =>
      setTransform (Transform.setMaxPitch p);;
      m ← get;
      if TransformState.getMaxPitch (Transform.getState (Impl.transform m))
           <? Transform.getPitch (Impl.transform m)
      then mret (true, CameraOptions.withPitch (BoundOptions.maxPitch options) l.2)
      else mret l
  | None => mret l
  end.

Definition minPitchStep (options : BoundOptions.t) (l : Locals) : M Locals :=
  match BoundOptions.minPitch options with
  | Some p =>
      setTransform (Transform.setMinPitch p);;
      m ← get;
      if Transform.getPitch (Impl.transform m)
           <? TransformState.getMinPitch (Transform.getState (Impl.transform m))
      then mret (true, CameraOptions.withPitch (BoundOptions.minPitch options) l.2)
      else mret l
  | None => mret l
  end.

(** [Map::setBounds]. *)
Definition setBounds (options : BoundOptions.t) : M unit :=
  l ← boundsStep options (false, CameraOptions.empty);
  l ← minZoomStep options l;
  l ← maxZoomStep options l;
  l ← maxPitchStep options l;
  l ← minPitchStep options l;
  if fst (l : Locals) then jumpTo (snd l) else mret tt.

Definition getBounds (m : Impl.t) : BoundOptions.t :=
  let s := Transform.getState (Impl.transform m) in
  BoundOptions.mk
    (TransformState.getLatLngBounds s)
    (Some (TransformState.getMinZoom s))
    (Some (TransformState.getMaxZoom s))
    (Some (util.rad2deg (TransformState.getMinPitch s)))
    (Some (util.rad2deg (TransformState.getMaxPitch s))).

Definition setDebug (debugOptions : MapDebugOptions) : M unit :=
  modify (Impl.set_debugOptions debugOptions);;
  ImplOps.onUpdate.

Definition getDebug (m : Impl.t) : MapDebugOptions := Impl.debugOptions m.

(** [Map::setPrefetchZoomDelta(uint8_t delta)]: the call converts its
    argument to eight bits. *)
Definition setPrefetchZoomDelta (delta : Z) : M unit :=
  modify (Impl.set_prefetchZoomDelta (delta mod 256)).

Definition getPrefetchZoomDelta (m : Impl.t) : Z := Impl.prefetchZoomDelta m.

(** [Map::isFullyLoaded]. *)
Definition isFullyLoaded (m : Impl.t) : bool :=
  Style.loaded (Impl.style m) && Impl.rendererFullyLoaded m.
End WithEnv.
End Map.

(** ** [Map::setBounds] in closed form *)

Module Bounds.
Local Open Scope float_scope.







End Bounds.


(** ** Corners of the pixel bounds *)

(** The four coordinates of the corners are numbers. *)
Definition numbers (acc : ScreenCoordinate.t * ScreenCoordinate.t) : Prop :=
  Dbl.isnan (ScreenCoordinate.x acc.1) = false /\
  Dbl.isnan (ScreenCoordinate.y acc.1) = false /\
  Dbl.isnan (ScreenCoordinate.x acc.2) = false /\
  Dbl.isnan (ScreenCoordinate.y acc.2) = false.

(** The first pair of corners lies inside the second. *)
Definition inside (a b : ScreenCoordinate.t * ScreenCoordinate.t) : Prop :=
  Dbl.le (ScreenCoordinate.x a.1) (ScreenCoordinate.x b.1) /\
  Dbl.le (ScreenCoordinate.y a.1) (ScreenCoordinate.y b.1) /\
  Dbl.le (ScreenCoordinate.x b.2) (ScreenCoordinate.x a.2) /\
  Dbl.le (ScreenCoordinate.y b.2) (ScreenCoordinate.y a.2).

(** ** Sequences of camera calls *)

(** The calls that can change the camera: the camera methods of the map, the
    frame tick and the cancellation. *)
Inductive CameraCall :=
| JumpTo (camera : CameraOptions.t)
| EaseTo (camera : CameraOptions.t) (animation : AnimationOptions.t) (now : TimePoint)
| PitchBy (pitch : float) (animation : AnimationOptions.t) (now : TimePoint)
| ScaleBy (scale : float) (anchor : option ScreenCoordinate.t)
          (animation : AnimationOptions.t) (now : TimePoint)
| Tick (now : TimePoint)
| CancelTransitions.


Section WithEnv.
Context `{Math} `{Projection} `{Gestures}.

Definition call (c : CameraCall) : M unit :=
  match c with
  | JumpTo camera => Map.jumpTo camera
  | EaseTo camera animation now => Map.easeTo camera animation now
  | PitchBy pitch animation now => Map.pitchBy pitch animation now
  | ScaleBy scale anchor animation now => Map.scaleBy scale anchor animation now
  | Tick now => ImplOps.tick now
  | CancelTransitions => Map.cancelTransitions
  end.

Fixpoint calls (cs : list CameraCall) : M unit :=
  match cs with
  | [] => mret tt
  | c :: cs => call c;; calls cs
  end.



End WithEnv.

(** A misuse of [Map::renderStill]: the mode is neither Static nor Tile, or a
    still image is being rendered. *)
Definition misuse (m : Impl.t) : Prop :=
  (Impl.mode m <> Static /\ Impl.mode m <> Tile) \/ is_Some (Impl.stillImageRequest m).

(** The state of the map's transform. *)
Definition stateOfMap (m : Impl.t) : TransformState.t :=
  Transform.getState (Impl.transform m).


(** Two states differ at most in their camera. *)
Definition sameLimits (s s' : TransformState.t) : Prop :=
  forall c, TransformState.setCamera c s' = TransformState.setCamera c s.

(** One of the ticks comes at or after the deadline. *)
Definition reaches (deadline : TimePoint) (ticks : list TimePoint) : bool :=
  existsb (fun now => (deadline <=? now)%Z) ticks.

(** How often a transition-finished callback ran. *)
Definition isFinished (k : CallbackId) (e : Effect) : bool :=
  match e with Finished j => Nat.eqb j k | _ => false end.
Definition finishedCount (k : CallbackId) (es : list Effect) : nat :=
  List.length (List.filter (isFinished k) es).

(** ** Action journal: rolling files *)

Module ActionJournal.
Local Open Scope nat_scope.

(** Modelled from the spec: [ActionJournalOptions] of section 6
    (mbgl/util/action_journal_options.hpp is missing). *)
Record Options := mkOptions {
  enabled : bool;
  path : string;
  logFileSize : nat;
  logFileCount : nat
}.

(** One serialized event: a JSON object on one line. *)
Definition Line := string.

(** Modelled from the spec: the file names of section 6.  The journal's
    directory holds the lines of action_journal.i.log under the index i. *)
Definition fileName (i : nat) : string :=
  String.append "action_journal." (String.append (pretty i) ".log").

(** Modelled from the spec: the size of a file in bytes, one line and its
    newline per event. *)
Definition fileSize (lines : list Line) : nat :=
  foldr (fun l n => String.length l + 1 + n) 0 lines.

(** Modelled from the spec: the three file operations of a rotation.  A
    rename of a file that does not exist changes nothing (section 4.4: errors
    are swallowed). *)
Definition remove (i : nat) (fs : gmap nat (list Line)) : gmap nat (list Line) :=
  delete i fs.
Definition rename (i j : nat) (fs : gmap nat (list Line)) : gmap nat (list Line) :=
  match fs !! i with
  | Some c => <[j := c]> (delete i fs)
  | None => fs
  end.
Definition create (i : nat) (fs : gmap nat (list Line)) : gmap nat (list Line) :=
  <[i := []]> fs.

(** Modelled from the spec: rename i to i+1 for i from k-1 down to 0. *)
Fixpoint renameAll (k : nat) (fs : gmap nat (list Line)) : gmap nat (list Line) :=
  match k with
  | 0 => fs
  | S i => renameAll i (rename i (S i) fs)
  end.

(** Modelled from the spec: the journal's implementation
    (mbgl/util/action_journal_impl.cpp) is missing.  Section 4.4: delete file
    N-1 if present, rename i to i+1 for i from N-2 down to 0, create a new
    empty file 0. *)
Definition rotate (n : nat) (fs : gmap nat (list Line)) : gmap nat (list Line) :=
  create 0 (renameAll (n - 1) (remove (n - 1) fs)).

(** The directory after each file operation of a rotation, in order. *)
Fixpoint renameTrace (k : nat) (fs : gmap nat (list Line)) : list (gmap nat (list Line)) :=
  match k with
  | 0 => []
  | S i => rename i (S i) fs :: renameTrace i (rename i (S i) fs)
  end.
Definition rotateTrace (n : nat) (fs : gmap nat (list Line)) : list (gmap nat (list Line)) :=
  let fs1 := remove (n - 1) fs in
  fs1 :: renameTrace (n - 1) fs1 ++ [rotate n fs].

Definition currentFile (fs : gmap nat (list Line)) : list Line := default [] (fs !! 0).

Definition mustRotate (o : Options) (fs : gmap nat (list Line)) : bool :=
  bool_decide (logFileSize o <= fileSize (currentFile fs)).

Definition write (line : Line) (fs : gmap nat (list Line)) : gmap nat (list Line) :=
  <[0 := currentFile fs ++ [line]]> fs.

(** Modelled from the spec: on append, if the size of file 0 has reached
    [logFileSize] the files are rotated; the event then goes to file 0. *)
Definition append (o : Options) (line : Line) (fs : gmap nat (list Line)) : gmap nat (list Line) :=
  write line (if mustRotate o fs then rotate (logFileCount o) fs else fs).

(** The directory after a run of appends. *)
Definition appendAll (o : Options) (lines : list Line) (fs : gmap nat (list Line))
    : gmap nat (list Line) :=
  fold_left (fun d line => append o line d) lines fs.

(** Every directory the disk goes through during an append. *)
Definition appendTrace (o : Options) (line : Line) (fs : gmap nat (list Line))
    : list (gmap nat (list Line)) :=
  (if mustRotate o fs then rotateTrace (logFileCount o) fs else []) ++ [append o line fs].

(** The events on disk, oldest first: files n-1 down to 0. *)
Fixpoint events (n : nat) (fs : gmap nat (list Line)) : list Line :=
  match n with
  | 0 => []
  | S i => default [] (fs !! i) ++ events i fs
  end.

(** All files carry an index below n. *)
Definition within (n : nat) (fs : gmap nat (list Line)) : Prop :=
  forall i, is_Some (fs !! i) -> i < n.
End ActionJournal.

(** ** Values for the examples *)

Module Fixture.
Local Open Scope float_scope.

(** A stand-in for [util::log2]: exact on the powers of two, linear between
    them. *)
Definition testLog2 (a : float) : float :=
  let '(m, e) := Z.frexp a in
  (if (e <? 0)%Z then - Dbl.of_Z (- e) else Dbl.of_Z e) - 1 + (2 * m - 1).

Definition testMath : Math := {|
  log2 := testLog2;
  wrapAngle := fun a => a
|}.

(** A flat projection: one pixel per degree, x along the longitude and y
    along the latitude. *)
Definition flat : Projection := {|
  latLngToScreenCoordinate := fun _ p =>
    ScreenCoordinate.mk (LatLng.longitude p) (LatLng.latitude p);
  screenCoordinateToLatLng := fun _ c =>
    LatLng.mk (ScreenCoordinate.y c) (ScreenCoordinate.x c);
  resolveCenter := fun s c =>
    default (Camera.center (TransformState.camera s)) (CameraOptions.center c);
  annotationsEnabled := true;
  cancelled := fun _ => [CameraDidChange Animated]
|}.

(** Moving by a screen vector shifts the center by as many degrees; a
    rotation turns to the angle of the second point, in degrees. *)
Definition gestures : Gestures := {|
  movedCenter := fun s p =>
    LatLng.mk (LatLng.latitude (Camera.center (TransformState.camera s)) - ScreenCoordinate.y p)
              (LatLng.longitude (Camera.center (TransformState.camera s)) - ScreenCoordinate.x p);
  rotatedBearing := fun s first second => ScreenCoordinate.x second
|}.

Definition camera0 : Camera.t :=
  Camera.mk (LatLng.mk 0 0) 5 0 0 (EdgeInsets.mk 0 0 0 0).

(** A 100 by 100 viewport at zoom 5, zoom range 0 to 22, pitch range 0 to 60
    degrees. *)
Definition state0 : TransformState.t :=
  TransformState.mk camera0 (Size.mk 100 100) None 0 22 0 (util.deg2rad 60).

Definition style0 : Style.t := Style.mk "streets" true None.

Definition map0 (mode : MapMode) : Impl.t :=
  Impl.mk (Transform.of_state state0) mode 1 true NoDebug style0 None false 4%Z false false None.

Definition linear : float -> float := fun k => k.

(** A transition to zoom 10 that started at time 0 and lasts a second. *)
Definition toZoom10 : Transform.Transition :=
  Transform.mkTransition 0%Z 1000%Z camera0
    (Camera.mk (LatLng.mk 0 0) 10 0 0 (EdgeInsets.mk 0 0 0 0)) linear (Some 1%nat).

Definition easing0 : Impl.t :=
  Impl.set_transform (Transform.mk state0 false (Some toZoom10)) (map0 Continuous).


End Fixture.

(** ** The Android binding: Style.java and MapView.java

    The Java classes [Style] and [MapView] of the Android platform code.  A
    method is a function from the object to what it returns or throws, the
    object it leaves and the calls it made on other objects, in order.  The
    native peer behind [NativeMap] is a parameter. *)

Module android.

(** A Java [float], kept as its 32 bits: the code below only copies them. *)
Definition jfloat := Z.

Module Source.
(** What [Style] reads of a [Source]: the identity of the Java object and
    what its [getId()] returns.  Its [setDetached()] is an effect. *)
Record t := mk { ref : nat; getId : string }.
End Source.

Module Layer.
(** What [Style] reads of a [Layer]. *)
Record t := mk { ref : nat; getId : string }.
End Layer.

Module Bitmap.
(** A bitmap, a transition and a light are passed on as they are: only
    their identity counts. *)
Record t := mk { ref : nat }.
End Bitmap.

Module TransitionOptions.
Record t := mk { ref : nat }.
End TransitionOptions.

Module Light.
Record t := mk { ref : nat }.
End Light.

Module ImageStretches.
Record t := mk { getFirst : jfloat; getSecond : jfloat }.
End ImageStretches.

Module ImageContent.
Record t := mk { getContentArray : list jfloat }.
End ImageContent.

Module Image.
(** The arguments of the constructors of [Image].  The pixel buffer, the
    pixel ratio, the width and the height are read from one bitmap (from its
    ARGB_8888 copy when it has another config): [pixels] is that bitmap.  The
    short constructor takes no arrays: [None]; so is a [null] content. *)
Record t := mk {
  pixels : Bitmap.t;
  name : string;
  sdf : bool;
  stretchX : option (list jfloat);
  stretchY : option (list jfloat);
  content : option (list jfloat)
}.
End Image.

Module HashMap.
(** A [java.util.HashMap<String, V>] that is handed to the style as an
    argument and only read: its entries in the order in which [keySet()]
    iterates them, whatever that order is.  The keys of a map are distinct. *)
Definition t (V : Type) : Type := list (string * V).

Definition size {V} (m : t V) : nat := List.length m.
Definition keySet {V} (m : t V) : list string := m.*1.

(** [get(key)]; [None] is [null]. *)
Fixpoint get {V} (m : t V) (key : string) : option V :=
  match m with
  | [] => None
  | entry :: m => if String.eqb entry.1 key then Some entry.2 else get m key
  end.

Definition distinct {V} (m : t V) : Prop := NoDup (keySet m).
End HashMap.

Module ImageWrapper.
(** [Style.Builder.ImageWrapper]; [None] is [null]. *)
Record t := mk {
  id : string;
  bitmap : Bitmap.t;
  sdf : bool;
  stretchX : option (list ImageStretches.t);
  stretchY : option (list ImageStretches.t);
  content : option ImageContent.t
}.

(** The constructor [ImageWrapper(id, bitmap, sdf)]. *)
Definition mk3 (id : string) (bitmap : Bitmap.t) (sdf : bool) : t :=
  mk id bitmap sdf None None None.

(** [convertToImageArray(bitmapHashMap, sdf)]: the loop over the indices of
    the key list, slot [i] holding the wrapper of the [i]-th key of the key
    set with the bitmap the map gives for it. *)
Definition convertToImageArray (bitmapHashMap : HashMap.t Bitmap.t) (sdf : bool) : list t :=
  let keyList := HashMap.keySet bitmapHashMap in
  omap (fun i => id ← keyList !! i;
                 (fun bitmap => mk3 id bitmap sdf) <$> HashMap.get bitmapHashMap id)
       (seq 0 (HashMap.size bitmapHashMap)).

(** [convertToImageArray(bitmapHashMap, sdf, stretchX, stretchY, content)]. *)
Definition convertToImageArrayStretch (bitmapHashMap : HashMap.t Bitmap.t) (sdf : bool)
    (stretchX stretchY : option (list ImageStretches.t)) (content : option ImageContent.t)
    : list t :=
  let keyList := HashMap.keySet bitmapHashMap in
  omap (fun i => id ← keyList !! i;
                 (fun bitmap => mk id bitmap sdf stretchX stretchY content)
                   <$> HashMap.get bitmapHashMap id)
       (seq 0 (HashMap.size bitmapHashMap)).
End ImageWrapper.

(** The loop of [Style.toImage] over a list of stretches: a [float] array of
    twice the size, slot [2 i] and slot [2 i + 1] written at turn [i]. *)
Definition stretchArray (stretch : list ImageStretches.t) : list jfloat :=
  fold_left
    (fun array i =>
       match stretch !! i with
       | Some s =>
           <[(i * 2 + 1)%nat := ImageStretches.getSecond s]>
             (<[(i * 2)%nat := ImageStretches.getFirst s]> array)
       | None => array
       end)
    (seq 0 (List.length stretch))
    (replicate (List.length stretch * 2) 0).

(** The firsts and seconds of a list of stretches, in a row. *)
Definition pairs (stretch : list ImageStretches.t) : list jfloat :=
  flat_map (fun s => [ImageStretches.getFirst s; ImageStretches.getSecond s]) stretch.

(** [Style.toImage]. *)
Definition toImage (imageWrapper : ImageWrapper.t) : Image.t :=
  match ImageWrapper.stretchX imageWrapper, ImageWrapper.stretchY imageWrapper with
  | Some stretchX, Some stretchY =>
      Image.mk (ImageWrapper.bitmap imageWrapper) (ImageWrapper.id imageWrapper)
        (ImageWrapper.sdf imageWrapper)
        (Some (stretchArray stretchX)) (Some (stretchArray stretchY))
        (ImageContent.getContentArray <$> ImageWrapper.content imageWrapper)
  | _, _ =>
      Image.mk (ImageWrapper.bitmap imageWrapper) (ImageWrapper.id imageWrapper)
        (ImageWrapper.sdf imageWrapper) None None None
  end.

Module LayerWrapper.
(** [Builder.LayerWrapper] and its three subclasses. *)
Inductive t :=
| Plain (layer : Layer.t)
| At (layer : Layer.t) (index : Z)
| Above (layer : Layer.t) (aboveLayer : string)
| Below (layer : Layer.t) (belowLayer : string).

Definition getLayer (w : t) : Layer.t :=
  match w with
  | Plain l | At l _ | Above l _ | Below l _ => l
  end.
End LayerWrapper.

Module Builder.
(** [Style.Builder]; every [with] method returns the builder it changed. *)
Record t := mk {
  sources : list Source.t;
  layers : list LayerWrapper.t;
  images : list ImageWrapper.t;
  transitionOptions : option TransitionOptions.t;
  styleUri : option string;
  styleJson : option string
}.

Definition new : t := mk [] [] [] None None None.

Definition fromUrl (url : string) (b : t) : t :=
  mk (sources b) (layers b) (images b) (transitionOptions b) (Some url) (styleJson b).
Definition fromUri (uri : string) (b : t) : t :=
  mk (sources b) (layers b) (images b) (transitionOptions b) (Some uri) (styleJson b).
Definition fromJson (json : string) (b : t) : t :=
  mk (sources b) (layers b) (images b) (transitionOptions b) (styleUri b) (Some json).

Definition withSource (source : Source.t) (b : t) : t :=
  mk (sources b ++ [source]) (layers b) (images b) (transitionOptions b)
     (styleUri b) (styleJson b).
Definition withSources (sources_ : list Source.t) (b : t) : t :=
  mk (sources b ++ sources_) (layers b) (images b) (transitionOptions b)
     (styleUri b) (styleJson b).

Definition addWrapper (w : LayerWrapper.t) (b : t) : t :=
  mk (sources b) (layers b ++ [w]) (images b) (transitionOptions b)
     (styleUri b) (styleJson b).
Definition withLayer (layer : Layer.t) : t -> t :=
  addWrapper (LayerWrapper.Plain layer).
Definition withLayers (layers_ : list Layer.t) (b : t) : t :=
  fold_left (fun b layer => addWrapper (LayerWrapper.Plain layer) b) layers_ b.
Definition withLayerAt (layer : Layer.t) (index : Z) : t -> t :=
  addWrapper (LayerWrapper.At layer index).
Definition withLayerAbove (layer : Layer.t) (aboveLayerId : string) : t -> t :=
  addWrapper (LayerWrapper.Above layer aboveLayerId).
Definition withLayerBelow (layer : Layer.t) (belowLayerId : string) : t -> t :=
  addWrapper (LayerWrapper.Below layer belowLayerId).

Definition withTransition (transition : TransitionOptions.t) (b : t) : t :=
  mk (sources b) (layers b) (images b) (Some transition) (styleUri b) (styleJson b).

(** [withImage(id, image, sdf)]. *)
Definition withImage (id : string) (image : Bitmap.t) (sdf : bool) (b : t) : t :=
  mk (sources b) (layers b) (images b ++ [ImageWrapper.mk3 id image sdf])
     (transitionOptions b) (styleUri b) (styleJson b).

(** [withImage(id, image, sdf, stretchX, stretchY, content)]. *)
Definition withImageStretch (id : string) (image : Bitmap.t) (sdf : bool)
    (stretchX stretchY : option (list ImageStretches.t)) (content : option ImageContent.t)
    (b : t) : t :=
  mk (sources b) (layers b)
     (images b ++ [ImageWrapper.mk id image sdf stretchX stretchY content])
     (transitionOptions b) (styleUri b) (styleJson b).

(** [withBitmapImages(sdf, values)]. *)
Definition withBitmapImages (sdf : bool) (values : list (string * Bitmap.t)) (b : t) : t :=
  fold_left (fun b value => withImage value.1 value.2 sdf b) values b.
End Builder.

(** What a Java call can throw. *)
Inductive Throwable :=
| IllegalStateException (message : string)
| IllegalArgumentException (message : string)
| NullPointerException
| NativeException (message : string).

Inductive result (A : Type) :=
| Ok (a : A)
| Throw (e : Throwable).
Arguments Ok {A} a.
Arguments Throw {A} e.

(** A method takes the object and gives what it returns or throws, the object
    it leaves and what it did to other objects, in order.  What was done
    before a throw stays done. *)
Definition Run (S E A : Type) : Type := S -> result A * S * list E.

#[global] Instance Run_ret {S E} : MRet (Run S E) := fun A a s => (Ok a, s, []).

#[global] Instance Run_bind {S E} : MBind (Run S E) := fun A B k c s =>
  match c s with
  | (Ok a, s1, e1) => let '(r, s2, e2) := k a s1 in (r, s2, e1 ++ e2)
  | (Throw x, s1, e1) => (Throw x, s1, e1)
  end.

Definition get {S E} : Run S E S := fun s => (Ok s, s, []).
Definition modify {S E} (f : S -> S) : Run S E unit := fun s => (Ok tt, f s, []).
Definition emit {S E} (e : E) : Run S E unit := fun s => (Ok tt, s, [e]).
Definition throw {S E A} (e : Throwable) : Run S E A := fun s => (Throw e, s, []).

(** A [for] loop over a list. *)
Fixpoint each {S E A} (f : A -> Run S E unit) (l : list A) : Run S E unit :=
  match l with
  | [] => mret tt
  | a :: l => f a;; each f l
  end.

(** A call whose result is dropped. *)
Definition void {S E A} (c : Run S E A) : Run S E unit := c ≫= fun _ => mret tt.

Definition stateOf {S E A} (r : result A * S * list E) : S := r.1.2.
Definition effectsOf {S E A} (r : result A * S * list E) : list E := r.2.
Definition resultOf {S E A} (r : result A * S * list E) : result A := r.1.1.

(** The outcome of a call with effects put in front of its own. *)
Definition after {S E A} (es : list E) (r : result A * S * list E) : result A * S * list E :=
  (r.1.1, r.1.2, es ++ r.2).

(** A property of the object that a call keeps, whatever it returns or
    throws. *)
Definition preserves {S E A} (P : S -> Prop) (c : Run S E A) : Prop :=
  forall s, P s -> P (stateOf (c s)).

(** A property of every effect of a call. *)
Definition always {S E A} (Q : E -> Prop) (c : Run S E A) : Prop :=
  forall s, Forall Q (effectsOf (c s)).

(** The methods of the interface [NativeMap] that [Style] calls. *)
Inductive Call :=
| GetStyleUri
| GetStyleJson
| GetSources
| AddSource (source : Source.t)
| GetSource (id : string)
| RemoveSourceId (id : string)
| RemoveSource (source : Source.t)
| AddLayer (layer : Layer.t)
| AddLayerBelow (layer : Layer.t) (below : string)
| AddLayerAbove (layer : Layer.t) (above : string)
| AddLayerAt (layer : Layer.t) (index : Z)
| GetLayer (id : string)
| GetLayers
| RemoveLayerId (id : string)
| RemoveLayer (layer : Layer.t)
| RemoveLayerAt (index : Z)
| AddImages (images : list Image.t)
| RemoveImage (name : string)
| GetImage (id : string)
| SetTransitionOptions (transitionOptions : TransitionOptions.t)
| GetTransitionOptions
| GetLight.

(** The type a call returns; [None] is [null]. *)
Definition Response (c : Call) : Type :=
  match c with
  | GetStyleUri | GetStyleJson => string
  | GetSources => list Source.t
  | GetSource _ => option Source.t
  | GetLayer _ => option Layer.t
  | GetLayers => list Layer.t
  | RemoveSourceId _ | RemoveSource _
  | RemoveLayerId _ | RemoveLayer _ | RemoveLayerAt _ => bool
  | GetImage _ => option Bitmap.t
  | GetTransitionOptions => TransitionOptions.t
  | GetLight => option Light.t
  | AddSource _ | AddLayer _ | AddLayerBelow _ _ | AddLayerAbove _ _ | AddLayerAt _ _
  | AddImages _ | RemoveImage _ | SetTransitionOptions _ => unit
  end.

(** The native peer behind the interface: every statement below holds
    whatever it answers. *)
Class NativeMap := {
  (** The state of the peer. *)
  peer : Type;
  (** What a call returns or throws, and the state it leaves. *)
  invoke : forall c : Call, peer -> result (Response c) * peer
}.

(** [MapLibreConstants.LAYER_ID_ANNOTATIONS]. *)
Class MapLibreConstants := {
  LAYER_ID_ANNOTATIONS : string
}.

(** Everything a method of [Style] does to other objects. *)
Inductive Effect :=
| Native (c : Call)
| SourceSetDetached (source : Source.t)
| LayerSetDetached (layer : Layer.t)
| Recycle (bitmap : Bitmap.t).

Module Method.
(** The public methods of a style. *)
Inductive t :=
| GetUrl | GetUri | GetJson
| GetSources
| AddSource (source : Source.t)
| GetSource (id : string)
| GetSourceAs (id : string)
| RemoveSource (id : string)
| RemoveSourceObject (source : Source.t)
| AddLayer (layer : Layer.t)
| AddLayerBelow (layer : Layer.t) (below : string)
| AddLayerAbove (layer : Layer.t) (above : string)
| AddLayerAt (layer : Layer.t) (index : Z)
| GetLayer (id : string)
| GetLayerAs (id : string)
| GetLayers
| RemoveLayer (id : string)
| RemoveLayerObject (layer : Layer.t)
| RemoveLayerAt (index : Z)
| AddImage (name : string) (bitmap : Bitmap.t) (sdf : bool)
| AddImageStretch (name : string) (bitmap : Bitmap.t) (sdf : bool)
    (stretchX stretchY : option (list ImageStretches.t)) (content : option ImageContent.t)
| AddImages (images : HashMap.t Bitmap.t) (sdf : bool)
| AddImagesStretch (images : HashMap.t Bitmap.t) (sdf : bool)
    (stretchX stretchY : option (list ImageStretches.t)) (content : option ImageContent.t)
| RemoveImage (name : string)
| GetImage (id : string)
| SetTransition (transitionOptions : TransitionOptions.t)
| GetTransition
| GetLight.
End Method.

Module Style.
Section WithNativeMap.
Context `{NativeMap} `{MapLibreConstants}.

(** The fields of [Style].  [nativeMap] is the state of the peer the field
    refers to, [builder] the builder as the style finds it.  The maps hold no
    [null]: a put is preceded by a [getId()] on the value. *)
Record t := mk {
  nativeMap : peer;
  sources : gmap string Source.t;
  layers : gmap string Layer.t;
  images : gmap string Bitmap.t;
  builder : Builder.t;
  fullyLoaded : bool
}.

Definition set_nativeMap (x : peer) (s : t) : t :=
  mk x (sources s) (layers s) (images s) (builder s) (fullyLoaded s).
Definition set_sources (x : gmap string Source.t) (s : t) : t :=
  mk (nativeMap s) x (layers s) (images s) (builder s) (fullyLoaded s).
Definition set_layers (x : gmap string Layer.t) (s : t) : t :=
  mk (nativeMap s) (sources s) x (images s) (builder s) (fullyLoaded s).
Definition set_images (x : gmap string Bitmap.t) (s : t) : t :=
  mk (nativeMap s) (sources s) (layers s) x (builder s) (fullyLoaded s).
Definition set_fullyLoaded (x : bool) (s : t) : t :=
  mk (nativeMap s) (sources s) (layers s) (images s) (builder s) x.

(** The private constructor, as [Builder.build] calls it. *)
Definition new (builder : Builder.t) (nativeMap : peer) : t :=
  mk nativeMap ∅ ∅ ∅ builder false.

(** A call on [nativeMap]. *)
Definition native (c : Call) : Run t Effect (Response c) := fun s =>
  let '(r, p) := invoke c (nativeMap s) in (r, set_nativeMap p s, [Native c]).

Definition stale (methodCall : string) : string :=
  String.append "Calling "
    (String.append methodCall " when a newer style is loading/has loaded.").

Definition validateState (methodCall : string) : Run t Effect unit :=
  s ← get;
  if negb (fullyLoaded s) then throw (IllegalStateException (stale methodCall))
  else mret tt.

Definition getUrl : Run t Effect string := validateState "getUrl";; native GetStyleUri.
Definition getUri : Run t Effect string := validateState "getUri";; native GetStyleUri.
Definition getJson : Run t Effect string := validateState "getJson";; native GetStyleJson.

Definition getSources : Run t Effect (list Source.t) :=
  validateState "getSources";; native GetSources.

Definition addSource (source : Source.t) : Run t Effect unit :=
  validateState "addSource";;
  native (AddSource source);;
  modify (fun s => set_sources (<[Source.getId source := source]> (sources s)) s).

Definition getSource (id : string) : Run t Effect (option Source.t) :=
  validateState "getSource";;
  s ← get;
  match sources s !! id with
  | Some source => mret (Some source)
  | None => native (GetSource id)
  end.

Definition getSourceAs (sourceId : string) : Run t Effect (option Source.t) :=
  validateState "getSourceAs";;
  s ← get;
  if bool_decide (sourceId ∈ dom (sources s)) then mret (sources s !! sourceId)
  else native (GetSource sourceId).

(** [removeSource(String)]. *)
Definition removeSource (sourceId : string) : Run t Effect bool :=
  validateState "removeSource";;
  successful ← native (RemoveSourceId sourceId);
  (if successful : bool
   then modify (fun s => set_sources (delete sourceId (sources s)) s)
   else mret tt);;
  mret successful.

(** [removeSource(Source)]. *)
Definition removeSourceObject (source : Source.t) : Run t Effect bool :=
  validateState "removeSource";;
  successful ← native (RemoveSource source);
  (if successful : bool
   then modify (fun s => set_sources (delete (Source.getId source) (sources s)) s)
   else mret tt);;
  mret successful.

Definition putLayer (layer : Layer.t) : Run t Effect unit :=
  modify (fun s => set_layers (<[Layer.getId layer := layer]> (layers s)) s).

Definition addLayer (layer : Layer.t) : Run t Effect unit :=
  validateState "addLayer";;
  native (AddLayer layer);;
  putLayer layer.

Definition addLayerBelow (layer : Layer.t) (below : string) : Run t Effect unit :=
  validateState "addLayerBelow";;
  native (AddLayerBelow layer below);;
  putLayer layer.

Definition addLayerAbove (layer : Layer.t) (above : string) : Run t Effect unit :=
  validateState "addLayerAbove";;
  native (AddLayerAbove layer above);;
  putLayer layer.

Definition addLayerAt (layer : Layer.t) (index : Z) : Run t Effect unit :=
  validateState "addLayerAbove";;
  native (AddLayerAt layer index);;
  putLayer layer.

Definition getLayer (id : string) : Run t Effect (option Layer.t) :=
  validateState "getLayer";;
  s ← get;
  match layers s !! id with
  | Some layer => mret (Some layer)
  | None => native (GetLayer id)
  end.

Definition getLayerAs (layerId : string) : Run t Effect (option Layer.t) :=
  validateState "getLayerAs";; native (GetLayer layerId).

Definition getLayers : Run t Effect (list Layer.t) :=
  validateState "getLayers";; native GetLayers.

(** [removeLayer(String)]. *)
Definition removeLayer (layerId : string) : Run t Effect bool :=
  validateState "removeLayer";;
  modify (fun s => set_layers (delete layerId (layers s)) s);;
  native (RemoveLayerId layerId).

(** [removeLayer(Layer)]. *)
Definition removeLayerObject (layer : Layer.t) : Run t Effect bool :=
  validateState "removeLayer";;
  modify (fun s => set_layers (delete (Layer.getId layer) (layers s)) s);;
  native (RemoveLayer layer).

Definition removeLayerAt (index : Z) : Run t Effect bool :=
  validateState "removeLayerAt";; native (RemoveLayerAt index).

(** [addImage(name, bitmap, sdf)]. *)
Definition addImage (name : string) (bitmap : Bitmap.t) (sdf : bool) : Run t Effect unit :=
  validateState "addImage";;
  native (AddImages [toImage (ImageWrapper.mk3 name bitmap sdf)]).

(** [addImage(name, bitmap, sdf, stretchX, stretchY, content)]. *)
Definition addImageStretch (name : string) (bitmap : Bitmap.t) (sdf : bool)
    (stretchX stretchY : option (list ImageStretches.t)) (content : option ImageContent.t)
    : Run t Effect unit :=
  validateState "addImage";;
  native (AddImages [toImage (ImageWrapper.mk name bitmap sdf stretchX stretchY content)]).

(** [addImages(images, sdf)]. *)
Definition addImages (images_ : HashMap.t Bitmap.t) (sdf : bool) : Run t Effect unit :=
  validateState "addImage";;
  native (AddImages (toImage <$> ImageWrapper.convertToImageArray images_ sdf)).

(** [addImages(images, sdf, stretchX, stretchY, content)]. *)
Definition addImagesStretch (images_ : HashMap.t Bitmap.t) (sdf : bool)
    (stretchX stretchY : option (list ImageStretches.t)) (content : option ImageContent.t)
    : Run t Effect unit :=
  validateState "addImage";;
  native (AddImages (toImage <$>
    ImageWrapper.convertToImageArrayStretch images_ sdf stretchX stretchY content)).

Definition removeImage (name : string) : Run t Effect unit :=
  validateState "removeImage";; native (RemoveImage name).

Definition getImage (id : string) : Run t Effect (option Bitmap.t) :=
  validateState "getImage";; native (GetImage id).

Definition setTransition (transitionOptions : TransitionOptions.t) : Run t Effect unit :=
  validateState "setTransition";; native (SetTransitionOptions transitionOptions).

Definition getTransition : Run t Effect TransitionOptions.t :=
  validateState "getTransition";; native GetTransitionOptions.

Definition getLight : Run t Effect (option Light.t) :=
  validateState "getLight";; native GetLight.

(** [clear()].  The [null] tests of its first two loops always pass: the
    caches hold no [null]. *)
Definition clear : Run t Effect unit :=
  modify (set_fullyLoaded false);;
  s ← get;
  each (fun layer => emit (LayerSetDetached layer)) (map_to_list (layers s)).*2;;
  each (fun source => emit (SourceSetDetached source)) (map_to_list (sources s)).*2;;
  each (fun bitmapEntry => native (RemoveImage bitmapEntry.1);; emit (Recycle bitmapEntry.2))
       (map_to_list (images s));;
  modify (set_sources ∅);;
  modify (set_layers ∅);;
  modify (set_images ∅).

Definition addWrapped (layerWrapper : LayerWrapper.t) : Run t Effect unit :=
  match layerWrapper with
  | LayerWrapper.At layer index => addLayerAt layer index
  | LayerWrapper.Above layer aboveLayer => addLayerAbove layer aboveLayer
  | LayerWrapper.Below layer belowLayer => addLayerBelow layer belowLayer
  | LayerWrapper.Plain layer => addLayerBelow layer LAYER_ID_ANNOTATIONS
  end.

(** [onDidFinishLoadingStyle()]. *)
Definition onDidFinishLoadingStyle : Run t Effect unit :=
  s ← get;
  if negb (fullyLoaded s) then
    modify (set_fullyLoaded true);;
    each addSource (Builder.sources (builder s));;
    each addWrapped (Builder.layers (builder s));;
    each (fun image =>
            addImage (ImageWrapper.id image) (ImageWrapper.bitmap image)
                     (ImageWrapper.sdf image))
         (Builder.images (builder s));;
    match Builder.transitionOptions (builder s) with
    | Some transitionOptions => setTransition transitionOptions
    | None => mret tt
    end
  else mret tt.

Definition isFullyLoaded (s : t) : bool := fullyLoaded s.

Definition call (m : Method.t) : Run t Effect unit :=
  match m with
  | Method.GetUrl => void getUrl
  | Method.GetUri => void getUri
  | Method.GetJson => void getJson
  | Method.GetSources => void getSources
  | Method.AddSource source => addSource source
  | Method.GetSource id => void (getSource id)
  | Method.GetSourceAs id => void (getSourceAs id)
  | Method.RemoveSource id => void (removeSource id)
  | Method.RemoveSourceObject source => void (removeSourceObject source)
  | Method.AddLayer layer => addLayer layer
  | Method.AddLayerBelow layer below => addLayerBelow layer below
  | Method.AddLayerAbove layer above => addLayerAbove layer above
  | Method.AddLayerAt layer index => addLayerAt layer index
  | Method.GetLayer id => void (getLayer id)
  | Method.GetLayerAs id => void (getLayerAs id)
  | Method.GetLayers => void getLayers
  | Method.RemoveLayer id => void (removeLayer id)
  | Method.RemoveLayerObject layer => void (removeLayerObject layer)
  | Method.RemoveLayerAt index => void (removeLayerAt index)
  | Method.AddImage name bitmap sdf => addImage name bitmap sdf
  | Method.AddImageStretch name bitmap sdf stretchX stretchY content =>
      addImageStretch name bitmap sdf stretchX stretchY content
  | Method.AddImages images sdf => addImages images sdf
  | Method.AddImagesStretch images sdf stretchX stretchY content =>
      addImagesStretch images sdf stretchX stretchY content
  | Method.RemoveImage name => removeImage name
  | Method.GetImage id => void (getImage id)
  | Method.SetTransition transitionOptions => setTransition transitionOptions
  | Method.GetTransition => void getTransition
  | Method.GetLight => void getLight
  end.

(** What the owner of a style does with it. *)
Inductive Step :=
| Public (m : Method.t)
| Clear
| OnDidFinishLoadingStyle.

Definition step (x : Step) : Run t Effect unit :=
  match x with
  | Public m => call m
  | Clear => clear
  | OnDidFinishLoadingStyle => onDidFinishLoadingStyle
  end.

(** The style after a run of steps; a step that throws leaves the style as
    it was when it threw, and the run goes on (the caller caught it). *)
Definition run (xs : list Step) (s : t) : t :=
  fold_left (fun s x => stateOf (step x s)) xs s.

(** Every cached object sits under its own id. *)
Definition keyed (s : t) : Prop :=
  (forall id source, sources s !! id = Some source -> Source.getId source = id) /\
  (forall id layer, layers s !! id = Some layer -> Layer.getId layer = id).
(** The call on the native map that adds a layer of the builder. *)
Definition wrapperCall (layerWrapper : LayerWrapper.t) : Call :=
  match layerWrapper with
  | LayerWrapper.At layer index => AddLayerAt layer index
  | LayerWrapper.Above layer aboveLayer => AddLayerAbove layer aboveLayer
  | LayerWrapper.Below layer belowLayer => AddLayerBelow layer belowLayer
  | LayerWrapper.Plain layer => AddLayerBelow layer LAYER_ID_ANNOTATIONS
  end.

(** The image of a builder entry without its stretches and content. *)
Definition bare (image : ImageWrapper.t) : Image.t :=
  Image.mk (ImageWrapper.bitmap image) (ImageWrapper.id image) (ImageWrapper.sdf image)
    None None None.

(** The calls on the native map that apply a builder, in order. *)
Definition builderCalls (b : Builder.t) : list Call :=
  (AddSource <$> Builder.sources b)
  ++ (wrapperCall <$> Builder.layers b)
  ++ ((fun image => AddImages [bare image]) <$> Builder.images b)
  ++ match Builder.transitionOptions b with
     | Some transitionOptions => [SetTransitionOptions transitionOptions]
     | None => []
     end.

(** A cache after a list of objects was put into it, one by one. *)
Definition putAll {V} (getId : V -> string) (l : list V) (m : gmap string V) : gmap string V :=
  fold_left (fun m v => <[getId v := v]> m) l m.

(** The native map never throws. *)
Definition neverThrows : Prop :=
  forall c p, exists r p', invoke c p = (Ok r, p').

(** An effect that is a call on the native map. *)
Definition isNative (e : Effect) : bool :=
  match e with Native _ => true | _ => false end.

(** The style was built and then used by its owner. *)
Definition reachable (s : t) : Prop :=
  exists xs builder nativeMap, s = run xs (new builder nativeMap).
(** The name a method hands to [validateState]: its own, but for
    [addLayerAt] and for the two [addImages]. *)
Definition reported (m : Method.t) : string :=
  match m with
  | Method.GetUrl => "getUrl"
  | Method.GetUri => "getUri"
  | Method.GetJson => "getJson"
  | Method.GetSources => "getSources"
  | Method.AddSource _ => "addSource"
  | Method.GetSource _ => "getSource"
  | Method.GetSourceAs _ => "getSourceAs"
  | Method.RemoveSource _ | Method.RemoveSourceObject _ => "removeSource"
  | Method.AddLayer _ => "addLayer"
  | Method.AddLayerBelow _ _ => "addLayerBelow"
  | Method.AddLayerAbove _ _ | Method.AddLayerAt _ _ => "addLayerAbove"
  | Method.GetLayer _ => "getLayer"
  | Method.GetLayerAs _ => "getLayerAs"
  | Method.GetLayers => "getLayers"
  | Method.RemoveLayer _ | Method.RemoveLayerObject _ => "removeLayer"
  | Method.RemoveLayerAt _ => "removeLayerAt"
  | Method.AddImage _ _ _ | Method.AddImageStretch _ _ _ _ _ _
  | Method.AddImages _ _ | Method.AddImagesStretch _ _ _ _ _ => "addImage"
  | Method.RemoveImage _ => "removeImage"
  | Method.GetImage _ => "getImage"
  | Method.SetTransition _ => "setTransition"
  | Method.GetTransition => "getTransition"
  | Method.GetLight => "getLight"
  end.

(** The layer a method adds, if it adds one. *)
Definition addsLayer (m : Method.t) : option Layer.t :=
  match m with
  | Method.AddLayer layer | Method.AddLayerBelow layer _
  | Method.AddLayerAbove layer _ | Method.AddLayerAt layer _ => Some layer
  | _ => None
  end.

(** Every image of the effect goes to the native map without stretches and
    without content. *)
Definition noStretch (e : Effect) : Prop :=
  match e with
  | Native (AddImages images) =>
      Forall (fun image => Image.stretchX image = None /\ Image.stretchY image = None /\
                           Image.content image = None) images
  | _ => True
  end.

(** The fields of a style besides the peer. *)
Definition fields (s : t)
    : gmap string Source.t * gmap string Layer.t * gmap string Bitmap.t * Builder.t * bool :=
  (sources s, layers s, images s, builder s, fullyLoaded s).
(** The style is fully loaded. *)
Definition loaded (s : t) : Prop := fullyLoaded s = true.
End WithNativeMap.
End Style.

(** *** MapView.java *)

Module MapView.

(** The map events the two listeners of the view are registered for. *)
Inductive MapEvent :=
| DidFinishLoadingStyle
| DidFinishRenderingFrame
| DidFinishLoadingMap
| CameraIsChanging
| CameraDidChange
| DidFailLoadingMap.

(** The listeners the view creates for itself. *)
Inductive Listener := TheMapCallback | TheInitialRenderCallback.

(** What the view does to other objects: the connectivity receiver, the file
    source, the map, the renderer, the native peer, the receiver of map
    changes, the callbacks of [getMapAsync], the view it extends. *)
Inductive Effect :=
| ConnectivityReceiverActivate
| ConnectivityReceiverDeactivate
| FileSourceActivate
| FileSourceDeactivate
| MapInjectAnnotationManager
| MapInjectLocationComponent
| MapInitialise
| MapOnRestoreInstanceState
| MapOnPreMapReady
| MapOnPostMapReady
| MapOnStart
| MapOnStop
| MapOnDestroy
| MapOnFinishLoadingStyle
| MapOnFailLoadingStyle
| MapOnUpdateFullyRendered
| MapOnUpdateRegionChange
| RendererOnStart
| RendererOnResume
| RendererOnPause
| RendererOnStop
| RendererOnDestroy
| RendererQueueEvent (runnable : CallbackId)
| RendererSetMaximumFps (maximumFps : Z)
| AttributionOnStop
| CancelAnimators
| MapChangeReceiverClear
| RemoveListener (event : MapEvent) (listener : Listener)
| CompassResetAnimation
| NativeSetReachability (connected : bool)
| NativeOnLowMemory
| NativeResizeView (width height : Z)
| NativeDestroy
| FocalInvalidatorAddListener
| SetClickable
| SetLongClickable
| SetFocusable
| SetFocusableInTouchMode
| RequestDisallowInterceptTouchEvent
| SetForegroundNull
| OnMapReady (callback : CallbackId).

(** The fields of the view that its methods test or change.  A reference is
    kept as whether it is set; [onMapReadyCallbackList] is the list of
    [mapCallback], [renderCount] the counter of [initialRenderCallback], an
    [int]. *)
Record t := mk {
  nativeMapView : bool;
  maplibreMap : bool;
  mapRenderer : bool;
  attributionClickListener : bool;
  compassView : bool;
  mapGestureDetector : bool;
  mapKeyListener : bool;
  savedInstanceState : bool;
  destroyed : bool;
  isStarted : bool;
  onMapReadyCallbackList : list (option CallbackId);
  renderCount : Z
}.

Definition set_nativeMapView (x : bool) (v : t) : t :=
  mk x (maplibreMap v) (mapRenderer v) (attributionClickListener v) (compassView v)
     (mapGestureDetector v) (mapKeyListener v) (savedInstanceState v) (destroyed v)
     (isStarted v) (onMapReadyCallbackList v) (renderCount v).
Definition set_maplibreMap (x : bool) (v : t) : t :=
  mk (nativeMapView v) x (mapRenderer v) (attributionClickListener v) (compassView v)
     (mapGestureDetector v) (mapKeyListener v) (savedInstanceState v) (destroyed v)
     (isStarted v) (onMapReadyCallbackList v) (renderCount v).
Definition set_mapGestureDetector (x : bool) (v : t) : t :=
  mk (nativeMapView v) (maplibreMap v) (mapRenderer v) (attributionClickListener v)
     (compassView v) x (mapKeyListener v) (savedInstanceState v) (destroyed v)
     (isStarted v) (onMapReadyCallbackList v) (renderCount v).
Definition set_mapKeyListener (x : bool) (v : t) : t :=
  mk (nativeMapView v) (maplibreMap v) (mapRenderer v) (attributionClickListener v)
     (compassView v) (mapGestureDetector v) x (savedInstanceState v) (destroyed v)
     (isStarted v) (onMapReadyCallbackList v) (renderCount v).
Definition set_savedInstanceState (x : bool) (v : t) : t :=
  mk (nativeMapView v) (maplibreMap v) (mapRenderer v) (attributionClickListener v)
     (compassView v) (mapGestureDetector v) (mapKeyListener v) x (destroyed v)
     (isStarted v) (onMapReadyCallbackList v) (renderCount v).
Definition set_destroyed (x : bool) (v : t) : t :=
  mk (nativeMapView v) (maplibreMap v) (mapRenderer v) (attributionClickListener v)
     (compassView v) (mapGestureDetector v) (mapKeyListener v) (savedInstanceState v) x
     (isStarted v) (onMapReadyCallbackList v) (renderCount v).
Definition set_isStarted (x : bool) (v : t) : t :=
  mk (nativeMapView v) (maplibreMap v) (mapRenderer v) (attributionClickListener v)
     (compassView v) (mapGestureDetector v) (mapKeyListener v) (savedInstanceState v)
     (destroyed v) x (onMapReadyCallbackList v) (renderCount v).
Definition set_onMapReadyCallbackList (x : list (option CallbackId)) (v : t) : t :=
  mk (nativeMapView v) (maplibreMap v) (mapRenderer v) (attributionClickListener v)
     (compassView v) (mapGestureDetector v) (mapKeyListener v) (savedInstanceState v)
     (destroyed v) (isStarted v) x (renderCount v).
Definition set_renderCount (x : Z) (v : t) : t :=
  mk (nativeMapView v) (maplibreMap v) (mapRenderer v) (attributionClickListener v)
     (compassView v) (mapGestureDetector v) (mapKeyListener v) (savedInstanceState v)
     (destroyed v) (isStarted v) (onMapReadyCallbackList v) x.

(** The view after its constructor ran outside the layout editor: the
    renderer and the native peer exist, the map does not yet. *)
Definition new : t :=
  mk true false true false false false false false false false [] 0.

(** A call on a reference: the effect, or a [NullPointerException] when the
    reference is [null]. *)
Definition on (reference : bool) (e : Effect) : Run t Effect unit :=
  if reference then emit e else throw NullPointerException.

(** Arithmetic on [int]. *)
Definition int (z : Z) : Z := (z + 2147483648) mod 4294967296 - 2147483648.

(** [MapCallback.addOnMapReadyCallback]. *)
Definition addOnMapReadyCallback (callback : option CallbackId) : Run t Effect unit :=
  modify (fun v => set_onMapReadyCallbackList (onMapReadyCallbackList v ++ [callback]) v).

(** One turn of the loop of [MapCallback.onMapReady]: the callback at the
    head of the list is invoked unless it is [null], and removed. *)
Definition onMapReadyTurn (callback : option CallbackId) : Run t Effect unit :=
  match callback with
  | Some cb => emit (OnMapReady cb)
  | None => mret tt
  end;;
  modify (fun v => set_onMapReadyCallbackList (tail (onMapReadyCallbackList v)) v).

(** [MapCallback.onMapReady]. *)
Definition onMapReady : Run t Effect unit :=
  v ← get;
  if bool_decide (0 < List.length (onMapReadyCallbackList v))%nat
  then each onMapReadyTurn (onMapReadyCallbackList v)
  else mret tt.

(** [MapCallback.initialised]. *)
Definition initialised : Run t Effect unit :=
  v ← get;
  on (maplibreMap v) MapOnPreMapReady;;
  onMapReady;;
  on (maplibreMap v) MapOnPostMapReady.

(** [MapCallback.onDestroy]. *)
Definition mapCallbackOnDestroy : Run t Effect unit :=
  modify (set_onMapReadyCallbackList []);;
  emit (RemoveListener DidFinishLoadingStyle TheMapCallback);;
  emit (RemoveListener DidFinishRenderingFrame TheMapCallback);;
  emit (RemoveListener DidFinishLoadingMap TheMapCallback);;
  emit (RemoveListener CameraIsChanging TheMapCallback);;
  emit (RemoveListener CameraDidChange TheMapCallback);;
  emit (RemoveListener DidFailLoadingMap TheMapCallback).

(** The six listener methods of [MapCallback]. *)
Definition mapCallbackOn (event : MapEvent) : Run t Effect unit :=
  v ← get;
  if maplibreMap v then
    emit match event with
         | DidFinishLoadingStyle => MapOnFinishLoadingStyle
         | DidFailLoadingMap => MapOnFailLoadingStyle
         | DidFinishRenderingFrame => MapOnUpdateFullyRendered
         | DidFinishLoadingMap | CameraIsChanging | CameraDidChange => MapOnUpdateRegionChange
         end
  else mret tt.

(** [InitialRenderCallback.onDidFinishRenderingFrame]; [style] is what
    [maplibreMap.getStyle()] returns, [None] for [null], else whether the
    style is fully loaded. *)
Definition initialRenderOnDidFinishRenderingFrame (style : option bool) : Run t Effect unit :=
  v ← get;
  if maplibreMap v && bool_decide (style = Some true) then
    modify (fun v => set_renderCount (int (renderCount v + 1)) v);;
    v ← get;
    if (renderCount v =? 3)%Z then
      emit SetForegroundNull;;
      emit (RemoveListener DidFinishRenderingFrame TheInitialRenderCallback)
    else mret tt
  else mret tt.

(** [InitialRenderCallback.onDestroy]. *)
Definition initialRenderOnDestroy : Run t Effect unit :=
  emit (RemoveListener DidFinishRenderingFrame TheInitialRenderCallback).

(** [initializeMap()]; [connected] is what [MapLibre.isConnected()] returns.
    The objects it constructs are not effects. *)
Definition initializeMap (connected : bool) : Run t Effect unit :=
  emit FocalInvalidatorAddListener;;
  modify (set_maplibreMap true);;
  emit MapInjectAnnotationManager;;
  modify (set_mapGestureDetector true);;
  modify (set_mapKeyListener true);;
  emit MapInjectLocationComponent;;
  emit SetClickable;;
  emit SetLongClickable;;
  emit SetFocusable;;
  emit SetFocusableInTouchMode;;
  emit RequestDisallowInterceptTouchEvent;;
  v ← get;
  on (nativeMapView v) (NativeSetReachability connected);;
  (if negb (savedInstanceState v) then emit MapInitialise else emit MapOnRestoreInstanceState);;
  initialised.

(** The runnable that [onSurfaceCreated()] posts. *)
Definition onSurfaceCreatedRun (connected : bool) : Run t Effect unit :=
  v ← get;
  if negb (destroyed v) && negb (maplibreMap v) then
    initializeMap connected;;
    emit MapOnStart
  else mret tt.

(** [onCreate(savedInstanceState)]; the argument is whether the bundle is
    there and holds the saved-state flag. *)
Definition onCreate (hasSavedState : bool) : Run t Effect unit :=
  if hasSavedState then modify (set_savedInstanceState true) else mret tt.

Definition onStart : Run t Effect unit :=
  v ← get;
  (if negb (isStarted v) then
     emit ConnectivityReceiverActivate;;
     emit FileSourceActivate;;
     modify (set_isStarted true)
   else mret tt);;
  (if maplibreMap v then emit MapOnStart else mret tt);;
  (if mapRenderer v then emit RendererOnStart else mret tt).

Definition onResume : Run t Effect unit :=
  v ← get;
  if mapRenderer v then emit RendererOnResume else mret tt.

Definition onPause : Run t Effect unit :=
  v ← get;
  if mapRenderer v then emit RendererOnPause else mret tt.

Definition onStop : Run t Effect unit :=
  v ← get;
  (if attributionClickListener v then emit AttributionOnStop else mret tt);;
  (if maplibreMap v then
     on (mapGestureDetector v) CancelAnimators;;
     emit MapOnStop
   else mret tt);;
  (if mapRenderer v then emit RendererOnStop else mret tt);;
  (if isStarted v then
     emit ConnectivityReceiverDeactivate;;
     emit FileSourceDeactivate;;
     modify (set_isStarted false)
   else mret tt).

Definition onDestroy : Run t Effect unit :=
  modify (set_destroyed true);;
  emit MapChangeReceiverClear;;
  mapCallbackOnDestroy;;
  initialRenderOnDestroy;;
  v ← get;
  (if compassView v then emit CompassResetAnimation else mret tt);;
  (if maplibreMap v then emit MapOnDestroy else mret tt);;
  (if nativeMapView v then emit NativeDestroy;; modify (set_nativeMapView false)
   else mret tt);;
  (if mapRenderer v then emit RendererOnDestroy else mret tt).

Definition queueEvent (runnable : CallbackId) : Run t Effect unit :=
  v ← get;
  if negb (mapRenderer v) then
    throw (IllegalStateException "Calling MapView#queueEvent before mapRenderer is created.")
  else emit (RendererQueueEvent runnable).

Definition setMaximumFps (maximumFps : Z) : Run t Effect unit :=
  v ← get;
  if mapRenderer v then emit (RendererSetMaximumFps maximumFps)
  else throw (IllegalStateException
                "Calling MapView#setMaximumFps before mapRenderer is created.").

Definition isDestroyed (v : t) : bool := destroyed v.

Definition onLowMemory : Run t Effect unit :=
  v ← get;
  if nativeMapView v && maplibreMap v && negb (destroyed v) then emit NativeOnLowMemory
  else mret tt.

(** [onSizeChanged(width, height, oldw, oldh)]; [isInEditMode] is what the
    method of that name returns. *)
Definition onSizeChanged (isInEditMode : bool) (width height : Z) : Run t Effect unit :=
  v ← get;
  if negb isInEditMode && nativeMapView v then emit (NativeResizeView width height)
  else mret tt.

(** [getMapAsync(callback)]; [None] is a [null] callback. *)
Definition getMapAsync (callback : option CallbackId) : Run t Effect unit :=
  v ← get;
  if negb (maplibreMap v) then addOnMapReadyCallback callback
  else match callback with
       | Some cb => emit (OnMapReady cb)
       | None => throw NullPointerException
       end.

Definition setMapLibreMap (maplibreMap : bool) : Run t Effect unit :=
  modify (set_maplibreMap maplibreMap).

(** What the platform and the application do with a view. *)
Inductive Call :=
| OnCreate (hasSavedState : bool)
| OnStart
| OnResume
| OnPause
| OnStop
| OnDestroy
| OnLowMemory
| OnSurfaceCreatedRun (connected : bool)
| GetMapAsync (callback : option CallbackId)
| SetMapLibreMap (maplibreMap : bool)
| QueueEvent (runnable : CallbackId)
| SetMaximumFps (maximumFps : Z)
| MapChanged (event : MapEvent)
| RenderedFrame (style : option bool)
| OnSizeChanged (isInEditMode : bool) (width height : Z).

Definition call (c : Call) : Run t Effect unit :=
  match c with
  | OnCreate hasSavedState => onCreate hasSavedState
  | OnStart => onStart
  | OnResume => onResume
  | OnPause => onPause
  | OnStop => onStop
  | OnDestroy => onDestroy
  | OnLowMemory => onLowMemory
  | OnSurfaceCreatedRun connected => onSurfaceCreatedRun connected
  | GetMapAsync callback => getMapAsync callback
  | SetMapLibreMap maplibreMap => setMapLibreMap maplibreMap
  | QueueEvent runnable => queueEvent runnable
  | SetMaximumFps maximumFps => setMaximumFps maximumFps
  | MapChanged event => mapCallbackOn event
  | RenderedFrame style => initialRenderOnDidFinishRenderingFrame style
  | OnSizeChanged isInEditMode width height => onSizeChanged isInEditMode width height
  end.

(** The view and everything it did after a run of calls; a call that throws
    leaves the view as it was when it threw, and the run goes on. *)
Definition run (cs : list Call) (v : t) : t * list Effect :=
  fold_left (fun acc c => let r := call c acc.1 in (stateOf r, acc.2 ++ effectsOf r))
            cs (v, []).

(** How often an effect occurs. *)
Definition count (p : Effect -> bool) (es : list Effect) : nat :=
  List.length (List.filter p es).

Definition isActivate (e : Effect) : bool :=
  match e with ConnectivityReceiverActivate => true | _ => false end.
Definition isDeactivate (e : Effect) : bool :=
  match e with ConnectivityReceiverDeactivate => true | _ => false end.
Definition isFileSourceActivate (e : Effect) : bool :=
  match e with FileSourceActivate => true | _ => false end.
Definition isFileSourceDeactivate (e : Effect) : bool :=
  match e with FileSourceDeactivate => true | _ => false end.
Definition isSetForegroundNull (e : Effect) : bool :=
  match e with SetForegroundNull => true | _ => false end.

(** The callbacks that were told the map is ready, in order. *)
Definition ready (es : list Effect) : list CallbackId :=
  omap (fun e => match e with OnMapReady cb => Some cb | _ => None end) es.

(** Whether a frame counts for the initial render: the style it saw is fully
    loaded. *)
Definition counts (style : option bool) : bool := bool_decide (style = Some true).
(** The callbacks handed to [getMapAsync], in order. *)
Definition asked (cs : list Call) : list CallbackId :=
  omap (fun c => match c with GetMapAsync (Some cb) => Some cb | _ => None end) cs.

(** A call that neither destroys the view, nor replaces its map, nor hands
    it a [null] callback. *)
Definition benign (c : Call) : bool :=
  match c with
  | OnDestroy | SetMapLibreMap _ | GetMapAsync None => false
  | _ => true
  end.

Definition isSurfaceCreated (c : Call) : bool :=
  match c with OnSurfaceCreatedRun _ => true | _ => false end.

(** One for a started view, zero for a stopped one. *)
Definition started (v : t) : nat := if isStarted v then 1%nat else 0%nat.

(** An effect that is neither an activation nor a deactivation. *)
Definition quiet (e : Effect) : Prop :=
  isActivate e = false /\ isDeactivate e = false /\
  isFileSourceActivate e = false /\ isFileSourceDeactivate e = false.

(** An effect that tells no callback that the map is ready. *)
Definition silent (e : Effect) : Prop :=
  match e with OnMapReady _ => False | _ => True end.
(** An effect that is a call on [nativeMapView]. *)
Definition usesNative (e : Effect) : bool :=
  match e with
  | NativeSetReachability _ | NativeOnLowMemory | NativeResizeView _ _ | NativeDestroy => true
  | _ => false
  end.

Definition isNativeDestroy (e : Effect) : bool :=
  match e with NativeDestroy => true | _ => false end.

(** A call that does not hand the view a map. *)
Definition keepsMap (c : Call) : bool :=
  match c with SetMapLibreMap true => false | _ => true end.

(** What holds of a view that was created and then used through benign
    calls: the map exists once a surface was created; from then on every
    callback handed over was told, in order, and none waits; before that
    none was told and all wait. *)
Definition ReadyInv (cs : list Call) (r : t * list Effect) : Prop :=
  destroyed r.1 = false /\ nativeMapView r.1 = true /\
  maplibreMap r.1 = existsb isSurfaceCreated cs /\
  if maplibreMap r.1
  then ready r.2 = asked cs /\ onMapReadyCallbackList r.1 = []
  else ready r.2 = [] /\ onMapReadyCallbackList r.1 = Some <$> asked cs.

(** The frames that count for the initial render of a view. *)
Definition counted (v : t) (styles : list (option bool)) : nat :=
  if maplibreMap v then List.length (List.filter counts styles) else 0%nat.
End MapView.
End android.

(** ** Values for the examples of the Android binding *)

Module StyleFixture.
Import android.

(** A peer that holds the ids of its sources: it refuses a source whose id it
    has, and removes a source it has. *)
Definition answer (c : Call) (ids : list string) : result (Response c) * list string :=
  match c return result (Response c) * list string with
  | GetStyleUri => (Ok "asset://streets.json", ids)
  | GetStyleJson => (Ok "{}", ids)
  | GetSources => (Ok [], ids)
  | AddSource source =>
      if bool_decide (Source.getId source ∈ ids)
      then (Throw (NativeException "CannotAddSourceException"), ids)
      else (Ok tt, Source.getId source :: ids)
  | GetSource _ => (Ok None, ids)
  | RemoveSourceId id =>
      (Ok (bool_decide (id ∈ ids)), List.filter (fun i => negb (String.eqb i id)) ids)
  | RemoveSource source =>
      (Ok (bool_decide (Source.getId source ∈ ids)),
       List.filter (fun i => negb (String.eqb i (Source.getId source))) ids)
  | AddLayer _ | AddLayerBelow _ _ | AddLayerAbove _ _ | AddLayerAt _ _ => (Ok tt, ids)
  | GetLayer _ => (Ok None, ids)
  | GetLayers => (Ok [], ids)
  | RemoveLayerId _ | RemoveLayer _ | RemoveLayerAt _ => (Ok false, ids)
  | AddImages _ | RemoveImage _ | SetTransitionOptions _ => (Ok tt, ids)
  | GetImage _ => (Ok None, ids)
  | GetTransitionOptions => (Ok (TransitionOptions.mk 0), ids)
  | GetLight => (Ok None, ids)
  end.

Definition strict : NativeMap := {| peer := list string; invoke := answer |}.

(** A peer that accepts every call. *)
Definition lenient : NativeMap := {|
  peer := unit;
  invoke := fun c p => ((answer c []).1, p)
|}.

Definition constants : MapLibreConstants := {|
  LAYER_ID_ANNOTATIONS := "org.maplibre.annotations.points"
|}.

Definition roads : Source.t := Source.mk 1 "roads".
Definition water : Layer.t := Layer.mk 3 "water".
Definition labels : Layer.t := Layer.mk 4 "labels".
Definition pin : Bitmap.t := Bitmap.mk 5.
Definition anchor : Bitmap.t := Bitmap.mk 8.

(** A builder with a source, two layers, an image with stretches and a
    transition. *)
Definition builder0 : Builder.t :=
  Builder.withTransition (TransitionOptions.mk 6)
    (Builder.withImageStretch "pin" pin false
       (Some [ImageStretches.mk 1 2; ImageStretches.mk 3 4])
       (Some [ImageStretches.mk 5 6]) (Some (ImageContent.mk [7; 8; 9; 10]))
       (Builder.withLayerAbove labels "water"
          (Builder.withLayer water
             (Builder.withSource roads Builder.new)))).
Definition parks : Source.t := Source.mk 7 "parks".
Definition hills : Layer.t := Layer.mk 8 "hills".

(** A style built from [builder0] on a peer without sources, before and after
    it finished loading. *)
Definition fresh : Style.t (H:=strict) := Style.new (H:=strict) builder0 [].
Definition loaded0 : Style.t (H:=strict) :=
  stateOf (Style.onDidFinishLoadingStyle (H:=strict) (H0:=constants) fresh).

(** The same on the peer that accepts every call and removes nothing. *)
Definition fresh' : Style.t (H:=lenient) := Style.new (H:=lenient) builder0 tt.
Definition loaded0' : Style.t (H:=lenient) :=
  stateOf (Style.onDidFinishLoadingStyle (H:=lenient) (H0:=constants) fresh').

(** A view that gets two callbacks before its surface is created and one
    after. *)
Definition calls0 : list MapView.Call :=
  [MapView.GetMapAsync (Some 1%nat); MapView.OnStart; MapView.GetMapAsync (Some 2%nat);
   MapView.OnSurfaceCreatedRun true; MapView.GetMapAsync (Some 3%nat); MapView.OnStop].

(** A view with a map that renders four frames; the style is loaded from the
    second on. *)
Definition withMap : MapView.t := MapView.set_maplibreMap true MapView.new.
Definition frames0 : list (option bool) := [Some false; Some true; Some true; Some true].
End StyleFixture.

(** ** Unfolding the calls *)

Ltac run :=
  unfold Map.setBounds, Map.boundsStep, Map.minZoomStep, Map.maxZoomStep,
    Map.maxPitchStep, Map.minPitchStep, Map.jumpTo, ImplOps.jumpTo, ImplOps.onUpdate,
    setTransform, onTransform, modify, emit, get,
    mbind, mret, M_bind, M_ret.

(** * Order facts on doubles *)

Section FloatOrder.
Local Open Scope float_scope.

Lemma SFcompare_antisym (a b : spec_float) (c : comparison) :
  SFcompare a b = Some c -> SFcompare b a = Some (CompOpp c).
Proof.
  destruct a as [sa|sa| |sa ma ea], b as [sb|sb| |sb mb eb]; simpl;
    try discriminate; try (intros [= <-]; reflexivity);
    try (destruct sa; try destruct sb; intros [= <-]; reflexivity).
  fold (Pos.compare ma mb). fold (Pos.compare mb ma).
  rewrite (Z.compare_antisym ea eb), (Pos.compare_antisym ma mb).
  destruct sa, sb; intros [= <-]; try reflexivity;
    destruct (ea ?= eb)%Z; simpl; try reflexivity;
    destruct (ma ?= mb)%positive; reflexivity.
Qed.

Lemma SFcompare_refl (a : spec_float) :
  a <> S754_nan -> SFcompare a a = Some Eq.
Proof.
  destruct a as [s|s| |s m e]; simpl; intros Ha; try congruence;
    try (destruct s; reflexivity).
  fold (Pos.compare m m).
  destruct s; rewrite Z.compare_refl, Pos.compare_refl; reflexivity.
Qed.

Lemma SFcompare_nan_l (a b : spec_float) (c : comparison) :
  SFcompare a b = Some c -> a <> S754_nan /\ b <> S754_nan.
Proof. destruct a, b; simpl; intros; split; congruence. Qed.

Lemma SFcompare_total (a b : spec_float) :
  a <> S754_nan -> b <> S754_nan -> exists c, SFcompare a b = Some c.
Proof. destruct a, b; simpl; intros; try congruence; eauto. Qed.

(** Less-or-equal composes with strictly-less on the specification side. *)
Lemma SFcompare_le_lt_trans (a b c : spec_float) :
  (SFcompare a b = Some Lt \/ SFcompare a b = Some Eq) ->
  SFcompare b c = Some Lt -> SFcompare a c = Some Lt.
Proof.
  destruct a as [sa|sa| |sa ma ea], b as [sb|sb| |sb mb eb], c as [sc|sc| |sc mc ec];
    simpl; intros [Hab|Hab] Hbc; try discriminate; try reflexivity;
    try (destruct sa; try discriminate; try reflexivity;
         destruct sb; try discriminate; try reflexivity;
         destruct sc; try discriminate; reflexivity);
    try (destruct sa; try discriminate; try reflexivity;
         destruct sb; try discriminate; reflexivity);
    try (destruct sb; try discriminate; try reflexivity;
         destruct sc; try discriminate; reflexivity);
    try (destruct sa; try discriminate; try reflexivity;
         destruct sc; try discriminate; reflexivity).
  all: revert Hab Hbc; fold (Pos.compare ma mb) (Pos.compare mb mc) (Pos.compare ma mc);
    destruct sa, sb, sc; try discriminate; try reflexivity;
    destruct (Z.compare_spec ea eb), (Z.compare_spec eb ec), (Z.compare_spec ea ec);
    try discriminate; try reflexivity; try lia;
    destruct (Pos.compare_spec ma mb), (Pos.compare_spec mb mc), (Pos.compare_spec ma mc);
    simpl; try discriminate; try reflexivity; try lia.
Qed.

Lemma dbl_isnan_spec (a : float) : Dbl.isnan a = true <-> Prim2SF a = S754_nan.
Proof.
  unfold Dbl.isnan. rewrite FloatAxioms.eqb_spec. unfold SFeqb. split.
  - destruct (Prim2SF a) as [s|s| |s m e] eqn:E; trivial;
      (rewrite SFcompare_refl; [simpl; congruence | congruence]).
  - intros ->. reflexivity.
Qed.

Lemma dbl_isnan_false (a : float) : Dbl.isnan a = false <-> Prim2SF a <> S754_nan.
Proof.
  rewrite <- dbl_isnan_spec. destruct (Dbl.isnan a); split; congruence.
Qed.

Lemma dbl_le_not_nan (a b : float) :
  Dbl.le a b -> Dbl.isnan a = false /\ Dbl.isnan b = false.
Proof.
  unfold Dbl.le. rewrite FloatAxioms.leb_spec, !dbl_isnan_false. unfold SFleb.
  destruct (SFcompare (Prim2SF a) (Prim2SF b)) eqn:E; try discriminate.
  intros _. eapply SFcompare_nan_l, E.
Qed.

Lemma dbl_lt_not_nan (a b : float) :
  Dbl.lt a b -> Dbl.isnan a = false /\ Dbl.isnan b = false.
Proof.
  unfold Dbl.lt. rewrite FloatAxioms.ltb_spec, !dbl_isnan_false. unfold SFltb.
  destruct (SFcompare (Prim2SF a) (Prim2SF b)) eqn:E; try discriminate.
  intros _. eapply SFcompare_nan_l, E.
Qed.

Lemma dbl_lt_le (a b : float) : Dbl.lt a b -> Dbl.le a b.
Proof.
  unfold Dbl.lt, Dbl.le. rewrite FloatAxioms.ltb_spec, FloatAxioms.leb_spec. unfold SFltb, SFleb.
  destruct (SFcompare _ _) as [[]|]; congruence.
Qed.

Lemma dbl_le_refl (a : float) : Dbl.isnan a = false -> Dbl.le a a.
Proof.
  rewrite dbl_isnan_false. unfold Dbl.le. rewrite FloatAxioms.leb_spec. unfold SFleb.
  intros Ha. rewrite SFcompare_refl; trivial.
Qed.


Lemma dbl_le_not_ltb (a b : float) : Dbl.le a b -> (b <? a) = false.
Proof.
  unfold Dbl.le. rewrite FloatAxioms.leb_spec, FloatAxioms.ltb_spec. unfold SFleb, SFltb.
  destruct (SFcompare (Prim2SF a) (Prim2SF b)) as [c|] eqn:E; try discriminate.
  rewrite (SFcompare_antisym _ _ _ E). destruct c; simpl; congruence.
Qed.

Lemma dbl_not_ltb_le (a b : float) :
  Dbl.isnan a = false -> Dbl.isnan b = false -> (a <? b) = false -> Dbl.le b a.
Proof.
  rewrite !dbl_isnan_false. unfold Dbl.le. rewrite FloatAxioms.leb_spec, FloatAxioms.ltb_spec. unfold SFleb, SFltb.
  intros Ha Hb. destruct (SFcompare_total _ _ Ha Hb) as [c E]. rewrite E.
  rewrite (SFcompare_antisym _ _ _ E). destruct c; simpl; congruence.
Qed.

End FloatOrder.

(** * Clamping *)

Section Clamp.
Local Open Scope float_scope.

Lemma clamp_range (v lo hi : float) :
  Dbl.le lo hi ->
  Dbl.le lo (util.clamp v lo hi) /\ Dbl.le (util.clamp v lo hi) hi.
Proof.
  intros Hle. destruct (dbl_le_not_nan _ _ Hle) as [Hlo Hhi].
  pose proof (dbl_le_not_ltb _ _ Hle) as Hhl.
  unfold util.clamp, util.min. rewrite Hhi.
  destruct (Dbl.isnan v) eqn:Hv; [|destruct (hi <? v) eqn:Hhv].
  - unfold util.max. rewrite Hlo, Hhi, Hhl. split; [trivial|]. now apply dbl_le_refl.
  - unfold util.max. rewrite Hlo, Hhi, Hhl. split; [trivial|]. now apply dbl_le_refl.
  - pose proof (dbl_not_ltb_le _ _ Hhi Hv Hhv) as Hvh.
    unfold util.max. rewrite Hlo, Hv. destruct (v <? lo) eqn:Hvl.
    + split; [now apply dbl_le_refl | trivial].
    + split; [now apply dbl_not_ltb_le | trivial].
Qed.



End Clamp.

(** * Sequencing of calls *)

Lemma stateOf_bind {A B} (c : M A) (k : A -> M B) (m : Impl.t) :
  stateOf ((c ≫= k) m) = stateOf (k (valueOf (c m)) (stateOf (c m))).
Proof.
  unfold stateOf, valueOf, mbind, M_bind.
  destruct (c m) as [[a m1] e1]. simpl. destruct (k a m1) as [[b m2] e2]. reflexivity.
Qed.

Lemma effectsOf_bind {A B} (c : M A) (k : A -> M B) (m : Impl.t) :
  effectsOf ((c ≫= k) m)
  = effectsOf (c m) ++ effectsOf (k (valueOf (c m)) (stateOf (c m))).
Proof.
  unfold effectsOf, stateOf, valueOf, mbind, M_bind.
  destruct (c m) as [[a m1] e1]. simpl. destruct (k a m1) as [[b m2] e2]. reflexivity.
Qed.

(** * Camera calls and the zoom range *)

Section CameraCalls.
Context `{Math} `{Projection}.






Lemma calls_cons (c : CameraCall) (cs : list CameraCall) (m : Impl.t) :
  stateOf (calls (c :: cs) m) = stateOf (calls cs (stateOf (call c m))).
Proof.
  simpl. now rewrite stateOf_bind.
Qed.

Lemma calls_cons_effects (c : CameraCall) (cs : list CameraCall) (m : Impl.t) :
  effectsOf (calls (c :: cs) m)
  = effectsOf (call c m) ++ effectsOf (calls cs (stateOf (call c m))).
Proof.
  simpl. now rewrite effectsOf_bind.
Qed.
End CameraCalls.

Section Bounds.
Context `{Math} `{Projection}.
Local Open Scope float_scope.










End Bounds.


(** * cameraForLatLngs *)

Section CameraFor.
Context `{Math} `{Projection}.
Local Open Scope float_scope.

(** The result of the free function on a list that is not empty. *)
Lemma cameraForLatLngs_cons (p : LatLng.t) (ps : list LatLng.t)
    (transform : Transform.t) (padding : EdgeInsets.t) :
  let scale := mbgl.minScale (p :: ps) transform padding in
  let s := Transform.getState transform in
  let r := mbgl.cameraForLatLngs (p :: ps) transform padding in
  CameraOptions.zoom r.1
    = Some (if 0 <? scale
            then util.clamp (Transform.getZoom transform + log2 scale)
                   (TransformState.getMinZoom s) (TransformState.getMaxZoom s)
            else Transform.getZoom transform)
  /\ r.2 = (if 0 <? scale then [] else [Log Error General mbgl.zoomErrorMessage])
  /\ CameraOptions.padding r.1 = Some padding
  /\ CameraOptions.bearing r.1 = None /\ CameraOptions.pitch r.1 = None.
Proof.
  cbv zeta. unfold mbgl.cameraForLatLngs.
  destruct (mbgl.pixelBounds (p :: ps) transform) as [ne sw].
  destruct (0 <? mbgl.minScale (p :: ps) transform padding); repeat split.
Qed.
End CameraFor.

(** C7.  For a list of points that is not empty: when the scale the function
    computes is not above zero it logs one record of severity Error and the
    camera it returns has the transform's current zoom; otherwise it logs
    nothing and the zoom is clamp(zoom + log2(scale), minZoom, maxZoom), which
    lies between the limits when the range is not empty.  In both cases the
    zoom is a number whenever the current zoom is one and the range is not
    empty. *)
Theorem cameraForLatLngs_zoom `{Math} `{Projection}
    (latLngs : list LatLng.t) (transform : Transform.t) (padding : EdgeInsets.t) :
  latLngs <> [] ->
  let scale := mbgl.minScale latLngs transform padding in
  let s := Transform.getState transform in
  let r := mbgl.cameraForLatLngs latLngs transform padding in
  ((0 <? scale)%float = false ->
     CameraOptions.zoom r.1 = Some (Transform.getZoom transform) /\
     r.2 = [Log Error General mbgl.zoomErrorMessage])
  /\ ((0 <? scale)%float = true ->
     CameraOptions.zoom r.1
       = Some (util.clamp (Transform.getZoom transform + log2 scale)%float
                 (TransformState.getMinZoom s) (TransformState.getMaxZoom s)) /\
     r.2 = [])
  /\ (Dbl.le (TransformState.getMinZoom s) (TransformState.getMaxZoom s) ->
      Dbl.isnan (Transform.getZoom transform) = false ->
      exists z, CameraOptions.zoom r.1 = Some z /\ Dbl.isnan z = false /\
        ((0 <? scale)%float = true ->
           Dbl.le (TransformState.getMinZoom s) z /\ Dbl.le z (TransformState.getMaxZoom s))).
Proof.
  intros Hne scale s r. destruct latLngs as [|p ps]; [congruence|].
  destruct (cameraForLatLngs_cons p ps transform padding) as (Hz & Hl & _).
  fold scale s r in Hz, Hl. repeat apply conj.
  - intros Hs. now rewrite Hs in Hz, Hl.
  - intros Hs. now rewrite Hs in Hz, Hl.
  - intros Hle Hnan. destruct (0 <? scale)%float eqn:Hs.
    + eexists. split; [exact Hz|].
      destruct (clamp_range (Transform.getZoom transform + log2 scale)%float _ _ Hle)
        as [Hlo Hhi].
      split; [|now intros _]. now destruct (dbl_le_not_nan _ _ Hlo).
    + eexists. split; [exact Hz|]. split; [exact Hnan|discriminate].
Qed.

(** C10.  [Map::cameraForLatLngs] on an empty list, with no bearing and no
    pitch, returns the camera options with no field set, logs nothing and
    leaves the map as it is; and whatever the points, the bearing and the
    pitch, the call leaves the map as it is. *)
Theorem cameraForLatLngs_empty `{Math} `{Projection}
    (padding : EdgeInsets.t) (m : Impl.t) :
  Map.cameraForLatLngs [] padding None None m = (CameraOptions.empty, m, [])
  /\ mbgl.cameraForLatLngs [] (Impl.transform m) padding = (CameraOptions.empty, [])
  /\ forall latLngs bearing pitch,
       stateOf (Map.cameraForLatLngs latLngs padding bearing pitch m) = m.
Proof.
  repeat apply conj; try reflexivity.
  intros latLngs bearing pitch.
  unfold Map.cameraForLatLngs, stateOf, mbind, M_bind, get, emits, mret, M_ret.
  destruct bearing, pitch; reflexivity.
Qed.

(** * Still images *)

Section Still.
Context `{Math} `{Projection}.

Lemma mode_test (md : MapMode) :
  negb (MapMode_eqb md Static) && negb (MapMode_eqb md Tile) = true
  <-> md <> Static /\ md <> Tile.
Proof. destruct md; simpl; split; intros; try split; try congruence; tauto. Qed.

(** The camera overload is a jump followed by the callback-only overload. *)
Lemma renderStillCamera_run (camera : CameraOptions.t) (debugOptions : MapDebugOptions)
    (callback : option CallbackId) (m : Impl.t) :
  let m1 := Impl.set_transform (Transform.jumpTo camera (Impl.transform m)).1
              (Impl.set_debugOptions debugOptions (Impl.set_cameraMutated true m)) in
  let r := Map.renderStill callback m1 in
  Map.renderStillCamera camera debugOptions callback m
  = (tt, stateOf r, [CameraWillChange Immediate; CameraDidChange Immediate] ++ effectsOf r).
Proof.
  cbv zeta. unfold Map.renderStillCamera, stateOf, effectsOf, mbind, M_bind, modify, onTransform.
  cbn -[Map.renderStill].
  destruct (Map.renderStill callback _) as [[[] m2] e]. reflexivity.
Qed.
End Still.

(** C4.  On a misuse (the mode is neither Static nor Tile, or a still image is
    being rendered) [Map::renderStill(callback)] runs the supplied callback
    once, before it returns, with a misuse error, and leaves the map as it is:
    no field changes, no still-image request is created and the request in
    flight stays the same one.  The error names the mode when the mode is
    wrong and the rendering in progress otherwise. *)
Theorem renderStill_misuse `{Math} `{Projection} (cb : CallbackId) (m : Impl.t) :
  misuse m ->
  let r := Map.renderStill (Some cb) m in
  let msg :=
    if negb (MapMode_eqb (Impl.mode m) Static) && negb (MapMode_eqb (Impl.mode m) Tile)
    then Map.notStaticOrTile else Map.alreadyRendering in
  r = (tt, m, [Invoke cb (Some (MisuseException msg))])
  /\ stateOf r = m
  /\ Impl.stillImageRequest (stateOf r) = Impl.stillImageRequest m.
Proof.
  intros Hm r msg.
  assert (Hr : r = (tt, m, [Invoke cb (Some (MisuseException msg))])).
  { unfold r, msg, Map.renderStill, mbind, M_bind, get, emit. simpl.
    destruct (negb (MapMode_eqb (Impl.mode m) Static) && negb (MapMode_eqb (Impl.mode m) Tile))
      eqn:Hmode; [reflexivity|].
    destruct Hm as [Hm|Hreq].
    - apply mode_test in Hm. congruence.
    - now rewrite (bool_decide_eq_true_2 _ Hreq). }
  split; [exact Hr|]. now rewrite Hr.
Qed.

(** * Load state *)

Section Loaded.
Context `{Math} `{Projection}.

Lemma renderFrames_last (flags : list bool) (b : bool) (m : Impl.t) :
  let m' := stateOf (ImplOps.renderFrames (flags ++ [b]) m) in
  Impl.rendererFullyLoaded m' = negb b /\ Impl.style m' = Impl.style m.
Proof.
  revert m. induction flags as [|f flags IH]; intros m; [now split|].
  cbv zeta. change ((f :: flags) ++ [b]) with (f :: (flags ++ [b])).
  cbn [ImplOps.renderFrames]. rewrite stateOf_bind.
  exact (IH (Impl.set_rendererFullyLoaded (negb f) m)).
Qed.
End Loaded.

(** C3.  [Map::isFullyLoaded] is true exactly when the style is loaded and
    [rendererFullyLoaded] is set; a finished frame sets the flag to the
    negation of its [needsRepaint], so after a run of frames the map is fully
    loaded exactly when the style is loaded and the last frame needed no
    repaint. *)
Theorem isFullyLoaded_spec `{Math} `{Projection} (m : Impl.t) :
  (Map.isFullyLoaded m = true <->
     Style.loaded (Impl.style m) = true /\ Impl.rendererFullyLoaded m = true)
  /\ (forall renderMode needsRepaint placementChanged encodeTime renderTime,
        let m' := stateOf (ImplOps.onDidFinishRenderingFrame renderMode needsRepaint
                             placementChanged encodeTime renderTime m) in
        Impl.rendererFullyLoaded m' = negb needsRepaint /\
        Map.isFullyLoaded m' = Style.loaded (Impl.style m) && negb needsRepaint)
  /\ (forall flags needsRepaint,
        Map.isFullyLoaded (stateOf (ImplOps.renderFrames (flags ++ [needsRepaint]) m))
        = Style.loaded (Impl.style m) && negb needsRepaint).
Proof.
  repeat apply conj.
  - unfold Map.isFullyLoaded. apply andb_true_iff.
  - unfold Map.isFullyLoaded. apply andb_true_iff.
  - intros. now split.
  - intros flags b. destruct (renderFrames_last flags b m) as [Hr Hs].
    unfold Map.isFullyLoaded. now rewrite Hr, Hs.
Qed.

(** * Styles and transitions *)

(** X28.  [Map::setStyle] does nothing to the transform and tells the
    observer nothing beyond what [Map::Impl::onStyleLoading], the first call
    it makes, does: the map after the call is the one [onStyleLoading] leaves,
    with the new style installed and, when annotations are enabled, handed to
    the annotation manager.  A transition is active after [setStyle] exactly
    when one is active after [onStyleLoading]. *)
Theorem setStyle_after_onStyleLoading `{Math} `{Projection} `{StyleLoading}
    (style : Style.t) (m : Impl.t) :
  let m1 := stateOf (onStyleLoading m) in
  let r := Map.setStyle style m in
  stateOf r
    = (if annotationsEnabled
       then Impl.set_annotationStyle (Some style) (Impl.set_style style m1)
       else Impl.set_style style m1)
  /\ Impl.transform (stateOf r) = Impl.transform m1
  /\ Transform.inTransition (Impl.transform (stateOf r))
     = Transform.inTransition (Impl.transform m1)
  /\ Impl.style (stateOf r) = style
  /\ effectsOf r = effectsOf (onStyleLoading m).
Proof.
  cbv zeta.
  unfold Map.setStyle, stateOf, effectsOf, mbind, M_bind, get, modify, mret, M_ret.
  destruct (onStyleLoading m) as [[[] m1] e1].
  destruct annotationsEnabled; simpl; rewrite ?app_nil_r; repeat split.
Qed.

(** * Transitions *)

Section Transitions.
Context `{Math} `{Projection}.

Lemma finishedCount_app (k : CallbackId) (e1 e2 : list Effect) :
  finishedCount k (e1 ++ e2) = (finishedCount k e1 + finishedCount k e2)%nat.
Proof. unfold finishedCount. now rewrite List.filter_app, List.length_app. Qed.

Lemma finishedCount_fire (k : CallbackId) (f : option CallbackId) :
  finishedCount k (Transform.fireFinish f) = if decide (f = Some k) then 1%nat else 0%nat.
Proof.
  case_decide as Hf.
  - subst f. unfold finishedCount. simpl. now rewrite Nat.eqb_refl.
  - destruct f as [j|]; [|reflexivity].
    unfold finishedCount. simpl. destruct (Nat.eqb_spec j k); [congruence|reflexivity].
Qed.

Lemma set_transform_same (m : Impl.t) : Impl.set_transform (Impl.transform m) m = m.
Proof. now destruct m. Qed.

Lemma sameLimits_refl (s : TransformState.t) : sameLimits s s.
Proof. now intros c. Qed.

Lemma sameLimits_setCamera (c : Camera.t) (s s' : TransformState.t) :
  sameLimits s s' -> sameLimits s (TransformState.setCamera c s').
Proof.
  intros Hs c'. rewrite <- (Hs c'). reflexivity.
Qed.

(** Ticks of a transform with no transition do nothing. *)
Lemma ticks_idle (ts : list TimePoint) (m : Impl.t) :
  Transform.transition (Impl.transform m) = None ->
  calls (map Tick ts) m = (tt, m, []).
Proof.
  intros Hidle. induction ts as [|t ts IH]; [reflexivity|].
  simpl. unfold mbind, M_bind, ImplOps.tick, onTransform, Transform.advance.
  rewrite Hidle, set_transform_same, IH. reflexivity.
Qed.

(** One tick of an active transition. *)
Lemma tick_run (x : Transform.Transition) (t : TimePoint) (m : Impl.t) :
  Transform.transition (Impl.transform m) = Some x ->
  ImplOps.tick t m =
  if (Transform.startTime x + Transform.duration x <=? t)%Z then
    (tt,
     Impl.set_transform
       (Transform.mk (TransformState.setCamera (Transform.target x) (stateOfMap m))
          (Transform.gestureInProgress (Impl.transform m)) None) m,
     CameraDidChange Animated :: Transform.fireFinish (Transform.transitionFinishFn x))
  else
    (tt,
     Impl.set_transform
       (Transform.mk (TransformState.setCamera (Transform.frame x t) (stateOfMap m))
          (Transform.gestureInProgress (Impl.transform m)) (Some x)) m,
     [CameraIsChanging]).
Proof.
  intros Hx. unfold ImplOps.tick, onTransform, Transform.advance. rewrite Hx.
  now destruct (Transform.startTime x + Transform.duration x <=? t)%Z.
Qed.

(** A run of ticks over a transition: it ends at the first tick at or after
    its deadline, with the target camera and one run of its callback. *)
Lemma ticks_run (x : Transform.Transition) (s0 : TransformState.t)
    (ts : list TimePoint) (m : Impl.t) :
  Transform.transition (Impl.transform m) = Some x ->
  sameLimits s0 (stateOfMap m) ->
  let r := calls (map Tick ts) m in
  if reaches (Transform.startTime x + Transform.duration x) ts then
    stateOfMap (stateOf r) = TransformState.setCamera (Transform.target x) s0 /\
    Transform.transition (Impl.transform (stateOf r)) = None /\
    forall k, finishedCount k (effectsOf r)
              = if decide (Transform.transitionFinishFn x = Some k) then 1%nat else 0%nat
  else
    Transform.transition (Impl.transform (stateOf r)) = Some x /\
    sameLimits s0 (stateOfMap (stateOf r)) /\
    forall k, finishedCount k (effectsOf r) = 0%nat.
Proof.
  revert m. induction ts as [|t ts IH]; intros m Hx Hs; cbv zeta.
  - simpl. repeat split; assumption.
  - change (map Tick (t :: ts)) with (Tick t :: map Tick ts).
    rewrite calls_cons, calls_cons_effects.
    cbn [reaches existsb call]. rewrite (tick_run x t m Hx).
    destruct (Transform.startTime x + Transform.duration x <=? t) eqn:Hdone; cbn [orb].
    + match goal with |- context [stateOf (tt, ?m1, _)] =>
        change (stateOf (tt, m1, _)) with m1;
        rewrite (ticks_idle ts m1 eq_refl) end.
      unfold stateOf, effectsOf, stateOfMap. cbn.
      split; [apply Hs|]. split; [reflexivity|].
      intros k. rewrite app_nil_r. apply finishedCount_fire.
    + match goal with |- context [stateOf (tt, ?m1, _)] =>
        change (stateOf (tt, m1, _)) with m1;
        specialize (IH m1 eq_refl (sameLimits_setCamera _ _ _ Hs)) end.
      cbv zeta in IH. fold (reaches (Transform.startTime x + Transform.duration x) ts).
      destruct (reaches _ ts).
      * destruct IH as (H1 & H2 & H3). repeat split; assumption.
      * destruct IH as (H1 & H2 & H3). repeat split; assumption.
Qed.
End Transitions.

(** C2.  A transform holds at most one transition.  When an [easeTo] with a
    duration above zero starts while a transition A is in progress, the
    transition in flight becomes the new one; through the ticks that follow,
    A's completion callback never runs, the new callback runs once if a tick
    reaches the new deadline and not at all before, and from that tick on the
    state is the one a jump to the new camera would have given, with no
    transition left. *)
Theorem easeTo_supersedes `{Math} `{Projection}
    (m : Impl.t) (A : Transform.Transition) (cameraB : CameraOptions.t)
    (animationB : AnimationOptions.t) (d : Duration) (now : TimePoint)
    (ts : list TimePoint) :
  Transform.transition (Impl.transform m) = Some A ->
  AnimationOptions.duration animationB = Some d -> 0 < d ->
  let B := Transform.mkTransition now d (TransformState.camera (stateOfMap m))
             (Transform.merge cameraB (stateOfMap m))
             (AnimationOptions.easing animationB)
             (AnimationOptions.transitionFinishFn animationB) in
  let r := calls (EaseTo cameraB animationB now :: map Tick ts) m in
  Transform.transition (Impl.transform (stateOf (Map.easeTo cameraB animationB now m))) = Some B
  /\ (forall a, Transform.transitionFinishFn A = Some a ->
        AnimationOptions.transitionFinishFn animationB <> Some a ->
        finishedCount a (effectsOf r) = 0%nat)
  /\ (forall b, AnimationOptions.transitionFinishFn animationB = Some b ->
        finishedCount b (effectsOf r) = if reaches (now + d) ts then 1%nat else 0%nat)
  /\ (if reaches (now + d) ts then
        stateOfMap (stateOf r) = Transform.state (Transform.jumpTo cameraB (Impl.transform m)).1 /\
        Transform.inTransition (Impl.transform (stateOf r)) = false
      else
        Transform.transition (Impl.transform (stateOf r)) = Some B).
Proof.
  intros HA Hd Hpos B r.
  assert (Hease : Map.easeTo cameraB animationB now m
                  = (tt,
                     Impl.set_transform
                       (Transform.mk (stateOfMap m)
                          (Transform.gestureInProgress (Impl.transform m)) (Some B))
                       (Impl.set_cameraMutated true m),
                     [CameraWillChange Animated; Update])).
  { unfold Map.easeTo, mbind, M_bind, modify, onTransform, ImplOps.onUpdate, emit,
      Transform.easeTo. cbn. rewrite Hd. cbn.
    destruct (Z.ltb_spec 0 d) as [_|Hn]; [reflexivity|lia]. }
  set (m1 := Impl.set_transform
               (Transform.mk (stateOfMap m)
                  (Transform.gestureInProgress (Impl.transform m)) (Some B))
               (Impl.set_cameraMutated true m)) in Hease.
  pose proof (ticks_run B (stateOfMap m) ts m1 eq_refl (sameLimits_refl _)) as Hrun.
  cbv zeta in Hrun.
  change (Transform.startTime B + Transform.duration B) with (now + d) in Hrun.
  assert (Hst : stateOf r = stateOf (calls (map Tick ts) m1)).
  { unfold r. rewrite calls_cons. cbn [call]. now rewrite Hease. }
  assert (Hef : forall k, finishedCount k (effectsOf r)
                          = finishedCount k (effectsOf (calls (map Tick ts) m1))).
  { intros k. unfold r. rewrite calls_cons_effects. cbn [call]. rewrite Hease.
    now rewrite finishedCount_app. }
  repeat apply conj.
  - now rewrite Hease.
  - intros a Ha Hne. rewrite Hef.
    destruct (reaches (now + d) ts); destruct Hrun as (_ & _ & Hcount); rewrite Hcount;
      [|reflexivity].
    now rewrite decide_False.
  - intros b Hb. rewrite Hef.
    destruct (reaches (now + d) ts); destruct Hrun as (_ & _ & Hcount); rewrite Hcount;
      [|reflexivity].
    now rewrite decide_True.
  - rewrite Hst. destruct (reaches (now + d) ts).
    + destruct Hrun as (Hs & Ht & _). split; [exact Hs|].
      unfold Transform.inTransition. now rewrite Ht.
    + now destruct Hrun as (Ht & _).
Qed.

(** * The rolling files of the journal *)

Section Journal.
Import ActionJournal.
Local Open Scope nat_scope.
Implicit Types (fs : gmap nat (list Line)) (n i j k : nat).

Lemma within_size n fs : within n fs -> size fs <= n.
Proof.
  intros Hw. rewrite <- size_dom.
  rewrite <- (size_set_seq (C := gset nat) 0 n).
  apply subseteq_size. intros i Hi.
  apply elem_of_dom in Hi. apply elem_of_set_seq. specialize (Hw i Hi). lia.
Qed.

Lemma remove_within n i fs : within n fs -> within n (remove i fs).
Proof.
  intros Hw j Hj. apply Hw. unfold remove in Hj.
  destruct (decide (j = i)) as [->|Hne].
  - rewrite lookup_delete_eq in Hj. now destruct Hj.
  - now rewrite lookup_delete_ne in Hj.
Qed.

Lemma rename_lookup i fs j :
  fs !! S i = None ->
  rename i (S i) fs !! j
  = if decide (j = i) then None else if decide (j = S i) then fs !! i else fs !! j.
Proof.
  intros Hfree. unfold rename. destruct (fs !! i) as [c|] eqn:Hi.
  - destruct (decide (j = i)) as [->|Hji].
    + rewrite lookup_insert_ne by lia. apply lookup_delete_eq.
    + destruct (decide (j = S i)) as [->|Hjs].
      * apply lookup_insert_eq.
      * rewrite lookup_insert_ne by lia. now rewrite lookup_delete_ne.
  - destruct (decide (j = i)) as [->|Hji]; [exact Hi|].
    destruct (decide (j = S i)) as [->|Hjs]; [exact Hfree|reflexivity].
Qed.

Lemma rename_within n i fs :
  S i < n -> within n fs -> within n (rename i (S i) fs).
Proof.
  intros Hi Hw j Hj. unfold rename in Hj. destruct (fs !! i) as [c|] eqn:Hc.
  - destruct (decide (j = S i)) as [->|Hne]; [exact Hi|].
    rewrite lookup_insert_ne in Hj by lia.
    destruct (decide (j = i)) as [->|Hne']; [lia|].
    rewrite lookup_delete_ne in Hj by lia. now apply Hw.
  - now apply Hw.
Qed.

(** After the renames every file below k has moved up by one. *)
Lemma renameAll_lookup k fs j :
  fs !! k = None ->
  renameAll k fs !! j
  = if decide (j = 0) then (if decide (k = 0) then fs !! 0 else None)
    else if decide (j <= k) then fs !! (j - 1) else fs !! j.
Proof.
  revert fs j. induction k as [|i IH]; intros fs j Hfree.
  - simpl. destruct (decide (j = 0)) as [->|Hj]; [reflexivity|].
    destruct (decide (j <= 0)); [lia|reflexivity].
  - cbn [renameAll].
    assert (Hi : rename i (S i) fs !! i = None).
    { rewrite rename_lookup by assumption. now rewrite decide_True. }
    rewrite (IH _ j Hi). rewrite !rename_lookup by assumption.
    destruct (decide (j = 0)) as [->|Hj].
    + destruct (decide (i = 0)) as [->|Hi0]; [|reflexivity].
      now rewrite decide_True.
    + destruct (decide (j <= i)) as [Hle|Hgt].
      * rewrite decide_False by lia. rewrite decide_False by lia.
        now rewrite decide_True by lia.
      * rewrite decide_False by lia.
        destruct (decide (j = S i)) as [->|Hjs].
        -- rewrite decide_True by lia. f_equal. lia.
        -- now rewrite decide_False by lia.
Qed.

Lemma renameTrace_within n k fs :
  k < n -> within n fs -> forall d, d ∈ renameTrace k fs -> within n d.
Proof.
  revert fs. induction k as [|i IH]; intros fs Hk Hw d Hd.
  - now apply elem_of_nil in Hd.
  - cbn [renameTrace] in Hd. apply elem_of_cons in Hd as [->|Hd].
    + apply rename_within; [lia|assumption].
    + apply (IH (rename i (S i) fs)); [lia| |assumption].
      apply rename_within; [lia|assumption].
Qed.

Lemma renameAll_within n k fs :
  k < n -> within n fs -> within n (renameAll k fs).
Proof.
  revert fs. induction k as [|i IH]; intros fs Hk Hw; [exact Hw|].
  cbn [renameAll]. apply IH; [lia|]. apply rename_within; [lia|assumption].
Qed.

Lemma create_within n fs : 1 <= n -> within n fs -> within n (create 0 fs).
Proof.
  intros Hn Hw j Hj. unfold create in Hj.
  destruct (decide (j = 0)) as [->|Hne]; [lia|].
  rewrite lookup_insert_ne in Hj by lia. now apply Hw.
Qed.

Lemma write_within n line fs : 1 <= n -> within n fs -> within n (write line fs).
Proof.
  intros Hn Hw j Hj. unfold write in Hj.
  destruct (decide (j = 0)) as [->|Hne]; [lia|].
  rewrite lookup_insert_ne in Hj by lia. now apply Hw.
Qed.

Lemma rotate_within n fs : 1 <= n -> within n fs -> within n (rotate n fs).
Proof.
  intros Hn Hw. unfold rotate. apply create_within; [assumption|].
  apply renameAll_within; [lia|]. now apply remove_within.
Qed.

(** The files after a rotation. *)
Lemma rotate_lookup n fs j :
  1 <= n -> within n fs ->
  rotate n fs !! j
  = if decide (j = 0) then Some [] else if decide (j < n) then fs !! (j - 1) else None.
Proof.
  intros Hn Hw. unfold rotate, create.
  destruct (decide (j = 0)) as [->|Hj]; [apply lookup_insert_eq|].
  rewrite lookup_insert_ne by lia.
  rewrite renameAll_lookup by apply lookup_delete_eq.
  rewrite decide_False by assumption.
  destruct (decide (j <= n - 1)) as [Hle|Hgt].
  - rewrite decide_True by lia. unfold remove. apply lookup_delete_ne. lia.
  - rewrite decide_False by lia. unfold remove. rewrite lookup_delete_ne by lia.
    destruct (fs !! j) eqn:Hfs; [|reflexivity].
    assert (j < n) by (apply Hw; eauto). lia.
Qed.

Lemma events_write n line fs :
  1 <= n -> events n (write line fs) = events n fs ++ [line].
Proof.
  intros Hn. destruct n as [|i]; [lia|]. clear Hn. induction i as [|i IH].
  - simpl. unfold write, currentFile. rewrite lookup_insert_eq. simpl.
    now rewrite !app_nil_r.
  - change (events (S (S i)) ?f) with (default [] (f !! S i) ++ events (S i) f).
    rewrite IH. unfold write at 1. rewrite lookup_insert_ne by lia.
    now rewrite app_assoc.
Qed.

Lemma events_shift k fs fs' :
  fs' !! 0 = Some [] -> (forall j, j < k -> fs' !! S j = fs !! j) ->
  events (S k) fs' = events k fs.
Proof.
  intros H0 Hs. induction k as [|i IH].
  - simpl. now rewrite H0.
  - change (events (S (S i)) fs') with (default [] (fs' !! S i) ++ events (S i) fs').
    rewrite IH by (intros j Hj; apply Hs; lia).
    rewrite Hs by lia. reflexivity.
Qed.

Lemma events_rotate n fs :
  1 <= n -> within n fs -> events n (rotate n fs) = events (n - 1) fs.
Proof.
  intros Hn Hw. destruct n as [|k]; [lia|].
  replace (S k - 1) with k by lia. apply events_shift.
  - rewrite rotate_lookup by assumption. now rewrite decide_True.
  - intros j Hj. rewrite rotate_lookup by assumption.
    rewrite decide_False by lia. rewrite decide_True by lia. f_equal. lia.
Qed.

Lemma rotateTrace_within n fs :
  1 <= n -> within n fs -> forall d, d ∈ rotateTrace n fs -> within n d.
Proof.
  intros Hn Hw d Hd. unfold rotateTrace in Hd.
  apply elem_of_cons in Hd as [->|Hd]; [now apply remove_within|].
  apply elem_of_app in Hd as [Hd|Hd].
  - apply (renameTrace_within n (n - 1) (remove (n - 1) fs)); [lia| |assumption].
    now apply remove_within.
  - apply list_elem_of_singleton in Hd as ->. now apply rotate_within.
Qed.

Lemma events_empty n : events n (∅ : gmap nat (list Line)) = [].
Proof. induction n as [|i IH]; [reflexivity|]. simpl. now rewrite lookup_empty. Qed.

Lemma events_last n fs :
  1 <= n -> events n fs = default [] (fs !! (n - 1)) ++ events (n - 1) fs.
Proof.
  intros Hn. destruct n as [|k]; [lia|].
  replace (S k - 1) with k by lia. reflexivity.
Qed.

Lemma append_within (o : Options) line fs :
  1 <= logFileCount o -> within (logFileCount o) fs ->
  within (logFileCount o) (append o line fs).
Proof.
  intros Hn Hw. unfold append. apply write_within; [assumption|].
  destruct (mustRotate o fs); [now apply rotate_within|assumption].
Qed.

Lemma append_events (o : Options) line fs :
  1 <= logFileCount o -> within (logFileCount o) fs ->
  events (logFileCount o) (append o line fs)
  = (if mustRotate o fs then events (logFileCount o - 1) fs
     else events (logFileCount o) fs) ++ [line].
Proof.
  intros Hn Hw. unfold append. rewrite events_write by assumption.
  destruct (mustRotate o fs); [|reflexivity]. now rewrite events_rotate.
Qed.

(** Through a run of appends the events on disk stay a suffix of the events
    that were there followed by the appended ones. *)
Lemma appendAll_suffix (o : Options) (lines : list Line) fs :
  1 <= logFileCount o -> within (logFileCount o) fs ->
  within (logFileCount o) (appendAll o lines fs) /\
  exists dropped,
    events (logFileCount o) fs ++ lines
    = dropped ++ events (logFileCount o) (appendAll o lines fs).
Proof.
  intros Hn. revert fs. induction lines as [|l ls IH]; intros fs Hw.
  - split; [exact Hw|]. exists []. simpl. now rewrite app_nil_r.
  - destruct (IH (append o l fs) (append_within o l fs Hn Hw)) as [Hw' [dropped Hd]].
    split; [exact Hw'|].
    change (appendAll o (l :: ls) fs) with (appendAll o ls (append o l fs)).
    rewrite append_events in Hd by assumption.
    destruct (mustRotate o fs).
    + exists (default [] (fs !! (logFileCount o - 1)) ++ dropped).
      rewrite (events_last _ fs Hn). rewrite <- !app_assoc. f_equal.
      rewrite <- Hd. now rewrite <- app_assoc.
    + exists dropped. rewrite <- Hd. now rewrite <- app_assoc.
Qed.
End Journal.

(** C5.  With at least one file configured and every file on disk carrying an
    index below [logFileCount], an append leaves at most [logFileCount] files
    on disk at every step, all with an index below it.  Without a rotation only
    file 0 changes: it gains the event at its end.  With a rotation file 0
    holds the event alone, file i+1 holds what file i held, and the events on
    disk, oldest first, are those of the files 0 to N-2 in their order,
    followed by the event once; what is gone is the content of file N-1.
    Starting from an empty directory, after any run of appends at most
    [logFileCount] files exist and the events on disk, oldest first, are a
    suffix of the appended events: none is missing in between, none is there
    twice. *)
Theorem append_rotates (o : ActionJournal.Options) (line : ActionJournal.Line)
    (fs : gmap nat (list ActionJournal.Line)) :
  (1 <= ActionJournal.logFileCount o)%nat ->
  ActionJournal.within (ActionJournal.logFileCount o) fs ->
  let n := ActionJournal.logFileCount o in
  let fs' := ActionJournal.append o line fs in
  (forall d, d ∈ ActionJournal.appendTrace o line fs ->
     ActionJournal.within n d /\ (size d <= n)%nat)
  /\ fs' !! 0%nat
     = Some ((if ActionJournal.mustRotate o fs then [] else ActionJournal.currentFile fs)
               ++ [line])
  /\ (forall i, (0 < i)%nat ->
        fs' !! i = if ActionJournal.mustRotate o fs
                   then (if decide (i < n)%nat then fs !! (i - 1)%nat else None)
                   else fs !! i)
  /\ ActionJournal.events n fs'
     = (if ActionJournal.mustRotate o fs
        then ActionJournal.events (n - 1) fs
        else ActionJournal.events n fs) ++ [line]
  /\ ActionJournal.events n fs
     = default [] (fs !! (n - 1)%nat) ++ ActionJournal.events (n - 1) fs
  /\ (forall lines,
        (size (ActionJournal.appendAll o lines ∅) <= n)%nat /\
        exists dropped,
          lines = dropped ++ ActionJournal.events n (ActionJournal.appendAll o lines ∅)).
Proof.
  intros Hn Hw n fs'. repeat apply conj.
  - intros d Hd.
    assert (Hd' : ActionJournal.within n d).
    { unfold ActionJournal.appendTrace in Hd. apply elem_of_app in Hd as [Hd|Hd].
      - destruct (ActionJournal.mustRotate o fs).
        + now apply (rotateTrace_within n fs).
        + now apply elem_of_nil in Hd.
      - apply list_elem_of_singleton in Hd as ->. unfold ActionJournal.append.
        apply write_within; [assumption|].
        destruct (ActionJournal.mustRotate o fs); [now apply rotate_within|assumption]. }
    split; [exact Hd'|now apply within_size].
  - unfold fs', ActionJournal.append, ActionJournal.write. rewrite lookup_insert_eq.
    destruct (ActionJournal.mustRotate o fs); [|reflexivity].
    unfold ActionJournal.currentFile. rewrite rotate_lookup by assumption.
    now rewrite decide_True.
  - intros i Hi. unfold fs', ActionJournal.append, ActionJournal.write.
    rewrite lookup_insert_ne by lia.
    destruct (ActionJournal.mustRotate o fs); [|reflexivity].
    rewrite rotate_lookup by assumption. now rewrite decide_False by lia.
  - unfold fs', ActionJournal.append. rewrite events_write by assumption.
    destruct (ActionJournal.mustRotate o fs); [|reflexivity].
    now rewrite events_rotate.
  - now apply events_last.
  - intros lines.
    assert (H0 : ActionJournal.within n (∅ : gmap nat (list ActionJournal.Line))).
    { intros i [c Hc]. now rewrite lookup_empty in Hc. }
    destruct (appendAll_suffix o lines ∅ Hn H0) as [Hw' [dropped Hd]].
    split; [now apply within_size|].
    exists dropped. rewrite events_empty in Hd. exact Hd.
Qed.

(** * The pixel bounds of cameraForLatLngs *)

Section PixelBounds.
Context `{Math} `{Projection}.
Local Open Scope float_scope.

Lemma SFcompare_le_trans (a b c : spec_float) :
  (SFcompare a b = Some Lt \/ SFcompare a b = Some Eq) ->
  (SFcompare b c = Some Lt \/ SFcompare b c = Some Eq) ->
  SFcompare a c = Some Lt \/ SFcompare a c = Some Eq.
Proof.
  intros Hab [Hbc|Hbc].
  - left. eapply SFcompare_le_lt_trans; eassumption.
  - destruct (SFcompare a c) as [[]|] eqn:Hac; auto.
    + (* c < a and b = c give b < a, against a <= b *)
      exfalso. pose proof (SFcompare_antisym _ _ _ Hac) as Hca. simpl in Hca.
      pose proof (SFcompare_le_lt_trans b c a (or_intror Hbc) Hca) as Hba.
      pose proof (SFcompare_antisym _ _ _ Hba) as Hab'. simpl in Hab'.
      destruct Hab as [Hab|Hab]; congruence.
    + exfalso. destruct (SFcompare_nan_l _ _ _ Hbc) as [_ Hc].
      destruct Hab as [Hab|Hab]; destruct (SFcompare_nan_l _ _ _ Hab) as [Ha _];
        destruct (SFcompare_total a c Ha Hc) as [x Hx]; congruence.
Qed.

Lemma dbl_le_trans (a b c : float) : Dbl.le a b -> Dbl.le b c -> Dbl.le a c.
Proof.
  unfold Dbl.le. rewrite !FloatAxioms.leb_spec. unfold SFleb. intros Hab Hbc.
  assert (H1 : SFcompare (Prim2SF a) (Prim2SF b) = Some Lt \/
               SFcompare (Prim2SF a) (Prim2SF b) = Some Eq)
    by (destruct (SFcompare (Prim2SF a) (Prim2SF b)) as [[]|]; auto; discriminate).
  assert (H2 : SFcompare (Prim2SF b) (Prim2SF c) = Some Lt \/
               SFcompare (Prim2SF b) (Prim2SF c) = Some Eq)
    by (destruct (SFcompare (Prim2SF b) (Prim2SF c)) as [[]|]; auto; discriminate).
  destruct (SFcompare_le_trans _ _ _ H1 H2) as [-> | ->]; reflexivity.
Qed.

(** [std::max] keeps a number a number, stays above its first argument, and is
    above its second when that is a number. *)
Lemma std_max_spec (a b : float) :
  Dbl.isnan a = false ->
  Dbl.isnan (Dbl.std_max a b) = false /\
  Dbl.le a (Dbl.std_max a b) /\
  (Dbl.isnan b = false -> Dbl.le b (Dbl.std_max a b)).
Proof.
  intros Ha. unfold Dbl.std_max. destruct (a <? b) eqn:Hab.
  - destruct (dbl_lt_not_nan _ _ Hab) as [_ Hb].
    split; [exact Hb|]. split; [now apply dbl_lt_le|]. intros _. now apply dbl_le_refl.
  - split; [exact Ha|]. split; [now apply dbl_le_refl|].
    intros Hb. now apply dbl_not_ltb_le.
Qed.

Lemma std_min_spec (a b : float) :
  Dbl.isnan a = false ->
  Dbl.isnan (Dbl.std_min a b) = false /\
  Dbl.le (Dbl.std_min a b) a /\
  (Dbl.isnan b = false -> Dbl.le (Dbl.std_min a b) b).
Proof.
  intros Ha. unfold Dbl.std_min. destruct (b <? a) eqn:Hba.
  - destruct (dbl_lt_not_nan _ _ Hba) as [Hb _].
    split; [exact Hb|]. split; [now apply dbl_lt_le|]. intros _. now apply dbl_le_refl.
  - split; [exact Ha|]. split; [now apply dbl_le_refl|].
    intros Hb. now apply dbl_not_ltb_le.
Qed.

Lemma extendPixels_grows (transform : Transform.t)
    (acc : ScreenCoordinate.t * ScreenCoordinate.t) (p : LatLng.t) :
  numbers acc ->
  numbers (mbgl.extendPixels transform acc p) /\
  inside acc (mbgl.extendPixels transform acc p).
Proof.
  destruct acc as [ne sw]. intros (H1 & H2 & H3 & H4). simpl in *.
  set (px := latLngToScreenCoordinate (Transform.getState transform) p).
  destruct (std_max_spec (ScreenCoordinate.x ne) (ScreenCoordinate.x px) H1) as (? & ? & _).
  destruct (std_max_spec (ScreenCoordinate.y ne) (ScreenCoordinate.y px) H2) as (? & ? & _).
  destruct (std_min_spec (ScreenCoordinate.x sw) (ScreenCoordinate.x px) H3) as (? & ? & _).
  destruct (std_min_spec (ScreenCoordinate.y sw) (ScreenCoordinate.y px) H4) as (? & ? & _).
  repeat split; assumption.
Qed.

Lemma fold_extendPixels_grows (transform : Transform.t) (l : list LatLng.t)
    (acc : ScreenCoordinate.t * ScreenCoordinate.t) :
  numbers acc ->
  numbers (fold_left (mbgl.extendPixels transform) l acc) /\
  inside acc (fold_left (mbgl.extendPixels transform) l acc).
Proof.
  revert acc. induction l as [|p l IH]; intros acc Hn.
  - split; [exact Hn|]. destruct Hn as (? & ? & ? & ?).
    repeat split; now apply dbl_le_refl.
  - destruct (extendPixels_grows transform acc p Hn) as [Hn1 Hi1].
    destruct (IH _ Hn1) as [Hn2 Hi2]. split; [exact Hn2|].
    cbn [fold_left].
    destruct Hi1 as (? & ? & ? & ?), Hi2 as (? & ? & ? & ?).
    repeat split; eapply dbl_le_trans; eassumption.
Qed.
End PixelBounds.

(** X5.  After the loop of [cameraForLatLngs] the corners are numbers, the
    south-west corner is at or below and the north-east corner at or above
    the pixel of every point of the list, in each coordinate in which that
    pixel is a number; so for such a point the width and the height the
    function goes on with relate corners in the right order. *)
Theorem pixelBounds_encloses `{Math} `{Projection}
    (latLngs : list LatLng.t) (transform : Transform.t) (p : LatLng.t) :
  p ∈ latLngs ->
  let px := latLngToScreenCoordinate (Transform.getState transform) p in
  let ne := (mbgl.pixelBounds latLngs transform).1 in
  let sw := (mbgl.pixelBounds latLngs transform).2 in
  (Dbl.isnan (ScreenCoordinate.x px) = false ->
     Dbl.le (ScreenCoordinate.x sw) (ScreenCoordinate.x px) /\
     Dbl.le (ScreenCoordinate.x px) (ScreenCoordinate.x ne))
  /\ (Dbl.isnan (ScreenCoordinate.y px) = false ->
     Dbl.le (ScreenCoordinate.y sw) (ScreenCoordinate.y px) /\
     Dbl.le (ScreenCoordinate.y px) (ScreenCoordinate.y ne)).
Proof.
  intros Hin. cbv zeta. unfold mbgl.pixelBounds.
  set (acc0 := (ScreenCoordinate.mk (- Dbl.INFINITY) (- Dbl.INFINITY),
                ScreenCoordinate.mk Dbl.INFINITY Dbl.INFINITY)).
  assert (Hn0 : numbers acc0) by (repeat split).
  revert Hin. generalize acc0 Hn0. clear acc0 Hn0.
  induction latLngs as [|q l IH]; intros acc Hn Hin; [now apply elem_of_nil in Hin|].
  cbn [fold_left].
  destruct (extendPixels_grows transform acc q Hn) as [Hn1 _].
  apply elem_of_cons in Hin as [->|Hin]; [|now apply IH].
  destruct (fold_extendPixels_grows transform l _ Hn1) as [_ (Hx1 & Hy1 & Hx2 & Hy2)].
  destruct acc as [ne sw]. destruct Hn as (N1 & N2 & N3 & N4). simpl in *.
  set (px := latLngToScreenCoordinate (Transform.getState transform) q) in *.
  split; intros Hpx.
  - destruct (std_max_spec (ScreenCoordinate.x ne) (ScreenCoordinate.x px) N1) as (_ & _ & Hmax).
    destruct (std_min_spec (ScreenCoordinate.x sw) (ScreenCoordinate.x px) N3) as (_ & _ & Hmin).
    split; eapply dbl_le_trans; eauto.
  - destruct (std_max_spec (ScreenCoordinate.y ne) (ScreenCoordinate.y px) N2) as (_ & _ & Hmax).
    destruct (std_min_spec (ScreenCoordinate.y sw) (ScreenCoordinate.y px) N4) as (_ & _ & Hmin).
    split; eapply dbl_le_trans; eauto.
Qed.

(** * Camera mutations and the zoom range *)

Section Mutations.
Context `{Math} `{Projection} `{Gestures}.
Local Open Scope float_scope.







End Mutations.


(** * More of map.cpp *)

(** X1.  [Map::renderStill(callback)] with an empty callback logs an error and
    does nothing else.  In Static or Tile mode with no request in flight, a
    style whose last load failed has its error handed to the callback and
    nothing stored; otherwise the request is stored and an update is asked
    for, and the callback is not run yet. *)
Theorem renderStill_accepts `{Math} `{Projection} (cb : CallbackId) (m : Impl.t) :
  Map.renderStill None m = (tt, m, [Log Error General "StillImageCallback not set"])
  /\ (Impl.mode m = Static \/ Impl.mode m = Tile ->
      Impl.stillImageRequest m = None ->
      Map.renderStill (Some cb) m =
        match Style.lastError (Impl.style m) with
        | Some e => (tt, m, [Invoke cb (Some e)])
        | None =>
            (tt, Impl.set_stillImageRequest (Some (StillImageRequest.mk cb)) m, [Update])
        end).
Proof.
  split; [reflexivity|]. intros Hmode Hreq.
  unfold Map.renderStill, mbind, M_bind, get, emit, modify, ImplOps.onUpdate. simpl.
  rewrite Hreq.
  assert (Ht : negb (MapMode_eqb (Impl.mode m) Static) && negb (MapMode_eqb (Impl.mode m) Tile)
               = false) by (destruct Hmode as [-> | ->]; reflexivity).
  rewrite Ht. rewrite bool_decide_eq_false_2 by (intros [x Hx]; discriminate).
  now destruct (Style.lastError (Impl.style m)).
Qed.

(** X2.  After [Map::cancelTransitions] no transition is active, the camera,
    its limits and the gesture flag are the ones before the call, and the
    update is asked for last, after whatever the cancellation tells the
    observer and the interrupted transition's callback (a parameter: the spec
    leaves it open).  On a transform with no transition the call asks for an
    update and does nothing else. *)
Theorem cancelTransitions_idle `{Math} `{Projection} (m : Impl.t) :
  let r := Map.cancelTransitions m in
  Transform.inTransition (Impl.transform (stateOf r)) = false
  /\ stateOfMap (stateOf r) = stateOfMap m
  /\ Transform.gestureInProgress (Impl.transform (stateOf r))
     = Transform.gestureInProgress (Impl.transform m)
  /\ last (effectsOf r) = Some Update
  /\ (Transform.inTransition (Impl.transform m) = false -> r = (tt, m, [Update])).
Proof.
  cbv zeta.
  unfold Map.cancelTransitions, stateOf, effectsOf, stateOfMap, mbind, M_bind, onTransform,
    ImplOps.onUpdate, emit, Transform.cancelTransitions, Transform.inTransition.
  destruct m as [[st g [x|]] md pr cs dbg sty an cm pf ld rf si]; simpl.
  - repeat split; [apply last_snoc | discriminate].
  - repeat split.
Qed.

(** X3.  [Map::scaleBy] without a duration moves the zoom at once to
    clamp(zoom + log2(scale), minZoom, maxZoom), records the camera mutation
    and drops the transition in flight. *)
Theorem scaleBy_zoom `{Math} `{Projection} (scale : float) (anchor : option ScreenCoordinate.t)
    (animation : AnimationOptions.t) (now : TimePoint) (m : Impl.t) :
  AnimationOptions.duration animation = None ->
  let s := stateOfMap m in
  let m' := stateOf (Map.scaleBy scale anchor animation now m) in
  TransformState.getZoom (stateOfMap m')
    = util.clamp (TransformState.getZoom s + log2 scale)%float
        (TransformState.getMinZoom s) (TransformState.getMaxZoom s)
  /\ Impl.cameraMutated m' = true
  /\ Transform.inTransition (Impl.transform m') = false.
Proof.
  intros Hd. cbv zeta.
  unfold Map.scaleBy, Map.easeTo, stateOf, stateOfMap, mbind, M_bind, get, modify, onTransform,
    ImplOps.onUpdate, emit, Transform.easeTo. simpl. rewrite Hd. simpl. repeat split.
Qed.

(** X4.  [Map::cameraForLatLngBounds] always returns a camera with a center,
    the padding it was given and a zoom, and leaves the map as it is. *)
Theorem cameraForLatLngBounds_sets `{Math} `{Projection} (bounds : LatLngBounds.t)
    (padding : EdgeInsets.t) (bearing pitch : option float) (m : Impl.t) :
  let r := Map.cameraForLatLngBounds bounds padding bearing pitch m in
  is_Some (CameraOptions.center (valueOf r))
  /\ CameraOptions.padding (valueOf r) = Some padding
  /\ is_Some (CameraOptions.zoom (valueOf r))
  /\ stateOf r = m.
Proof.
  cbv zeta. unfold Map.cameraForLatLngBounds, Map.cameraForLatLngs.
  unfold valueOf, stateOf, mbind, M_bind, get, emits, mret, M_ret.
  destruct bearing, pitch; cbn -[mbgl.cameraForLatLngs];
    match goal with |- context [mbgl.cameraForLatLngs (?p :: ?ps) ?tr ?pad] =>
      unfold mbgl.cameraForLatLngs;
      destruct (mbgl.pixelBounds (p :: ps) tr) as [ne sw];
      destruct (0 <? mbgl.minScale (p :: ps) tr pad)%float
    end; cbn; repeat split; eauto.
Qed.

Section MoreOfMap.
Context `{Math} `{Projection}.

Lemma accepts_mode (m : Impl.t) :
  Impl.mode m = Static \/ Impl.mode m = Tile ->
  negb (MapMode_eqb (Impl.mode m) Static) && negb (MapMode_eqb (Impl.mode m) Tile) = false.
Proof. intros [-> | ->]; reflexivity. Qed.

Lemma renderStill_stores (cb : CallbackId) (m : Impl.t) :
  Impl.mode m = Static \/ Impl.mode m = Tile ->
  Impl.stillImageRequest m = None ->
  Style.lastError (Impl.style m) = None ->
  Map.renderStill (Some cb) m =
  (tt, Impl.set_stillImageRequest (Some (StillImageRequest.mk cb)) m, [Update]).
Proof.
  intros Hmode Hreq Herr.
  unfold Map.renderStill, mbind, M_bind, get, emit, modify, ImplOps.onUpdate. simpl.
  rewrite Hreq, (accepts_mode m Hmode).
  rewrite bool_decide_eq_false_2 by (intros [x Hx]; discriminate).
  rewrite Herr. reflexivity.
Qed.

Lemma renderStill_busy (cb : CallbackId) (m : Impl.t) :
  Impl.mode m = Static \/ Impl.mode m = Tile ->
  is_Some (Impl.stillImageRequest m) ->
  Map.renderStill (Some cb) m =
  (tt, m, [Invoke cb (Some (MisuseException Map.alreadyRendering))]).
Proof.
  intros Hmode Hreq.
  unfold Map.renderStill, mbind, M_bind, get, emit. simpl.
  rewrite (accepts_mode m Hmode), bool_decide_eq_true_2 by exact Hreq.
  reflexivity.
Qed.

(** X6.  Two calls of [Map::renderStill] in a row, in Static or Tile mode on
    a style without error: the first request is stored and asks for an
    update; the second callback is told at once that the map is currently
    rendering an image, and the first request stays in place. *)
Theorem renderStill_twice (a b : CallbackId) (m : Impl.t) :
  Impl.mode m = Static \/ Impl.mode m = Tile ->
  Impl.stillImageRequest m = None ->
  Style.lastError (Impl.style m) = None ->
  (Map.renderStill (Some a);; Map.renderStill (Some b)) m =
  (tt, Impl.set_stillImageRequest (Some (StillImageRequest.mk a)) m,
   [Update; Invoke b (Some (MisuseException Map.alreadyRendering))]).
Proof.
  intros Hmode Hreq Herr.
  change ((Map.renderStill (Some a);; Map.renderStill (Some b)) m)
    with (let '(x, m1, e1) := Map.renderStill (Some a) m in
          let '(y, m2, e2) := Map.renderStill (Some b) m1 in (y, m2, e1 ++ e2)).
  rewrite (renderStill_stores a m Hmode Hreq Herr).
  rewrite renderStill_busy; [reflexivity| exact Hmode | eexists; reflexivity].
Qed.

(** X7.  [Map::renderStill(camera, debugOptions, callback)], when the request
    is accepted: the still-image request holds the callback, the debug
    options are the given ones, [cameraMutated] is set, the transform is the
    one the jump to the camera leaves, and the update is asked for after the
    notifications of the jump. *)
Theorem renderStillCamera_stores (camera : CameraOptions.t) (debugOptions : MapDebugOptions)
    (cb : CallbackId) (m : Impl.t) :
  Impl.mode m = Static \/ Impl.mode m = Tile ->
  Impl.stillImageRequest m = None ->
  Style.lastError (Impl.style m) = None ->
  let r := Map.renderStillCamera camera debugOptions (Some cb) m in
  Impl.stillImageRequest (stateOf r) = Some (StillImageRequest.mk cb) /\
  Impl.debugOptions (stateOf r) = debugOptions /\
  Impl.cameraMutated (stateOf r) = true /\
  Impl.transform (stateOf r) = (Transform.jumpTo camera (Impl.transform m)).1 /\
  effectsOf r = (Transform.jumpTo camera (Impl.transform m)).2 ++ [Update].
Proof.
  intros Hmode Hreq Herr. cbv zeta.
  rewrite renderStillCamera_run. cbv zeta.
  rewrite renderStill_stores by assumption.
  unfold stateOf, effectsOf. cbn. repeat split.
Qed.

(** X9.  [Map::cameraForLatLngs] reports a bearing and a pitch exactly when one
    of the two was asked for: asking for a bearing alone also yields a pitch,
    and with neither the camera carries no angle.  The map is left as it
    is. *)
Theorem cameraForLatLngs_reports_angles (latLngs : list LatLng.t) (padding : EdgeInsets.t)
    (bearing pitch : option float) (m : Impl.t) :
  let c := valueOf (Map.cameraForLatLngs latLngs padding bearing pitch m) in
  (is_Some (CameraOptions.bearing c) <-> is_Some bearing \/ is_Some pitch) /\
  (is_Some (CameraOptions.pitch c) <-> is_Some bearing \/ is_Some pitch) /\
  stateOf (Map.cameraForLatLngs latLngs padding bearing pitch m) = m.
Proof.
  cbv zeta. unfold Map.cameraForLatLngs, valueOf, stateOf, mbind, M_bind, get, emits, mret, M_ret.
  destruct bearing as [b|], pitch as [p|]; cbn -[mbgl.cameraForLatLngs].
  1-3: repeat split; intros; first [eexists; reflexivity | left; eexists; reflexivity
                                    | right; eexists; reflexivity].
  unfold mbgl.cameraForLatLngs. destruct latLngs as [|p ps].
  - cbn. repeat split; intros Hx; try (destruct Hx as [y Hy]; discriminate);
      destruct Hx as [[y Hy]|[y Hy]]; discriminate.
  - destruct (mbgl.pixelBounds (p :: ps) (Impl.transform m)) as [ne sw].
    destruct (0 <? mbgl.minScale (p :: ps) (Impl.transform m) padding)%float; cbn;
      repeat split; intros Hx; try (destruct Hx as [y Hy]; discriminate);
      destruct Hx as [[y Hy]|[y Hy]]; discriminate.
Qed.

(** X8.  [Map::pitchBy] without a duration: the pitch handed to [easeTo] is
    the current pitch in degrees minus the argument, so the pitch becomes
    clamp(deg2rad(rad2deg(pitch) - delta), minPitch, maxPitch); the zoom is
    only clamped again, the camera mutation is recorded and no transition
    stays active. *)
Theorem pitchBy_pitch (pitch : float) (animation : AnimationOptions.t) (now : TimePoint)
    (m : Impl.t) :
  AnimationOptions.duration animation = None ->
  let s := stateOfMap m in
  let m' := stateOf (Map.pitchBy pitch animation now m) in
  TransformState.getPitch (stateOfMap m')
    = util.clamp (util.deg2rad (util.rad2deg (TransformState.getPitch s) - pitch))%float
        (TransformState.getMinPitch s) (TransformState.getMaxPitch s)
  /\ TransformState.getZoom (stateOfMap m')
    = util.clamp (TransformState.getZoom s)
        (TransformState.getMinZoom s) (TransformState.getMaxZoom s)
  /\ Impl.cameraMutated m' = true
  /\ Transform.inTransition (Impl.transform m') = false.
Proof.
  intros Hd. cbv zeta.
  unfold Map.pitchBy, Map.easeTo, stateOf, stateOfMap, mbind, M_bind, get, modify, onTransform,
    ImplOps.onUpdate, emit, Transform.easeTo. simpl. rewrite Hd. simpl. repeat split.
Qed.
End MoreOfMap.

(** * The Android binding *)

(** ** Calls that can throw *)

Section Run.
Import android.
Context {S E : Type}.

Lemma Run_bind_run {A B} (c : Run S E A) (k : A -> Run S E B) (s : S) :
  (c ≫= k) s =
  match c s with
  | (Ok a, s1, e1) => let '(r, s2, e2) := k a s1 in (r, s2, e1 ++ e2)
  | (Throw x, s1, e1) => (Throw x, s1, e1)
  end.
Proof. reflexivity. Qed.

Lemma Run_get_bind {B} (k : S -> Run S E B) (s : S) : (get ≫= k) s = k s s.
Proof. rewrite Run_bind_run. simpl. destruct (k s s) as [[r s2] e2]. reflexivity. Qed.

Lemma Run_emit_bind {B} (e : E) (k : unit -> Run S E B) (s : S) :
  (emit e ≫= k) s = after [e] (k tt s).
Proof. rewrite Run_bind_run. simpl. destruct (k tt s) as [[r s2] e2]. reflexivity. Qed.

Lemma Run_modify_bind {B} (f : S -> S) (k : unit -> Run S E B) (s : S) :
  (modify f ≫= k) s = k tt (f s).
Proof. rewrite Run_bind_run. simpl. destruct (k tt (f s)) as [[r s2] e2]. reflexivity. Qed.

Lemma Run_ret_bind {A B} (a : A) (k : A -> Run S E B) (s : S) : (mret a ≫= k) s = k a s.
Proof. rewrite Run_bind_run. simpl. destruct (k a s) as [[r s2] e2]. reflexivity. Qed.

Lemma Run_bind_assoc {A B C} (c : Run S E A) (f : A -> Run S E B) (g : B -> Run S E C) (s : S) :
  ((c ≫= f) ≫= g) s = (c ≫= fun a => f a ≫= g) s.
Proof.
  rewrite !Run_bind_run. destruct (c s) as [[[a|x] s1] e1]; [|reflexivity].
  rewrite Run_bind_run. destruct (f a s1) as [[[b|x] s2] e2]; [|reflexivity].
  destruct (g b s2) as [[r s3] e3]. rewrite app_assoc. reflexivity.
Qed.

Lemma Run_after_after {A} (a b : list E) (r : result A * S * list E) :
  after a (after b r) = after (a ++ b) r.
Proof. unfold after. simpl. rewrite app_assoc. reflexivity. Qed.

Lemma Run_stateOf_modify_bind {B} (f : S -> S) (k : unit -> Run S E B) (s : S) :
  stateOf ((modify f ≫= k) s) = stateOf (k tt (f s)).
Proof.
  rewrite Run_bind_run. simpl. unfold stateOf.
  destruct (k tt (f s)) as [[r s2] e2]. reflexivity.
Qed.

Lemma Run_each_emit {A} (f : A -> E) (l : list A) (s : S) :
  each (fun a => emit (f a)) l s = (Ok tt, s, f <$> l).
Proof.
  induction l as [|a l IH]; simpl; [reflexivity|].
  rewrite Run_bind_run. simpl. rewrite IH. reflexivity.
Qed.

Lemma preserves_ret {A} (P : S -> Prop) (a : A) : preserves (E:=E) P (mret a).
Proof. intros s Hs. exact Hs. Qed.

Lemma preserves_bind {A B} (P : S -> Prop) (c : Run S E A) (k : A -> Run S E B) :
  preserves P c -> (forall a, preserves P (k a)) -> preserves P (c ≫= k).
Proof.
  intros Hc Hk s Hs. rewrite Run_bind_run.
  specialize (Hc s Hs). unfold stateOf in *.
  destruct (c s) as [[[a|x] s1] e1]; simpl in *.
  - specialize (Hk a s1 Hc). destruct (k a s1) as [[r s2] e2]. exact Hk.
  - exact Hc.
Qed.

Lemma preserves_get {A} (P : S -> Prop) (k : S -> Run S E A) :
  (forall s0, preserves P (k s0)) -> preserves P (get ≫= k).
Proof. intros Hk. apply preserves_bind; [intros s Hs; exact Hs | exact Hk]. Qed.

Lemma preserves_throw {A} (P : S -> Prop) (e : Throwable) :
  preserves (E:=E) P (throw (A:=A) e).
Proof. intros s Hs. exact Hs. Qed.

Lemma preserves_emit (P : S -> Prop) (e : E) : preserves P (emit e).
Proof. intros s Hs. exact Hs. Qed.

Lemma preserves_modify (P : S -> Prop) (f : S -> S) :
  (forall s, P s -> P (f s)) -> preserves (E:=E) P (modify f).
Proof. intros Hf s Hs. exact (Hf s Hs). Qed.

Lemma preserves_each {A} (P : S -> Prop) (f : A -> Run S E unit) (l : list A) :
  (forall a, preserves P (f a)) -> preserves P (each f l).
Proof.
  intros Hf. induction l as [|a l IH]; simpl.
  - apply preserves_ret.
  - apply preserves_bind; [apply Hf | intros _; exact IH].
Qed.

Lemma preserves_void {A} (P : S -> Prop) (c : Run S E A) :
  preserves P c -> preserves P (void c).
Proof. intros Hc. apply preserves_bind; [exact Hc | intros a; apply preserves_ret]. Qed.

Lemma always_ret {A} (Q : E -> Prop) (a : A) : always (S:=S) Q (mret a).
Proof. intros s. constructor. Qed.

Lemma always_bind {A B} (Q : E -> Prop) (c : Run S E A) (k : A -> Run S E B) :
  always Q c -> (forall a, always Q (k a)) -> always Q (c ≫= k).
Proof.
  intros Hc Hk s. rewrite Run_bind_run.
  specialize (Hc s). unfold effectsOf in *.
  destruct (c s) as [[[a|x] s1] e1]; simpl in *.
  - specialize (Hk a s1). destruct (k a s1) as [[r s2] e2]. simpl in *.
    apply Forall_app. split; assumption.
  - exact Hc.
Qed.

Lemma always_get {A} (Q : E -> Prop) (k : S -> Run S E A) :
  (forall s0, always Q (k s0)) -> always Q (get ≫= k).
Proof. intros Hk. apply always_bind; [intros s; constructor | exact Hk]. Qed.

Lemma always_throw {A} (Q : E -> Prop) (e : Throwable) :
  always (S:=S) Q (throw (A:=A) e).
Proof. intros s. constructor. Qed.

Lemma always_emit (Q : E -> Prop) (e : E) : Q e -> always (S:=S) Q (emit e).
Proof. intros Hq s. repeat constructor. exact Hq. Qed.

Lemma always_modify (Q : E -> Prop) (f : S -> S) : always Q (modify f).
Proof. intros s. constructor. Qed.

Lemma always_each {A} (Q : E -> Prop) (f : A -> Run S E unit) (l : list A) :
  (forall a, always Q (f a)) -> always Q (each f l).
Proof.
  intros Hf. induction l as [|a l IH]; simpl.
  - apply always_ret.
  - apply always_bind; [apply Hf | intros _; exact IH].
Qed.

Lemma always_void {A} (Q : E -> Prop) (c : Run S E A) : always Q c -> always Q (void c).
Proof. intros Hc. apply always_bind; [exact Hc | intros a; apply always_ret]. Qed.
End Run.

(** ** Style.java *)

Section StyleCalls.
Import android.
Import android.Style.
Context `{NativeMap} `{MapLibreConstants}.

Lemma validated {A} (n : string) (k : Run t Effect A) (s : t) :
  (validateState n ≫= fun _ => k) s =
  if fullyLoaded s then k s else (Throw (IllegalStateException (stale n)), s, []).
Proof.
  unfold validateState. rewrite !Run_bind_run. unfold get. simpl.
  destruct (fullyLoaded s); simpl.
  - destruct (k s) as [[r s2] e2]. reflexivity.
  - reflexivity.
Qed.

Lemma void_validated {A} (n : string) (k : Run t Effect A) (s : t) :
  void (validateState n ≫= fun _ => k) s =
  if fullyLoaded s then void k s else (Throw (IllegalStateException (stale n)), s, []).
Proof.
  unfold void. rewrite Run_bind_run, validated.
  destruct (fullyLoaded s); reflexivity.
Qed.

(** X10.  A style that is not fully loaded rejects every method of
    [Method.t]: the call throws [IllegalStateException] with the message of
    [validateState], makes no call on the native map and leaves the style as
    it is.  The message names the method, but [addLayerAt] reports
    addLayerAbove and [addImages] reports addImage. *)
Theorem stale_style_rejects (m : Method.t) (s : t) :
  fullyLoaded s = false ->
  call m s = (Throw (IllegalStateException (stale (reported m))), s, []).
Proof.
  intros Hf.
  destruct m; cbn [call]; unfold getUrl, getUri, getJson, getSources, addSource, getSource,
    getSourceAs, removeSource, removeSourceObject, addLayer, addLayerBelow, addLayerAbove,
    addLayerAt, getLayer, getLayerAs, getLayers, removeLayer, removeLayerObject,
    removeLayerAt, addImage, addImageStretch, addImages, addImagesStretch, removeImage,
    getImage, setTransition, getTransition, getLight;
  first [rewrite validated | rewrite void_validated]; rewrite Hf; reflexivity.
Qed.

Lemma native_run (c : Call) (s : t) :
  native c s =
  ((invoke c (nativeMap s)).1, set_nativeMap (invoke c (nativeMap s)).2 s, [Native c]).
Proof. unfold native. destruct (invoke c (nativeMap s)) as [r p]. reflexivity. Qed.

Lemma preserves_validateState (P : t -> Prop) (n : string) : preserves P (validateState n).
Proof.
  apply preserves_get. intros s0. destruct (negb (fullyLoaded s0)).
  - apply preserves_throw.
  - apply preserves_ret.
Qed.

Lemma preserves_native (P : t -> Prop) (c : Call) :
  (forall p s, P s -> P (set_nativeMap p s)) -> preserves P (native c).
Proof.
  intros Hp s Hs. unfold native, stateOf.
  destruct (invoke c (nativeMap s)) as [r p]. simpl. exact (Hp p s Hs).
Qed.

Lemma always_validateState (Q : Effect -> Prop) (n : string) : always Q (validateState n).
Proof.
  intros s. unfold validateState. rewrite Run_get_bind.
  destruct (negb (fullyLoaded s)); constructor.
Qed.

Lemma always_native (Q : Effect -> Prop) (c : Call) : Q (Native c) -> always Q (native c).
Proof. intros Hq s. rewrite native_run. repeat constructor. exact Hq. Qed.

End StyleCalls.

(** Goals of the form [preserves P c] and [always Q c], taken apart along the
    structure of [c]. *)
Ltac run_keeps :=
  repeat match goal with
  | |- android.preserves _ (android.void _) => apply preserves_void
  | |- android.preserves _ (android.Style.validateState _) => apply preserves_validateState
  | |- android.preserves _ (mret _) => apply preserves_ret
  | |- android.preserves _ (android.emit _) => apply preserves_emit
  | |- android.preserves _ (android.throw _) => apply preserves_throw
  | |- android.preserves _ (android.get ≫= _) => apply preserves_get; intros ?
  | |- android.preserves _ (_ ≫= _) => apply preserves_bind; [|intros ?]
  | |- android.preserves _ (android.each _ _) => apply preserves_each; intros ?
  | |- android.preserves ?P (android.Style.native ?c) => apply (preserves_native P c)
  | |- android.preserves _ (android.modify _) => apply preserves_modify
  | |- android.preserves _ (if ?b then _ else _) => destruct b
  | |- android.preserves _ (match ?o with Some _ => _ | None => _ end) => destruct o
  end.

Ltac run_emits :=
  repeat match goal with
  | |- android.always _ (android.void _) => apply always_void
  | |- android.always _ (android.Style.validateState _) => apply always_validateState
  | |- android.always _ (mret _) => apply always_ret
  | |- android.always _ (android.emit _) => apply always_emit
  | |- android.always _ (android.throw _) => apply always_throw
  | |- android.always _ (android.get ≫= _) => apply always_get; intros ?
  | |- android.always _ (_ ≫= _) => apply always_bind; [|intros ?]
  | |- android.always _ (android.each _ _) => apply always_each; intros ?
  | |- android.always ?Q (android.Style.native ?c) => apply (always_native Q c)
  | |- android.always _ (android.modify _) => apply always_modify
  | |- android.always _ (if ?b then _ else _) => destruct b
  | |- android.always _ (match ?o with Some _ => _ | None => _ end) => destruct o
  end.

Section AndroidStyle.
Import android.
Import android.Style.
Context `{NativeMap} `{MapLibreConstants}.

(** What a property must survive to be kept by every public method: a change
    of the peer, a put into and a removal from the two caches. *)
Lemma call_preserves (P : t -> Prop) :
  (forall p s, P s -> P (set_nativeMap p s)) ->
  (forall source s, P s ->
     P (set_sources (<[Source.getId source := source]> (sources s)) s)) ->
  (forall id s, P s -> P (set_sources (delete id (sources s)) s)) ->
  (forall layer s, P s -> P (set_layers (<[Layer.getId layer := layer]> (layers s)) s)) ->
  (forall id s, P s -> P (set_layers (delete id (layers s)) s)) ->
  forall m, preserves P (call m).
Proof.
  intros Hn Hps Hds Hpl Hdl m.
  destruct m; cbn [call]; unfold getUrl, getUri, getJson, getSources, addSource, getSource,
    getSourceAs, removeSource, removeSourceObject, addLayer, addLayerBelow, addLayerAbove,
    addLayerAt, putLayer, getLayer, getLayerAs, getLayers, removeLayer, removeLayerObject,
    removeLayerAt, addImage, addImageStretch, addImages, addImagesStretch, removeImage,
    getImage, setTransition, getTransition, getLight;
  run_keeps; eauto.
Qed.

Lemma step_preserves (P : t -> Prop) :
  (forall p s, P s -> P (set_nativeMap p s)) ->
  (forall source s, P s ->
     P (set_sources (<[Source.getId source := source]> (sources s)) s)) ->
  (forall id s, P s -> P (set_sources (delete id (sources s)) s)) ->
  (forall layer s, P s -> P (set_layers (<[Layer.getId layer := layer]> (layers s)) s)) ->
  (forall id s, P s -> P (set_layers (delete id (layers s)) s)) ->
  (forall b s, P s -> P (set_fullyLoaded b s)) ->
  (forall s, P s -> P (set_sources ∅ s)) ->
  (forall s, P s -> P (set_layers ∅ s)) ->
  (forall s, P s -> P (set_images ∅ s)) ->
  forall x, preserves P (step x).
Proof.
  intros Hn Hps Hds Hpl Hdl Hf Hcs Hcl Hci x.
  assert (Hcall : forall m, preserves P (call m)) by (apply call_preserves; assumption).
  destruct x as [m| |]; cbn [step].
  - apply Hcall.
  - unfold clear. run_keeps; eauto.
  - unfold onDidFinishLoadingStyle. run_keeps; eauto.
    + apply (Hcall (Method.AddSource _)).
    + match goal with w : LayerWrapper.t |- _ => destruct w end; cbn [addWrapped].
      * apply (Hcall (Method.AddLayerBelow _ _)).
      * apply (Hcall (Method.AddLayerAt _ _)).
      * apply (Hcall (Method.AddLayerAbove _ _)).
      * apply (Hcall (Method.AddLayerBelow _ _)).
    + apply (Hcall (Method.AddImage _ _ _)).
    + apply (Hcall (Method.SetTransition _)).
Qed.

Lemma run_preserves (P : t -> Prop) (xs : list Step) (s : t) :
  (forall x, preserves P (step x)) -> P s -> P (run xs s).
Proof.
  intros Hx. revert s. induction xs as [|x xs IH]; intros s Hs; simpl.
  - exact Hs.
  - apply IH. apply Hx. exact Hs.
Qed.

Lemma keyed_insert {V} (getId : V -> string) (m : gmap string V) (v : V) :
  (forall id x, m !! id = Some x -> getId x = id) ->
  forall id x, <[getId v := v]> m !! id = Some x -> getId x = id.
Proof.
  intros Hm id x. destruct (decide (getId v = id)) as [<-|Hne].
  - rewrite lookup_insert_eq. intros [= <-]. reflexivity.
  - rewrite lookup_insert_ne by exact Hne. apply Hm.
Qed.

Lemma keyed_delete {V} (getId : V -> string) (m : gmap string V) (i : string) :
  (forall id x, m !! id = Some x -> getId x = id) ->
  forall id x, delete i m !! id = Some x -> getId x = id.
Proof.
  intros Hm id x. destruct (decide (i = id)) as [<-|Hne].
  - rewrite lookup_delete_eq. discriminate.
  - rewrite lookup_delete_ne by exact Hne. apply Hm.
Qed.

Lemma keyed_empty {V} (getId : V -> string) :
  forall id x, (∅ : gmap string V) !! id = Some x -> getId x = id.
Proof. intros id x. rewrite lookup_empty. discriminate. Qed.

(** The invariant of a style in use: every cached object sits under its own
    id, and the image cache is empty. *)
Lemma run_invariant (xs : list Step) (b : Builder.t) (p : peer) :
  keyed (run xs (new b p)) /\ images (run xs (new b p)) = ∅.
Proof.
  apply (run_preserves (fun s => keyed s /\ images s = ∅)).
  - apply step_preserves; unfold keyed; simpl.
    + intros _ s Hs. exact Hs.
    + intros source s [[Hs Hl] Hi]. repeat split; [apply keyed_insert| |]; assumption.
    + intros id s [[Hs Hl] Hi]. repeat split; [apply keyed_delete| |]; assumption.
    + intros layer s [[Hs Hl] Hi]. repeat split; [|apply keyed_insert|]; assumption.
    + intros id s [[Hs Hl] Hi]. repeat split; [|apply keyed_delete|]; assumption.
    + intros _ s Hs. exact Hs.
    + intros s [[Hs Hl] Hi]. repeat split; [apply keyed_empty| |]; assumption.
    + intros s [[Hs Hl] Hi]. repeat split; [|apply keyed_empty|]; assumption.
    + intros s [[Hs Hl] Hi]. repeat split; assumption.
  - unfold keyed, new. simpl. repeat split; apply keyed_empty.
Qed.

(** X11.  However a style is used after it was built, every cached source and
    every cached layer sits under its own id, and the image cache is empty:
    no method puts an image into it. *)
Theorem cache_keyed_by_id (xs : list Step) (b : Builder.t) (p : peer) :
  let s := run xs (new b p) in
  (forall id source, sources s !! id = Some source -> Source.getId source = id) /\
  (forall id layer, layers s !! id = Some layer -> Layer.getId layer = id) /\
  images s = ∅.
Proof.
  intros s. destruct (run_invariant xs b p) as [[Hs Hl] Hi]. repeat split; assumption.
Qed.

(** X12.  After [addSource(source)] returned, [getSource] of the source's id
    gives that very source from the cache, without a call on the native
    map. *)
Theorem addSource_then_getSource (source : Source.t) (s s1 : t) (e : list Effect) :
  addSource source s = (Ok tt, s1, e) ->
  getSource (Source.getId source) s1 = (Ok (Some source), s1, []).
Proof.
  unfold addSource, getSource. rewrite !validated.
  destruct (fullyLoaded s) eqn:Hf; [|discriminate].
  rewrite Run_bind_run, native_run.
  destruct (invoke (AddSource source) (nativeMap s)) as [[[]|x] p]; simpl; [|discriminate].
  intros [= <- <-]. simpl. rewrite Hf, Run_bind_run. simpl.
  rewrite lookup_insert_eq. reflexivity.
Qed.

(** X13.  [removeSource(id)] drops the cached source only when the native map
    reports the removal: after a refusal [getSource(id)] still gives the
    cached source without asking the native map; after a removal, or without
    a cached source, it gives what the native map answers. *)
Theorem removeSource_then_getSource (id : string) (s s1 : t) (b : bool) (e : list Effect) :
  removeSource id s = (Ok b, s1, e) ->
  getSource id s1 =
  match (if b then None else sources s !! id) with
  | Some source => (Ok (Some source), s1, [])
  | None => native (GetSource id) s1
  end.
Proof.
  unfold removeSource, getSource. rewrite !validated.
  destruct (fullyLoaded s) eqn:Hf; [|discriminate].
  rewrite Run_bind_run, native_run.
  destruct (invoke (RemoveSourceId id) (nativeMap s)) as [[[]|x] p]; simpl; try discriminate.
  - intros [= <- <- <-]. simpl. rewrite Hf, Run_bind_run. simpl.
    rewrite lookup_delete_eq.
    destruct (native (GetSource id) _) as [[r s2] e2]. reflexivity.
  - intros [= <- <- <-]. simpl. rewrite Hf, Run_bind_run. simpl.
    destruct (sources s !! id) as [source|]; [reflexivity|].
    destruct (native (GetSource id) _) as [[r s2] e2]. reflexivity.
Qed.

(** X15.  [removeLayer(id)] drops the cached layer before it asks the native
    map: whatever the native map returns or throws, the next [getLayer(id)]
    gives what the native map answers. *)
Theorem removeLayer_forgets (id : string) (s : t) :
  fullyLoaded s = true ->
  getLayer id (stateOf (removeLayer id s)) =
  native (GetLayer id) (stateOf (removeLayer id s)).
Proof.
  intros Hf. unfold removeLayer, getLayer. rewrite !validated, Hf.
  rewrite Run_bind_run. simpl. rewrite native_run. simpl.
  rewrite Hf, Run_bind_run. simpl. rewrite lookup_delete_eq.
  destruct (native (GetLayer id) _) as [[r s2] e2]. reflexivity.
Qed.

(** X16.  [removeLayerAt(index)] never touches the cache: a layer cached under
    an id is still what [getLayer(id)] gives afterwards, without a call on the
    native map, whatever layer the native map removed. *)
Theorem removeLayerAt_keeps_cache (index : Z) (id : string) (layer : Layer.t) (s : t) :
  fullyLoaded s = true ->
  layers s !! id = Some layer ->
  getLayer id (stateOf (removeLayerAt index s)) =
  (Ok (Some layer), stateOf (removeLayerAt index s), []).
Proof.
  intros Hf Hl. unfold removeLayerAt, getLayer. rewrite !validated, Hf.
  rewrite native_run. simpl. rewrite Hf, Run_bind_run. simpl. rewrite Hl. reflexivity.
Qed.



(** X14.  After [addLayer], [addLayerBelow], [addLayerAbove] or [addLayerAt]
    returned, [getLayer] of the layer's id gives that very layer from the
    cache, without a call on the native map. *)
Theorem addLayer_then_getLayer (m : Method.t) (layer : Layer.t) (s s1 : t) (e : list Effect) :
  addsLayer m = Some layer ->
  call m s = (Ok tt, s1, e) ->
  getLayer (Layer.getId layer) s1 = (Ok (Some layer), s1, []).
Proof.
  intros Hm.
  destruct m; try discriminate; injection Hm as ->; cbn [call];
    unfold addLayer, addLayerBelow, addLayerAbove, addLayerAt, putLayer, getLayer;
    rewrite !validated;
    (destruct (fullyLoaded s) eqn:Hf; [|discriminate]);
    rewrite Run_bind_run, native_run;
    match goal with |- context [invoke ?c ?p] => destruct (invoke c p) as [[[]|x] p'] end;
    simpl; try discriminate;
    intros [= <- <-]; simpl; rewrite Hf, Run_bind_run; simpl;
    rewrite lookup_insert_eq; reflexivity.
Qed.

Lemma clear_run (s : t) :
  images s = ∅ ->
  clear s =
  (Ok tt, new (builder s) (nativeMap s),
   (LayerSetDetached <$> (map_to_list (layers s)).*2)
   ++ (SourceSetDetached <$> (map_to_list (sources s)).*2)).
Proof.
  intros Hi. unfold clear.
  rewrite Run_bind_run. simpl. rewrite Run_bind_run. simpl.
  rewrite Run_bind_run. rewrite Run_each_emit.
  rewrite Run_bind_run. rewrite Run_each_emit.
  rewrite Run_bind_run. simpl. rewrite Hi, map_to_list_empty. simpl.
  rewrite app_nil_r. reflexivity.
Qed.

(** X17.  [clear()] on a style in use returns it to the state its constructor
    leaves (empty caches, not fully loaded), detaches every cached layer and
    every cached source, and makes no call on the native map. *)
Theorem clear_detaches_cached (xs : list Step) (b : Builder.t) (p : peer) :
  let s := run xs (new b p) in
  clear s = (Ok tt, new (builder s) (nativeMap s), effectsOf (clear s)) /\
  (forall id layer, layers s !! id = Some layer ->
     LayerSetDetached layer ∈ effectsOf (clear s)) /\
  (forall id source, sources s !! id = Some source ->
     SourceSetDetached source ∈ effectsOf (clear s)) /\
  Forall (fun e => isNative e = false) (effectsOf (clear s)).
Proof.
  intros s. destruct (run_invariant xs b p) as [_ Hi]. fold s in Hi.
  rewrite (clear_run s Hi). unfold effectsOf. simpl.
  split; [reflexivity|]. split; [|split].
  - intros id layer Hl. apply elem_of_app. left.
    apply list_elem_of_fmap. exists layer. split; [reflexivity|].
    apply list_elem_of_fmap. exists (id, layer). split; [reflexivity|].
    apply elem_of_map_to_list. exact Hl.
  - intros id source Hl. apply elem_of_app. right.
    apply list_elem_of_fmap. exists source. split; [reflexivity|].
    apply list_elem_of_fmap. exists (id, source). split; [reflexivity|].
    apply elem_of_map_to_list. exact Hl.
  - apply Forall_app. split; apply Forall_fmap, Forall_forall; intros; reflexivity.
Qed.

Lemma call_keeps_loaded (m : Method.t) : preserves loaded (call m).
Proof. apply call_preserves; unfold loaded; simpl; intros; assumption. Qed.

Lemma addWrapped_call (w : LayerWrapper.t) :
  addWrapped w =
  call match w with
       | LayerWrapper.At layer index => Method.AddLayerAt layer index
       | LayerWrapper.Above layer above => Method.AddLayerAbove layer above
       | LayerWrapper.Below layer below => Method.AddLayerBelow layer below
       | LayerWrapper.Plain layer => Method.AddLayerBelow layer LAYER_ID_ANNOTATIONS
       end.
Proof. destruct w; reflexivity. Qed.

(** The body of [onDidFinishLoadingStyle] after the flag is set. *)
Lemma applyBuilder_keeps_loaded (b : Builder.t) :
  preserves loaded
    (each addSource (Builder.sources b) ≫= fun _ =>
     each addWrapped (Builder.layers b) ≫= fun _ =>
     each (fun image => addImage (ImageWrapper.id image) (ImageWrapper.bitmap image)
                          (ImageWrapper.sdf image)) (Builder.images b) ≫= fun _ =>
     match Builder.transitionOptions b with
     | Some o => setTransition o
     | None => mret tt
     end).
Proof.
  run_keeps.
  - apply (call_keeps_loaded (Method.AddSource _)).
  - rewrite addWrapped_call. apply call_keeps_loaded.
  - apply (call_keeps_loaded (Method.AddImage _ _ _)).
  - apply (call_keeps_loaded (Method.SetTransition _)).
Qed.

(** X18.  After [onDidFinishLoadingStyle()] the style is fully loaded, also
    when a call on the native map threw while the builder was applied, and a
    second [onDidFinishLoadingStyle()] does nothing: what was left of the
    builder is not applied later. *)
Theorem onDidFinishLoadingStyle_once (s : t) :
  let s1 := stateOf (onDidFinishLoadingStyle s) in
  fullyLoaded s1 = true /\ onDidFinishLoadingStyle s1 = (Ok tt, s1, []).
Proof.
  intros s1.
  assert (Hl : fullyLoaded s1 = true).
  { subst s1. unfold onDidFinishLoadingStyle. rewrite Run_get_bind.
    destruct (fullyLoaded s) eqn:Hf; cbn [negb].
    - exact Hf.
    - rewrite Run_stateOf_modify_bind.
      apply (applyBuilder_keeps_loaded (builder s)). reflexivity. }
  split; [exact Hl|].
  unfold onDidFinishLoadingStyle at 1. rewrite Run_get_bind, Hl. reflexivity.
Qed.



(** A loop whose every turn makes one call on the native map and returns. *)
Lemma each_ok {A} (f : A -> Run t Effect unit) (c : A -> Call)
    (u : A -> gmap string Source.t * gmap string Layer.t * gmap string Bitmap.t
              * Builder.t * bool ->
         gmap string Source.t * gmap string Layer.t * gmap string Bitmap.t
              * Builder.t * bool)
    (l : list A) :
  (forall a s, loaded s ->
     exists s', f a s = (Ok tt, s', [Native (c a)]) /\ fields s' = u a (fields s) /\
                loaded s') ->
  forall s, loaded s ->
    exists s', each f l s = (Ok tt, s', Native <$> (c <$> l)) /\
               fields s' = fold_left (fun r a => u a r) l (fields s) /\ loaded s'.
Proof.
  intros Hf. induction l as [|a l IH]; intros s Hs; simpl.
  - exists s. repeat split. assumption.
  - destruct (Hf a s Hs) as (s1 & E1 & F1 & L1).
    destruct (IH s1 L1) as (s2 & E2 & F2 & L2).
    exists s2. rewrite Run_bind_run, E1, E2. simpl. rewrite F2, F1. repeat split. assumption.
Qed.

Lemma native_ok (c : Call) (s : t) :
  neverThrows ->
  exists r p, native c s = (Ok r, set_nativeMap p s, [Native c]).
Proof.
  intros Hn. destruct (Hn c (nativeMap s)) as (r & p & E).
  exists r, p. rewrite native_run, E. reflexivity.
Qed.

Lemma addSource_ok (source : Source.t) (s : t) :
  neverThrows -> loaded s ->
  exists s', addSource source s = (Ok tt, s', [Native (AddSource source)]) /\
    fields s' =
      (let '(so, la, im, b, f) := fields s in (<[Source.getId source := source]> so, la, im, b, f)) /\
    loaded s'.
Proof.
  intros Hn Hs. unfold addSource. rewrite validated, Hs, Run_bind_run.
  destruct (native_ok (AddSource source) s Hn) as ([] & p & ->). simpl.
  eexists. split; [reflexivity|]. split; [reflexivity|]. exact Hs.
Qed.

Lemma addWrapped_ok (w : LayerWrapper.t) (s : t) :
  neverThrows -> loaded s ->
  exists s', addWrapped w s = (Ok tt, s', [Native (wrapperCall w)]) /\
    fields s' =
      (let '(so, la, im, b, f) := fields s in
       (so, <[Layer.getId (LayerWrapper.getLayer w) := LayerWrapper.getLayer w]> la, im, b, f)) /\
    loaded s'.
Proof.
  intros Hn Hs.
  destruct w; cbn [addWrapped wrapperCall];
    unfold addLayerBelow, addLayerAbove, addLayerAt, putLayer;
    rewrite validated, Hs, Run_bind_run;
    match goal with |- context [native ?c s] =>
      destruct (native_ok c s Hn) as ([] & p & ->) end;
    simpl; (eexists; split; [reflexivity|]; split; [reflexivity|]; exact Hs).
Qed.

Lemma addImage_ok (image : ImageWrapper.t) (s : t) :
  neverThrows -> loaded s ->
  exists s', addImage (ImageWrapper.id image) (ImageWrapper.bitmap image)
               (ImageWrapper.sdf image) s
             = (Ok tt, s', [Native (AddImages [bare image])]) /\
    fields s' = fields s /\ loaded s'.
Proof.
  intros Hn Hs. unfold addImage. rewrite validated, Hs.
  match goal with |- context [native ?c s] =>
    destruct (native_ok c s Hn) as ([] & p & ->) end.
  eexists. split; [reflexivity|]. split; [reflexivity|]. exact Hs.
Qed.

Lemma setTransition_ok (o : TransitionOptions.t) (s : t) :
  neverThrows -> loaded s ->
  exists s', setTransition o s = (Ok tt, s', [Native (SetTransitionOptions o)]) /\
    fields s' = fields s /\ loaded s'.
Proof.
  intros Hn Hs. unfold setTransition. rewrite validated, Hs.
  destruct (native_ok (SetTransitionOptions o) s Hn) as ([] & p & ->).
  eexists. split; [reflexivity|]. split; [reflexivity|]. exact Hs.
Qed.

Lemma fold_sources (l : list Source.t) (so : gmap string Source.t)
    (la : gmap string Layer.t) (im : gmap string Bitmap.t) (b : Builder.t) (f : bool) :
  fold_left (fun (r : gmap string Source.t * gmap string Layer.t * gmap string Bitmap.t * Builder.t * bool) a => let '(so, la, im, b, f) := r in
                        (<[Source.getId a := a]> so, la, im, b, f)) l (so, la, im, b, f)
  = (putAll Source.getId l so, la, im, b, f).
Proof.
  revert so. induction l as [|a l IH]; intros so; simpl; [reflexivity|]. apply IH.
Qed.

Lemma fold_layers (l : list LayerWrapper.t) (so : gmap string Source.t)
    (la : gmap string Layer.t) (im : gmap string Bitmap.t) (b : Builder.t) (f : bool) :
  fold_left (fun (r : gmap string Source.t * gmap string Layer.t * gmap string Bitmap.t * Builder.t * bool) w => let '(so, la, im, b, f) := r in
     (so, <[Layer.getId (LayerWrapper.getLayer w) := LayerWrapper.getLayer w]> la, im, b, f))
    l (so, la, im, b, f)
  = (so, putAll Layer.getId (LayerWrapper.getLayer <$> l) la, im, b, f).
Proof.
  revert la. induction l as [|a l IH]; intros la; simpl; [reflexivity|]. apply IH.
Qed.

Lemma fold_same {A R} (l : list A) (r : R) : fold_left (fun r _ => r) l r = r.
Proof. induction l; simpl; auto. Qed.

(** X19.  On a style that is not fully loaded, with a native map that does not
    throw, [onDidFinishLoadingStyle()] applies the builder in this order: its
    sources, its layers (a layer without a position goes below the
    annotations layer), its images, its transition; afterwards the caches
    hold the sources and layers of the builder, a later one replacing an
    earlier one of the same id. *)
Theorem onDidFinishLoadingStyle_applies_builder (s : t) :
  neverThrows ->
  fullyLoaded s = false ->
  let r := onDidFinishLoadingStyle s in
  resultOf r = Ok tt /\
  effectsOf r = Native <$> builderCalls (builder s) /\
  sources (stateOf r) = putAll Source.getId (Builder.sources (builder s)) (sources s) /\
  layers (stateOf r) =
    putAll Layer.getId (LayerWrapper.getLayer <$> Builder.layers (builder s)) (layers s) /\
  fullyLoaded (stateOf r) = true.
Proof.
  intros Hn Hf r. subst r. unfold onDidFinishLoadingStyle.
  rewrite Run_get_bind, Hf. cbn [negb]. rewrite Run_bind_run. cbn [modify].
  set (s0 := set_fullyLoaded true s).
  assert (L0 : loaded s0) by reflexivity.
  destruct (each_ok addSource AddSource
              (fun a (r : gmap string Source.t * gmap string Layer.t * gmap string Bitmap.t * Builder.t * bool) => let '(so, la, im, b, f) := r in
                 (<[Source.getId a := a]> so, la, im, b, f))
              (Builder.sources (builder s))
              (fun a s => addSource_ok a s Hn) s0 L0) as (s1 & E1 & F1 & L1).
  destruct (each_ok addWrapped wrapperCall
              (fun w (r : gmap string Source.t * gmap string Layer.t * gmap string Bitmap.t * Builder.t * bool) => let '(so, la, im, b, f) := r in
                 (so, <[Layer.getId (LayerWrapper.getLayer w) := LayerWrapper.getLayer w]> la,
                  im, b, f))
              (Builder.layers (builder s))
              (fun a s => addWrapped_ok a s Hn) s1 L1) as (s2 & E2 & F2 & L2).
  destruct (each_ok (fun image => addImage (ImageWrapper.id image)
                 (ImageWrapper.bitmap image) (ImageWrapper.sdf image))
              (fun image => AddImages [bare image]) (fun _ r => r)
              (Builder.images (builder s))
              (fun a s => addImage_ok a s Hn) s2 L2) as (s3 & E3 & F3 & L3).
  rewrite fold_same in F3.
  rewrite Run_bind_run, E1, Run_bind_run, E2, Run_bind_run, E3.
  assert (F : fields s3 =
    (putAll Source.getId (Builder.sources (builder s)) (sources s),
     putAll Layer.getId (LayerWrapper.getLayer <$> Builder.layers (builder s)) (layers s),
     images s, builder s, true)).
  { rewrite F3, F2, F1. unfold fields at 1. subst s0. simpl.
    rewrite fold_sources, fold_layers. reflexivity. }
  unfold builderCalls.
  destruct (Builder.transitionOptions (builder s)) as [o|].
  - destruct (setTransition_ok o s3 Hn L3) as (s4 & E4 & F4 & L4).
    rewrite E4. unfold resultOf, effectsOf, stateOf. simpl.
    rewrite F in F4. injection F4 as Fs Fl _ _ _.
    rewrite !fmap_app. simpl. repeat split; assumption.
  - unfold resultOf, effectsOf, stateOf. simpl.
    injection F as Fs Fl _ _ _.
    rewrite !fmap_app, !app_nil_r. simpl. repeat split; assumption.
Qed.

(** X20.  [onDidFinishLoadingStyle()] hands the images of the builder to the
    native map without stretches and without content, also those that
    [withImage(id, image, sdf, stretchX, stretchY, content)] stored with
    them. *)
Theorem builder_stretches_dropped (s : t) :
  Forall noStretch (effectsOf (onDidFinishLoadingStyle s)).
Proof.
  unfold onDidFinishLoadingStyle. rewrite Run_get_bind.
  destruct (negb (fullyLoaded s)); [|constructor].
  remember (builder s) as b eqn:Eb. clear Eb. revert s.
  change (always noStretch
    (modify (set_fullyLoaded true) ≫= fun _ =>
     each addSource (Builder.sources b) ≫= fun _ =>
     each addWrapped (Builder.layers b) ≫= fun _ =>
     each (fun image => addImage (ImageWrapper.id image) (ImageWrapper.bitmap image)
                          (ImageWrapper.sdf image)) (Builder.images b) ≫= fun _ =>
     match Builder.transitionOptions b with
     | Some o => setTransition o
     | None => mret tt
     end)).
  apply always_bind; [apply always_modify|intros _].
  apply always_bind; [|intros _].
  { apply always_each. intros a. unfold addSource.
    apply always_bind; [apply always_validateState|intros _].
    apply always_bind; [apply (always_native _ (AddSource a)); exact I|intros _].
    apply always_modify. }
  apply always_bind; [|intros _].
  { apply always_each. intros w.
    destruct w; cbn [addWrapped]; unfold addLayerBelow, addLayerAbove, addLayerAt, putLayer;
      (apply always_bind; [apply always_validateState|intros _]);
      (apply always_bind; [|intros _; apply always_modify]).
    - apply (always_native _ (AddLayerBelow _ _)); exact I.
    - apply (always_native _ (AddLayerAt _ _)); exact I.
    - apply (always_native _ (AddLayerAbove _ _)); exact I.
    - apply (always_native _ (AddLayerBelow _ _)); exact I. }
  apply always_bind; [|intros _].
  { apply always_each. intros image. unfold addImage.
    apply always_bind; [apply always_validateState|intros _].
    apply (always_native _ (AddImages _)). simpl.
    constructor; [|constructor]. repeat split. }
  destruct (Builder.transitionOptions b) as [o|]; [|apply always_ret].
  unfold setTransition.
  apply always_bind; [apply always_validateState|intros _].
  apply (always_native _ (SetTransitionOptions o)); exact I.
Qed.

End AndroidStyle.

(** ** The stretch arrays of [toImage] *)

Section ToImage.
Import android.

Lemma pairs_length (l : list ImageStretches.t) : List.length (pairs l) = (List.length l * 2)%nat.
Proof. induction l as [|a l IH]; simpl; [reflexivity|]. rewrite IH. reflexivity. Qed.

Lemma stretchArray_prefix (stretch : list ImageStretches.t) (k : nat) :
  (k <= List.length stretch)%nat ->
  fold_left
    (fun array i =>
       match stretch !! i with
       | Some s =>
           <[(i * 2 + 1)%nat := ImageStretches.getSecond s]>
             (<[(i * 2)%nat := ImageStretches.getFirst s]> array)
       | None => array
       end)
    (seq 0 k)
    (replicate (List.length stretch * 2) 0)
  = pairs (take k stretch) ++ replicate ((List.length stretch - k) * 2) 0.
Proof.
  induction k as [|k IH]; intros Hk.
  - simpl. rewrite Nat.sub_0_r. reflexivity.
  - rewrite seq_S, fold_left_app, IH by lia. simpl.
    destruct (lookup_lt_is_Some_2 stretch k ltac:(lia)) as [s Hs].
    rewrite Hs. rewrite (take_S_r _ _ _ Hs).
    assert (Hp : pairs (take k stretch ++ [s]) = pairs (take k stretch) ++ [ImageStretches.getFirst s; ImageStretches.getSecond s]).
    { unfold pairs. rewrite flat_map_app. reflexivity. }
    rewrite Hp.
    assert (Hlen : List.length (pairs (take k stretch)) = (k * 2)%nat).
    { rewrite pairs_length, length_take. lia. }
    replace ((List.length stretch - k) * 2)%nat
      with (S (S ((List.length stretch - S k) * 2))) by lia.
    simpl.
    rewrite (insert_app_r_alt _ _ (k * 2)) by lia.
    rewrite Hlen, Nat.sub_diag. simpl.
    rewrite (insert_app_r_alt _ _ (k * 2 + 1)) by lia.
    rewrite Hlen. replace (k * 2 + 1 - k * 2)%nat with 1%nat by lia. simpl.
    rewrite <- app_assoc. reflexivity.
Qed.

Lemma stretchArray_pairs (stretch : list ImageStretches.t) :
  stretchArray stretch = pairs stretch.
Proof.
  unfold stretchArray. rewrite stretchArray_prefix by lia.
  rewrite firstn_all, Nat.sub_diag. simpl. apply app_nil_r.
Qed.

(** X21.  [Style.toImage] in closed form.  When both stretch lists are given,
    each array holds the first and the second of every stretch in order, and
    the content is carried over; when one of them is missing, the image has
    no stretch array and its content is dropped as well. *)
Theorem toImage_pairs (imageWrapper : ImageWrapper.t) :
  toImage imageWrapper =
  match ImageWrapper.stretchX imageWrapper, ImageWrapper.stretchY imageWrapper with
  | Some stretchX, Some stretchY =>
      Image.mk (ImageWrapper.bitmap imageWrapper) (ImageWrapper.id imageWrapper)
        (ImageWrapper.sdf imageWrapper) (Some (pairs stretchX)) (Some (pairs stretchY))
        (ImageContent.getContentArray <$> ImageWrapper.content imageWrapper)
  | _, _ => Style.bare imageWrapper
  end.
Proof.
  unfold toImage, Style.bare.
  destruct (ImageWrapper.stretchX imageWrapper) as [x|], (ImageWrapper.stretchY imageWrapper) as [y|];
    rewrite ?stretchArray_pairs; reflexivity.
Qed.
End ToImage.

(** ** The images of [addImages] *)

Section StyleImages.
Import android.
Import android.Style.
Context `{NativeMap} `{MapLibreConstants}.

Lemma HashMap_get_entry {V} (m : HashMap.t V) (i : nat) (entry : string * V) :
  HashMap.distinct m -> m !! i = Some entry -> HashMap.get m entry.1 = Some entry.2.
Proof.
  unfold HashMap.distinct, HashMap.keySet. revert i.
  induction m as [|e m IH]; intros i Hd Hi; [discriminate|].
  cbn [fmap list_fmap] in Hd. apply NoDup_cons in Hd as [Hnot Hd].
  destruct i as [|i]; cbn in Hi.
  - injection Hi as ->. cbn. now rewrite String.eqb_refl.
  - cbn. destruct (String.eqb_spec e.1 entry.1) as [Heq|_]; [|now apply (IH i)].
    destruct Hnot. rewrite Heq. apply list_elem_of_fmap. exists entry.
    split; [reflexivity|]. eapply list_elem_of_lookup_2, Hi.
Qed.

(** A loop over the indices of a list that finds a value at every index
    builds the list of these values. *)
Lemma omap_indices {A B} (f : nat -> option B) (g : A -> B) (l : list A) (j : nat) :
  (forall i x, l !! i = Some x -> f (j + i)%nat = Some (g x)) ->
  omap f (seq j (List.length l)) = g <$> l.
Proof.
  revert j. induction l as [|x l IH]; intros j Hf; [reflexivity|].
  cbn [List.length seq omap list_omap fmap list_fmap].
  pose proof (Hf 0%nat x eq_refl) as Hx. rewrite Nat.add_0_r in Hx. rewrite Hx.
  f_equal. apply IH. intros i y Hi. specialize (Hf (S i) y Hi).
  now rewrite Nat.add_succ_r in Hf.
Qed.

Lemma convertToImageArray_entries (m : HashMap.t Bitmap.t) (sdf : bool) :
  HashMap.distinct m ->
  ImageWrapper.convertToImageArray m sdf
  = (fun entry => ImageWrapper.mk3 entry.1 entry.2 sdf) <$> m.
Proof.
  intros Hd. unfold ImageWrapper.convertToImageArray, HashMap.size. cbv zeta.
  apply omap_indices. intros i entry Hi. cbn [Nat.add].
  unfold HashMap.keySet. rewrite list_lookup_fmap, Hi. cbn.
  now rewrite (HashMap_get_entry m i entry Hd Hi).
Qed.

(** X26.  [addImages(images, sdf)] on a fully loaded style makes one call on
    the native map, with one image per entry of the map, in the order in
    which the key set of the map iterates: the image carries the entry's
    bitmap under the entry's key, the given sdf flag, and no stretch. *)
Theorem addImages_one_per_entry (images_ : HashMap.t Bitmap.t) (sdf : bool) (s : t) :
  fullyLoaded s = true ->
  HashMap.distinct images_ ->
  effectsOf (addImages images_ sdf s)
  = [Native (AddImages ((fun entry => Image.mk entry.2 entry.1 sdf None None None)
                          <$> images_))].
Proof.
  intros Hf Hd. unfold addImages. rewrite validated, Hf, native_run.
  unfold effectsOf. cbn [snd]. rewrite (convertToImageArray_entries _ _ Hd).
  rewrite <- list_fmap_compose. reflexivity.
Qed.
End StyleImages.

(** ** MapView.java *)

Section AndroidMapView.
Import android.
Import android.MapView.

Lemma view_run_snoc (cs : list Call) (c : Call) (v : t) :
  run (cs ++ [c]) v =
  (stateOf (call c (run cs v).1), (run cs v).2 ++ effectsOf (call c (run cs v).1)).
Proof. unfold run. rewrite fold_left_app. reflexivity. Qed.

Lemma effects_count_app (p : Effect -> bool) (a b : list Effect) :
  count p (a ++ b) = (count p a + count p b)%nat.
Proof. unfold count. rewrite List.filter_app, List.length_app. reflexivity. Qed.

Lemma effects_count_none (p : Effect -> bool) (es : list Effect) :
  Forall (fun e => p e = false) es -> count p es = 0%nat.
Proof.
  unfold count. induction 1 as [|e es He _ IH]; simpl; [reflexivity|].
  rewrite He. exact IH.
Qed.

(** Calls other than [onStart] and [onStop] neither activate nor deactivate,
    and leave [isStarted] alone. *)
Lemma call_quiet (c : Call) :
  c <> OnStart -> c <> OnStop ->
  always quiet (call c) /\ forall b, preserves (fun v => isStarted v = b) (call c).
Proof.
  intros H1 H2.
  destruct c; try congruence; cbn [call];
    unfold onCreate, onResume, onPause, onDestroy, onLowMemory, onSurfaceCreatedRun,
      getMapAsync, setMapLibreMap, queueEvent, setMaximumFps, mapCallbackOn, onSizeChanged,
      initialRenderOnDidFinishRenderingFrame, initializeMap, initialised, onMapReady,
      onMapReadyTurn, addOnMapReadyCallback, mapCallbackOnDestroy, initialRenderOnDestroy, on;
    (split; [run_emits | intros b; run_keeps]);
    try (repeat split; reflexivity); try (simpl; intros; assumption).
  destruct event; repeat split; reflexivity.
Qed.

Lemma onStart_balance (v : t) :
  let r := onStart v in
  (count isActivate (effectsOf r) + started v
   = count isDeactivate (effectsOf r) + started (stateOf r))%nat /\
  (count isFileSourceActivate (effectsOf r) + started v
   = count isFileSourceDeactivate (effectsOf r) + started (stateOf r))%nat.
Proof.
  destruct v as [native map renderer attribution compass gestures keys saved gone isStarted q n].
  destruct isStarted, map, renderer; split; reflexivity.
Qed.

Lemma onStop_balance (v : t) :
  let r := onStop v in
  (count isActivate (effectsOf r) + started v
   = count isDeactivate (effectsOf r) + started (stateOf r))%nat /\
  (count isFileSourceActivate (effectsOf r) + started v
   = count isFileSourceDeactivate (effectsOf r) + started (stateOf r))%nat.
Proof.
  destruct v as [native map renderer attribution compass gestures keys saved gone isStarted q n].
  destruct isStarted, attribution, map, gestures, renderer; split; reflexivity.
Qed.

Lemma call_balance (c : Call) (v : t) :
  let r := call c v in
  (count isActivate (effectsOf r) + started v
   = count isDeactivate (effectsOf r) + started (stateOf r))%nat /\
  (count isFileSourceActivate (effectsOf r) + started v
   = count isFileSourceDeactivate (effectsOf r) + started (stateOf r))%nat.
Proof.
  assert (Hc : c = OnStart \/ c = OnStop \/ (c <> OnStart /\ c <> OnStop))
    by (destruct c; auto; right; right; split; discriminate).
  destruct Hc as [->|[->|[H1 H2]]]; [apply onStart_balance|apply onStop_balance|].
  destruct (call_quiet c H1 H2) as [Hq Hp].
  intros r. subst r.
  assert (Hs : started (stateOf (call c v)) = started v).
  { unfold started. rewrite (Hp (isStarted v) v eq_refl). reflexivity. }
  rewrite Hs.
  rewrite !effects_count_none; [split; reflexivity| | | |];
    (eapply Forall_impl; [apply Hq|]); intros e (Ha & Hd & Hfa & Hfd); assumption.
Qed.

(** X22.  Over any run of calls on a view, activations and deactivations of
    the connectivity receiver and of the file source are balanced: the
    activations exceed the deactivations by one while the view is started
    and by nothing while it is stopped, counted from a stopped view. *)
Theorem start_stop_balanced (cs : list Call) (v : t) :
  (count isActivate (run cs v).2 + started v
   = count isDeactivate (run cs v).2 + started (run cs v).1)%nat /\
  (count isFileSourceActivate (run cs v).2 + started v
   = count isFileSourceDeactivate (run cs v).2 + started (run cs v).1)%nat.
Proof.
  induction cs as [|c cs IH] using rev_ind.
  - split; reflexivity.
  - rewrite view_run_snoc. cbn [fst snd]. rewrite !effects_count_app.
    destruct (call_balance c (run cs v).1) as [Ha Hf]. cbn zeta in Ha, Hf.
    destruct IH as [IHa IHf]. split; lia.
Qed.

(** *** The callbacks of [getMapAsync] *)

Lemma set_onMapReadyCallbackList_same (v : t) :
  set_onMapReadyCallbackList (onMapReadyCallbackList v) v = v.
Proof. destruct v. reflexivity. Qed.

Lemma each_onMapReadyTurn (q : list (option CallbackId)) (v : t) :
  each onMapReadyTurn q v =
  (Ok tt, set_onMapReadyCallbackList (drop (List.length q) (onMapReadyCallbackList v)) v,
   OnMapReady <$> omap id q).
Proof.
  revert v. induction q as [|cb q IH]; intros v.
  - destruct v. reflexivity.
  - cbn [each]. rewrite Run_bind_run. unfold onMapReadyTurn at 1.
    destruct v as [native map renderer attribution compass gestures keys saved gone isStarted q0 n].
    destruct cb as [cb|]; rewrite ?Run_bind_run; simpl; rewrite IH; simpl;
      destruct q0; simpl; rewrite ?drop_nil; reflexivity.
Qed.

Lemma onMapReady_run (v : t) :
  onMapReady v =
  (Ok tt, set_onMapReadyCallbackList [] v, OnMapReady <$> omap id (onMapReadyCallbackList v)).
Proof.
  unfold onMapReady. rewrite Run_get_bind. case_bool_decide as Hq.
  - rewrite each_onMapReadyTurn, drop_all. reflexivity.
  - destruct (onMapReadyCallbackList v) eqn:E; [|simpl in Hq; lia].
    assert (Hv : set_onMapReadyCallbackList [] v = v)
      by (rewrite <- E; apply set_onMapReadyCallbackList_same).
    rewrite Hv. reflexivity.
Qed.

Lemma ready_app (a b : list Effect) : ready (a ++ b) = ready a ++ ready b.
Proof. apply omap_app. Qed.

Lemma ready_OnMapReady (l : list CallbackId) : ready (OnMapReady <$> l) = l.
Proof.
  induction l as [|a l IH]; [reflexivity|].
  change (a :: ready (OnMapReady <$> l) = a :: l). rewrite IH. reflexivity.
Qed.

Lemma ready_silent (es : list Effect) : Forall silent es -> ready es = [].
Proof.
  induction 1 as [|e es He _ IH]; [reflexivity|].
  destruct e; try contradiction; exact IH.
Qed.

Lemma omap_id_Some (l : list CallbackId) : omap id (Some <$> l) = l.
Proof.
  induction l as [|a l IH]; [reflexivity|].
  change (a :: omap id (Some <$> l) = a :: l). rewrite IH. reflexivity.
Qed.

Lemma initialised_run (v : t) :
  maplibreMap v = true ->
  initialised v =
  (Ok tt, set_onMapReadyCallbackList [] v,
   [MapOnPreMapReady] ++ (OnMapReady <$> omap id (onMapReadyCallbackList v))
   ++ [MapOnPostMapReady]).
Proof.
  intros Hm. unfold initialised, on. rewrite Run_get_bind, Hm.
  rewrite Run_emit_bind, Run_bind_run, onMapReady_run. reflexivity.
Qed.

Lemma initializeMap_run (connected : bool) (v : t) :
  nativeMapView v = true ->
  exists v' es,
    initializeMap connected v = (Ok tt, v', es) /\
    ready es = omap id (onMapReadyCallbackList v) /\
    onMapReadyCallbackList v' = [] /\ maplibreMap v' = true /\
    destroyed v' = destroyed v /\ nativeMapView v' = true.
Proof.
  intros Hn. unfold initializeMap, on.
  repeat first [rewrite Run_emit_bind | rewrite Run_modify_bind].
  rewrite Run_get_bind. cbn [nativeMapView savedInstanceState set_mapKeyListener
    set_mapGestureDetector set_maplibreMap]. rewrite Hn, Run_emit_bind.
  destruct (savedInstanceState v); cbn [negb]; rewrite Run_emit_bind, initialised_run by reflexivity;
    rewrite !Run_after_after; unfold after; cbn [fst snd];
    (eexists _, _; split; [reflexivity|]);
    rewrite !ready_app, ready_OnMapReady; cbn; rewrite ?app_nil_r; repeat split; assumption.
Qed.

(** The runnable of a surface created on a live view without a map. *)
Lemma onSurfaceCreatedRun_run (connected : bool) (v : t) :
  destroyed v = false -> maplibreMap v = false -> nativeMapView v = true ->
  let r := onSurfaceCreatedRun connected v in
  ready (effectsOf r) = omap id (onMapReadyCallbackList v) /\
  onMapReadyCallbackList (stateOf r) = [] /\
  maplibreMap (stateOf r) = true /\
  destroyed (stateOf r) = false /\ nativeMapView (stateOf r) = true.
Proof.
  intros Hd Hm Hn. unfold onSurfaceCreatedRun. rewrite Run_get_bind, Hd, Hm. cbn [negb andb].
  destruct (initializeMap_run connected v Hn) as (v' & es & E & Hr & Hq & Hm' & Hd' & Hn').
  rewrite Run_bind_run, E. unfold effectsOf, stateOf. cbn [emit fst snd].
  rewrite ready_app, Hr, Hd', Hd. cbn. rewrite app_nil_r. repeat split; assumption.
Qed.

Lemma call_silent (c : Call) :
  benign c = true -> isSurfaceCreated c = false -> asked [c] = [] ->
  always silent (call c) /\
  forall d n m q, preserves (fun v => destroyed v = d /\ nativeMapView v = n /\
                                      maplibreMap v = m /\ onMapReadyCallbackList v = q)
                            (call c).
Proof.
  intros Hb Hs Ha.
  destruct c as [| | | | | | | |[cb|]| | | | | |]; try discriminate; cbn [call];
    unfold onCreate, onStart, onStop, onResume, onPause, onLowMemory,
      queueEvent, setMaximumFps, mapCallbackOn, onSizeChanged,
      initialRenderOnDidFinishRenderingFrame, on;
    (split; [run_emits | intros d n m q; run_keeps]);
    try exact I; try (simpl; intros; assumption).
  destruct event; exact I.
Qed.

Lemma asked_snoc (cs : list Call) (c : Call) : asked (cs ++ [c]) = asked cs ++ asked [c].
Proof. apply omap_app. Qed.

Lemma ReadyInv_step (cs : list Call) (c : Call) (v : t) (es : list Effect) :
  benign c = true ->
  ReadyInv cs (v, es) ->
  ReadyInv (cs ++ [c]) (stateOf (call c v), es ++ effectsOf (call c v)).
Proof.
  intros Hb (Hd & Hn & Hm & Hq). cbn [fst snd] in *.
  unfold ReadyInv. cbn [fst snd]. rewrite existsb_app, asked_snoc, ready_app.
  cbn [existsb]. rewrite (orb_false_r (isSurfaceCreated c)).
  destruct (isSurfaceCreated c) eqn:Hs.
  - destruct c; try discriminate. cbn [call asked omap].
    rewrite orb_true_r, app_nil_r.
    destruct (maplibreMap v) eqn:Hv.
    + unfold onSurfaceCreatedRun. rewrite Run_get_bind, Hd, Hv. cbn [negb andb].
      unfold stateOf, effectsOf. cbn [fst snd mret Run_ret]. rewrite Hv, app_nil_r.
      repeat split; tauto.
    + destruct (onSurfaceCreatedRun_run connected v Hd Hv Hn) as (Hr & Hq' & Hm' & Hd' & Hn').
      rewrite Hm', Hd', Hn', Hr, Hq'. destruct Hq as [-> ->].
      rewrite omap_id_Some. repeat split.
  - destruct (asked [c]) as [|cb l] eqn:Ha.
    + destruct (call_silent c Hb Hs Ha) as [Hq' Hp].
      destruct (Hp (destroyed v) (nativeMapView v) (maplibreMap v) (onMapReadyCallbackList v) v)
        as (-> & -> & -> & ->); [repeat split|].
      rewrite (ready_silent _ (Hq' v)), orb_false_r, !app_nil_r.
      repeat split; assumption.
    + destruct c as [| | | | | | | |[cb'|]| | | | | |]; try discriminate.
      injection Ha as <- <-. cbn [call]. unfold getMapAsync. rewrite Run_get_bind.
      rewrite orb_false_r.
      destruct (maplibreMap v) eqn:Hv; cbn [negb].
      * unfold stateOf, effectsOf. cbn. rewrite Hv. destruct Hq as [-> ->].
        repeat split; assumption.
      * unfold stateOf, effectsOf, addOnMapReadyCallback. cbn. rewrite Hv.
        destruct Hq as [-> ->]. rewrite app_nil_r, fmap_app. repeat split; assumption.
Qed.

Lemma ReadyInv_run (cs : list Call) :
  forallb benign cs = true -> ReadyInv cs (run cs new).
Proof.
  induction cs as [|c cs IH] using rev_ind; intros Hb.
  - repeat split.
  - rewrite forallb_app in Hb. apply andb_prop in Hb as [Hcs Hc].
    simpl in Hc. rewrite andb_true_r in Hc.
    rewrite view_run_snoc. specialize (IH Hcs).
    destruct (run cs new) as [v es]. apply ReadyInv_step; assumption.
Qed.

(** X23.  On a view that is neither destroyed nor handed a map from outside,
    the map exists once the runnable of [onSurfaceCreated()] ran; from then on
    every callback given to [getMapAsync] has been told exactly once, in the
    order of the calls, and none waits; before that none was told and all
    wait in the list. *)
Theorem getMapAsync_once_in_order (cs : list Call) :
  forallb benign cs = true ->
  maplibreMap (run cs new).1 = existsb isSurfaceCreated cs /\
  if existsb isSurfaceCreated cs
  then ready (run cs new).2 = asked cs /\ onMapReadyCallbackList (run cs new).1 = []
  else ready (run cs new).2 = [] /\
       onMapReadyCallbackList (run cs new).1 = Some <$> asked cs.
Proof.
  intros Hb. destruct (ReadyInv_run cs Hb) as (_ & _ & Hm & Hq).
  rewrite Hm in Hq. split; assumption.
Qed.

(** *** A view destroyed before its surface was created *)

Lemma view_run_app (a b : list Call) (v : t) :
  run (a ++ b) v = ((run b (run a v).1).1, (run a v).2 ++ (run b (run a v).1).2).
Proof.
  induction b as [|c b IH] using rev_ind.
  - rewrite !app_nil_r. destruct (run a v) as [v1 e1]. reflexivity.
  - rewrite app_assoc, !view_run_snoc, IH. cbn [fst snd]. rewrite app_assoc. reflexivity.
Qed.

Lemma dead_call (c : Call) (v : t) :
  destroyed v = true -> maplibreMap v = false -> keepsMap c = true ->
  Forall silent (effectsOf (call c v)) /\
  destroyed (stateOf (call c v)) = true /\ maplibreMap (stateOf (call c v)) = false.
Proof.
  destruct v as [native map renderer attribution compass gestures keys saved gone isStarted q n].
  simpl. intros -> -> Hk.
  destruct c as [[]| | | | | | | | |[]| | | | |[]]; try discriminate;
    destruct native, renderer, attribution, compass, isStarted;
    cbn; repeat split; repeat constructor.
Qed.

Lemma dead_run (cs : list Call) (v : t) :
  destroyed v = true -> maplibreMap v = false -> forallb keepsMap cs = true ->
  ready (run cs v).2 = [] /\
  destroyed (run cs v).1 = true /\ maplibreMap (run cs v).1 = false.
Proof.
  intros Hd Hm. induction cs as [|c cs IH] using rev_ind; intros Hk.
  - repeat split; assumption.
  - rewrite forallb_app in Hk. apply andb_prop in Hk as [Hcs Hc].
    simpl in Hc. rewrite andb_true_r in Hc.
    destruct (IH Hcs) as (Hr & Hd' & Hm'). rewrite view_run_snoc. cbn [fst snd].
    destruct (dead_call c _ Hd' Hm' Hc) as (Hs & Hd'' & Hm'').
    rewrite ready_app, Hr, (ready_silent _ Hs). repeat split; assumption.
Qed.

(** X24.  A view destroyed before its surface was created never tells a
    callback that the map is ready: the waiting ones are dropped, later ones
    wait for ever. *)
Theorem destroyed_before_surface_never_ready (before later : list Call) :
  forallb benign before = true ->
  existsb isSurfaceCreated before = false ->
  forallb keepsMap later = true ->
  ready (run (before ++ OnDestroy :: later) new).2 = [].
Proof.
  intros Hb Hs Hk.
  destruct (ReadyInv_run before Hb) as (Hd & Hn & Hm & Hq).
  rewrite Hs in Hm. rewrite Hm in Hq. destruct Hq as [Hr _].
  rewrite view_run_app. cbn [fst snd]. rewrite ready_app, Hr.
  change (OnDestroy :: later) with ([OnDestroy] ++ later).
  rewrite view_run_app. cbn [fst snd]. rewrite ready_app.
  set (v := (run before new).1) in *.
  assert (Hv : exists v' es, run [OnDestroy] v = (v', es) /\ Forall silent es /\
                             destroyed v' = true /\ maplibreMap v' = false).
  { destruct v as [native map renderer attribution compass gestures keys saved gone isStarted q n].
    simpl in Hm. subst map.
    destruct native, renderer, compass; eexists _, _; (split; [reflexivity|]);
      repeat split; repeat constructor. }
  destruct Hv as (v' & es & -> & Hsil & Hd' & Hm'). cbn [fst snd].
  destruct (dead_run later v' Hd' Hm' Hk) as (Hr' & _ & _).
  rewrite (ready_silent _ Hsil), Hr'. reflexivity.
Qed.

(** *** The initial render *)

Lemma int_small (z : Z) : -2147483648 <= z < 2147483648 -> int z = z.
Proof. intros Hz. unfold int. rewrite Z.mod_small by lia. lia. Qed.

Lemma frame_step (style : option bool) (v : t) :
  0 <= renderCount v < 2147483647 ->
  let r := initialRenderOnDidFinishRenderingFrame style v in
  renderCount (stateOf r)
    = renderCount v + (if maplibreMap v && counts style then 1 else 0) /\
  maplibreMap (stateOf r) = maplibreMap v /\
  count isSetForegroundNull (effectsOf r)
    = if maplibreMap v && counts style && (renderCount v =? 2) then 1%nat else 0%nat.
Proof.
  intros Hn. unfold initialRenderOnDidFinishRenderingFrame, counts.
  rewrite Run_get_bind.
  destruct (maplibreMap v && bool_decide (style = Some true)) eqn:Hc.
  - rewrite Run_modify_bind, Run_get_bind. cbn [renderCount set_renderCount].
    rewrite int_small by lia.
    destruct (renderCount v =? 2) eqn:H2.
    + apply Z.eqb_eq in H2. rewrite H2. cbn. repeat split.
    + destruct (renderCount v + 1 =? 3) eqn:H3; [apply Z.eqb_eq in H3; apply Z.eqb_neq in H2; lia|].
      cbn. repeat split.
  - cbn. repeat split. lia.
Qed.

Lemma counted_snoc (v : t) (styles : list (option bool)) (style : option bool) :
  counted v (styles ++ [style])
  = (counted v styles + if maplibreMap v && counts style then 1 else 0)%nat.
Proof.
  unfold counted. destruct (maplibreMap v); [|reflexivity].
  rewrite List.filter_app, List.length_app. simpl.
  destruct (counts style); reflexivity.
Qed.

Lemma counted_le (v : t) (styles : list (option bool)) :
  (counted v styles <= List.length styles)%nat.
Proof.
  unfold counted. destruct (maplibreMap v); [|lia]. apply List.filter_length_le.
Qed.

Lemma frames_run (styles : list (option bool)) (v : t) :
  renderCount v = 0 ->
  Z.of_nat (List.length styles) < 2147483647 ->
  let r := run (RenderedFrame <$> styles) v in
  renderCount r.1 = Z.of_nat (counted v styles) /\
  maplibreMap r.1 = maplibreMap v /\
  count isSetForegroundNull r.2 = if (3 <=? counted v styles)%nat then 1%nat else 0%nat.
Proof.
  intros H0. induction styles as [|style styles IH] using rev_ind; intros Hl.
  - cbn. unfold counted. rewrite H0. destruct (maplibreMap v); repeat split.
  - rewrite length_app in Hl. simpl in Hl.
    destruct IH as (Hn & Hm & Hc); [lia|].
    rewrite fmap_app. cbn [fmap list_fmap]. rewrite view_run_snoc. cbn [fst snd call].
    pose proof (counted_le v styles) as Hle.
    destruct (frame_step style (run (RenderedFrame <$> styles) v).1) as (Hn' & Hm' & Hc');
      [rewrite Hn; lia|].
    rewrite effects_count_app, Hc, Hc', Hn', Hm', Hn, Hm, counted_snoc.
    split; [|split; [reflexivity|]].
    + destruct (maplibreMap v && counts style); lia.
    + destruct (maplibreMap v && counts style); cbn [andb].
      * destruct (Z.eqb_spec (Z.of_nat (counted v styles)) 2) as [E|E];
          destruct (Nat.leb_spec 3 (counted v styles));
          destruct (Nat.leb_spec 3 (counted v styles + 1)); lia.
      * rewrite !Nat.add_0_r. reflexivity.
Qed.

(** X25.  Over fewer than 2^31 - 1 rendered frames, [InitialRenderCallback]
    clears the foreground exactly once, at the third frame that finds a map
    with a fully loaded style, and never before; frames that find no loaded
    style do not count. *)
Theorem initial_render_clears_foreground_once (styles : list (option bool)) (v : t) :
  renderCount v = 0 ->
  Z.of_nat (List.length styles) < 2147483647 ->
  count isSetForegroundNull (run (RenderedFrame <$> styles) v).2
  = if (3 <=? counted v styles)%nat then 1%nat else 0%nat.
Proof. intros H0 Hl. apply (frames_run styles v H0 Hl). Qed.

(** *** The native peer after [onDestroy()] *)

Lemma gone_call (c : Call) (v : t) :
  destroyed v = true -> nativeMapView v = false ->
  Forall (fun e => usesNative e = false) (effectsOf (call c v)) /\
  destroyed (stateOf (call c v)) = true /\ nativeMapView (stateOf (call c v)) = false.
Proof.
  intros Hd Hn.
  destruct c as [hasSaved| | | | | | |connected|callback|present|runnable|fps|event|style
                 |editing width height].
  14: { cbn [call]. split.
        - assert (Ha : always (fun e => usesNative e = false)
                         (initialRenderOnDidFinishRenderingFrame style))
            by (unfold initialRenderOnDidFinishRenderingFrame; run_emits; reflexivity).
          apply Ha.
        - assert (Hp : preserves (fun v => destroyed v = true /\ nativeMapView v = false)
                         (initialRenderOnDidFinishRenderingFrame style))
            by (unfold initialRenderOnDidFinishRenderingFrame; run_keeps;
                simpl; intros; assumption).
          apply Hp. split; assumption. }
  all: destruct v as [native map renderer attribution compass gestures keys saved gone
                        isStarted q n];
    simpl in Hd, Hn; subst;
    try destruct hasSaved; try destruct callback; try destruct present; try destruct event;
    try destruct editing;
    destruct map, renderer, attribution, compass, gestures, isStarted;
    cbn; repeat split; repeat constructor.
Qed.

Lemma gone_run (cs : list Call) (v : t) :
  destroyed v = true -> nativeMapView v = false ->
  Forall (fun e => usesNative e = false) (run cs v).2 /\
  destroyed (run cs v).1 = true /\ nativeMapView (run cs v).1 = false.
Proof.
  intros Hd Hn. induction cs as [|c cs IH] using rev_ind.
  - repeat split; [constructor|assumption|assumption].
  - destruct IH as (Hq & Hd' & Hn'). rewrite view_run_snoc. cbn [fst snd].
    destruct (gone_call c _ Hd' Hn') as (Hq' & Hd'' & Hn'').
    repeat split; [apply Forall_app; split|..]; assumption.
Qed.

Lemma onDestroy_gone (v : t) :
  destroyed (stateOf (onDestroy v)) = true /\ nativeMapView (stateOf (onDestroy v)) = false /\
  MapView.count isNativeDestroy (effectsOf (onDestroy v)) = (if nativeMapView v then 1 else 0)%nat.
Proof.
  destruct v as [native map renderer attribution compass gestures keys saved gone isStarted q n].
  destruct native, map, renderer, compass; repeat split.
Qed.

Lemma destroy_balance (c : Call) (v : t) :
  (MapView.count isNativeDestroy (effectsOf (call c v))
   + (if nativeMapView (stateOf (call c v)) then 1 else 0)
   = if nativeMapView v then 1 else 0)%nat.
Proof.
  destruct c as [hasSaved| | | | | | |connected|callback|present|runnable|fps|event|style
                 |editing width height].
  6: { cbn [call]. destruct (onDestroy_gone v) as (_ & -> & ->). lia. }
  all: match goal with |- context [call ?c ?v] =>
    assert (Ha : always (fun e => isNativeDestroy e = false) (call c))
      by (cbn [call];
          unfold onCreate, onStart, onStop, onResume, onPause, onLowMemory, onSurfaceCreatedRun,
            getMapAsync, setMapLibreMap, queueEvent, setMaximumFps, mapCallbackOn, onSizeChanged,
            initialRenderOnDidFinishRenderingFrame, initializeMap, initialised, onMapReady,
            onMapReadyTurn, addOnMapReadyCallback, on;
          run_emits; try reflexivity; destruct event; reflexivity);
    assert (Hp : preserves (fun x => nativeMapView x = nativeMapView v) (call c))
      by (cbn [call];
          unfold onCreate, onStart, onStop, onResume, onPause, onLowMemory, onSurfaceCreatedRun,
            getMapAsync, setMapLibreMap, queueEvent, setMaximumFps, mapCallbackOn, onSizeChanged,
            initialRenderOnDidFinishRenderingFrame, initializeMap, initialised, onMapReady,
            onMapReadyTurn, addOnMapReadyCallback, on;
          run_keeps; simpl; intros; assumption)
  end;
  rewrite (effects_count_none _ _ (Ha v)), (Hp v eq_refl); reflexivity.
Qed.

Lemma destroy_balance_run (cs : list Call) (v : t) :
  (MapView.count isNativeDestroy (run cs v).2 + (if nativeMapView (run cs v).1 then 1 else 0)
   = if nativeMapView v then 1 else 0)%nat.
Proof.
  induction cs as [|c cs IH] using rev_ind.
  - reflexivity.
  - rewrite view_run_snoc. cbn [fst snd]. rewrite effects_count_app.
    pose proof (destroy_balance c (run cs v).1) as Hc. lia.
Qed.

(** X27.  Once [onDestroy()] was called the view holds no native peer and makes
    no call on it any more, whatever is called afterwards; over the whole
    run the peer is destroyed once if the view had one at the start, and
    never otherwise. *)
Theorem native_peer_not_used_after_destroy (before later : list Call) (v : t) :
  let r := run (before ++ OnDestroy :: later) v in
  nativeMapView r.1 = false /\
  MapView.count isNativeDestroy r.2 = (if nativeMapView v then 1 else 0)%nat /\
  exists es, r.2 = (run (before ++ [OnDestroy]) v).2 ++ es /\
             Forall (fun e => usesNative e = false) es.
Proof.
  cbv zeta.
  assert (Hr : nativeMapView (run (before ++ OnDestroy :: later) v).1 = false
               /\ exists es, (run (before ++ OnDestroy :: later) v).2
                             = (run (before ++ [OnDestroy]) v).2 ++ es /\
                             Forall (fun e => usesNative e = false) es).
  { change (OnDestroy :: later) with ([OnDestroy] ++ later).
    rewrite app_assoc, view_run_app. cbn [fst snd].
    assert (Hg : destroyed (run (before ++ [OnDestroy]) v).1 = true /\
                 nativeMapView (run (before ++ [OnDestroy]) v).1 = false).
    { rewrite view_run_snoc. cbn [fst snd call].
      destruct (onDestroy_gone (run before v).1) as (Hd & Hn & _). split; assumption. }
    destruct Hg as [Hd Hn].
    destruct (gone_run later _ Hd Hn) as (Hq & _ & Hn').
    split; [exact Hn'|]. eexists. split; [reflexivity|exact Hq]. }
  destruct Hr as [Hn He]. split; [exact Hn|]. split; [|exact He].
  pose proof (destroy_balance_run (before ++ OnDestroy :: later) v) as Hb.
  rewrite Hn in Hb. lia.
Qed.
End AndroidMapView.

(** * Examples: the theorems at concrete maps *)

Section Examples.
Local Existing Instance Fixture.testMath.
Local Existing Instance Fixture.flat.
Local Existing Instance Fixture.gestures.





(** Two points ten pixels apart in a 100 by 100 viewport. *)
Lemma cameraForLatLngs_zoom_witness :
  CameraOptions.zoom
    (mbgl.cameraForLatLngs [LatLng.mk 0 0; LatLng.mk 10 10]
       (Transform.of_state Fixture.state0) (EdgeInsets.mk 0 0 0 0)).1
    = Some 8.25%float
  /\ CameraOptions.zoom
       (mbgl.cameraForLatLngs [LatLng.mk 0 0; LatLng.mk 10 10]
          (Transform.of_state Fixture.state0) (EdgeInsets.mk 60 60 60 60)).1
     = Some 5%float.
Proof.
  split.
  - pose proof (cameraForLatLngs_zoom [LatLng.mk 0 0; LatLng.mk 10 10]
                  (Transform.of_state Fixture.state0) (EdgeInsets.mk 0 0 0 0)
                  ltac:(discriminate)) as (_ & Hok & _).
    exact (proj1 (Hok eq_refl)).
  - pose proof (cameraForLatLngs_zoom [LatLng.mk 0 0; LatLng.mk 10 10]
                  (Transform.of_state Fixture.state0) (EdgeInsets.mk 60 60 60 60)
                  ltac:(discriminate)) as (Hbad & _).
    exact (proj1 (Hbad eq_refl)).
Defined.

(** With a padding of 60 on every side of a 100 by 100 viewport the scale is
    100/10 - 120/10 = -2: the record that is logged has severity Error, and no
    record of severity Warning is logged. *)
Lemma cameraForLatLngs_logs_error :
  (0 <? mbgl.minScale [LatLng.mk 0 0; LatLng.mk 10 10]
          (Transform.of_state Fixture.state0) (EdgeInsets.mk 60 60 60 60))%float = false
  /\ (mbgl.cameraForLatLngs [LatLng.mk 0 0; LatLng.mk 10 10]
        (Transform.of_state Fixture.state0) (EdgeInsets.mk 60 60 60 60)).2
     = [Log Error General mbgl.zoomErrorMessage]
  /\ ~ (exists ev msg,
          In (Log Warning ev msg)
            (mbgl.cameraForLatLngs [LatLng.mk 0 0; LatLng.mk 10 10]
               (Transform.of_state Fixture.state0) (EdgeInsets.mk 60 60 60 60)).2).
Proof.
  split; [reflexivity|]. split; [reflexivity|].
  intros (ev & msg & Hin).
  change (In (Log Warning ev msg) [Log Error General mbgl.zoomErrorMessage]) in Hin.
  destruct Hin as [Heq|[]]. discriminate Heq.
Qed.

(** A map in Continuous mode, and a map in Static mode that is rendering
    the image asked for with callback 8. *)
Lemma renderStill_misuse_witness :
  Map.renderStill (Some 9%nat) (Fixture.map0 Continuous)
  = (tt, Fixture.map0 Continuous,
     [Invoke 9%nat (Some (MisuseException Map.notStaticOrTile))])
  /\ Map.renderStill (Some 9%nat)
       (Impl.set_stillImageRequest (Some (StillImageRequest.mk 8%nat)) (Fixture.map0 Static))
     = (tt,
        Impl.set_stillImageRequest (Some (StillImageRequest.mk 8%nat)) (Fixture.map0 Static),
        [Invoke 9%nat (Some (MisuseException Map.alreadyRendering))]).
Proof.
  split.
  - apply (renderStill_misuse 9%nat (Fixture.map0 Continuous)).
    left. split; discriminate.
  - apply (renderStill_misuse 9%nat
             (Impl.set_stillImageRequest (Some (StillImageRequest.mk 8%nat)) (Fixture.map0 Static))).
    right. simpl. eauto.
Defined.

(** An ease to zoom 10 started at 0 for a second; at 100 an ease to zoom 3
    starts for a second; ticks at 200, 600, 1100 and 1200. *)
Lemma easeTo_supersedes_witness :
  finishedCount 1%nat
    (effectsOf (calls (EaseTo (CameraOptions.withZoom (Some 3%float) CameraOptions.empty)
                         (AnimationOptions.mk (Some 1000) Fixture.linear (Some 2%nat)) 100
                       :: map Tick [200; 600; 1100; 1200]) Fixture.easing0)) = 0%nat
  /\ finishedCount 2%nat
       (effectsOf (calls (EaseTo (CameraOptions.withZoom (Some 3%float) CameraOptions.empty)
                            (AnimationOptions.mk (Some 1000) Fixture.linear (Some 2%nat)) 100
                          :: map Tick [200; 600; 1100; 1200]) Fixture.easing0)) = 1%nat
  /\ TransformState.getZoom
       (stateOfMap
          (stateOf (calls (EaseTo (CameraOptions.withZoom (Some 3%float) CameraOptions.empty)
                             (AnimationOptions.mk (Some 1000) Fixture.linear (Some 2%nat)) 100
                           :: map Tick [200; 600; 1100; 1200]) Fixture.easing0)))
     = 3%float.
Proof.
  pose proof (easeTo_supersedes Fixture.easing0 Fixture.toZoom10
                (CameraOptions.withZoom (Some 3%float) CameraOptions.empty)
                (AnimationOptions.mk (Some 1000) Fixture.linear (Some 2%nat)) 1000 100
                [200; 600; 1100; 1200] eq_refl eq_refl eq_refl) as (_ & HA & HB & Hend).
  repeat apply conj.
  - apply (HA 1%nat); [reflexivity|discriminate].
  - apply (HB 2%nat). reflexivity.
  - cbv zeta in Hend. change (reaches (100 + 1000) [200; 600; 1100; 1200]) with true in Hend.
    destruct Hend as [Hs _]. rewrite Hs. reflexivity.
Defined.

(** Three files of at most ten bytes; file 0 is full. *)
Lemma append_rotates_witness :
  ActionJournal.events 3
    (ActionJournal.append (ActionJournal.mkOptions true "journal" 10 3) "c"
       (<[0%nat := ["123456789"]]> (<[1%nat := ["b"]]> (<[2%nat := ["a"]]> ∅))))
  = ["b"; "123456789"; "c"]
  /\ (size (ActionJournal.append (ActionJournal.mkOptions true "journal" 10 3) "c"
              (<[0%nat := ["123456789"]]> (<[1%nat := ["b"]]> (<[2%nat := ["a"]]> ∅)))) <= 3)%nat.
Proof.
  assert (Hw : ActionJournal.within 3
                 (<[0%nat := ["123456789"]]> (<[1%nat := ["b"]]> (<[2%nat := ["a"]]> ∅)))).
  { intros i [c Hc]. destruct (decide (i < 3)%nat) as [Hi|Hi]; [exact Hi|].
    rewrite !lookup_insert_ne in Hc by lia. now rewrite lookup_empty in Hc. }
  pose proof (append_rotates (ActionJournal.mkOptions true "journal" 10 3) "c"
                (<[0%nat := ["123456789"]]> (<[1%nat := ["b"]]> (<[2%nat := ["a"]]> ∅)))
                ltac:(simpl; lia) Hw) as (Hsize & _ & _ & Hev & _ & _).
  split.
  - etransitivity; [exact Hev|]. vm_compute. reflexivity.
  - apply Hsize. unfold ActionJournal.appendTrace. apply elem_of_app. right.
    now apply list_elem_of_singleton.
Defined.
Lemma renderStill_accepts_witness :
  Map.renderStill (Some 9%nat) (Fixture.map0 Static)
  = (tt, Impl.set_stillImageRequest (Some (StillImageRequest.mk 9%nat)) (Fixture.map0 Static),
     [Update]).
Proof.
  apply (renderStill_accepts 9%nat (Fixture.map0 Static)); [now left|reflexivity].
Defined.

Lemma scaleBy_zoom_witness :
  TransformState.getZoom
    (stateOfMap (stateOf (Map.scaleBy 4 None (AnimationOptions.mk None Fixture.linear None) 0
                            (Fixture.map0 Continuous))))
  = 7%float.
Proof.
  exact (proj1 (scaleBy_zoom 4 None (AnimationOptions.mk None Fixture.linear None) 0
                  (Fixture.map0 Continuous) eq_refl)).
Defined.

(** Two points on one meridian: the width is 0, the horizontal scale is NaN
    and [util::min] keeps the vertical one, 100/10. *)
Example minScale_on_a_meridian :
  mbgl.minScale [LatLng.mk 0 0; LatLng.mk 10 0]
    (Transform.of_state Fixture.state0) (EdgeInsets.mk 0 0 0 0)
  = 10%float.
Proof. reflexivity. Qed.

(** A single point: the scale stays infinite and the zoom is the maximum. *)
Example cameraForLatLngs_single_point :
  mbgl.minScale [LatLng.mk 3 4] (Transform.of_state Fixture.state0) (EdgeInsets.mk 0 0 0 0)
  = infinity
  /\ CameraOptions.zoom
       (mbgl.cameraForLatLngs [LatLng.mk 3 4] (Transform.of_state Fixture.state0)
          (EdgeInsets.mk 0 0 0 0)).1
     = Some 22%float.
Proof. split; reflexivity. Qed.

(** A NaN zoom is clamped to the maximum. *)
Example jumpTo_nan_zoom :
  TransformState.getZoom
    (stateOfMap (stateOf (Map.jumpTo (CameraOptions.withZoom (Some nan) CameraOptions.empty)
                            (Fixture.map0 Continuous))))
  = 22%float.
Proof. reflexivity. Qed.
Lemma pixelBounds_encloses_witness :
  Dbl.le (ScreenCoordinate.x
            (mbgl.pixelBounds [LatLng.mk 0 0; LatLng.mk 10 10]
               (Transform.of_state Fixture.state0)).2) 10
  /\ Dbl.le 10 (ScreenCoordinate.x
                  (mbgl.pixelBounds [LatLng.mk 0 0; LatLng.mk 10 10]
                     (Transform.of_state Fixture.state0)).1).
Proof.
  assert (Hin : LatLng.mk 10 10 ∈ [LatLng.mk 0 0; LatLng.mk 10 10]).
  { apply elem_of_cons. right. apply elem_of_cons. now left. }
  exact (proj1 (pixelBounds_encloses [LatLng.mk 0 0; LatLng.mk 10 10]
                  (Transform.of_state Fixture.state0) (LatLng.mk 10 10) Hin) eq_refl).
Defined.
(** The names of the newest and of the third file. *)
Example fileName_0_and_2 :
  ActionJournal.fileName 0 = "action_journal.0.log"
  /\ ActionJournal.fileName 2 = "action_journal.2.log".
Proof. split; reflexivity. Qed.

Lemma renderStill_twice_witness :
  (Map.renderStill (Some 1%nat);; Map.renderStill (Some 2%nat)) (Fixture.map0 Static) =
  (tt, Impl.set_stillImageRequest (Some (StillImageRequest.mk 1%nat)) (Fixture.map0 Static),
   [Update; Invoke 2%nat (Some (MisuseException Map.alreadyRendering))]).
Proof.
  apply (renderStill_twice 1%nat 2%nat (Fixture.map0 Static)); [now left|reflexivity|reflexivity].
Defined.

Lemma renderStillCamera_stores_witness :
  Impl.stillImageRequest
    (stateOf (Map.renderStillCamera (CameraOptions.withZoom (Some 7%float) CameraOptions.empty)
                1 (Some 3%nat) (Fixture.map0 Tile)))
  = Some (StillImageRequest.mk 3%nat)
  /\ effectsOf (Map.renderStillCamera (CameraOptions.withZoom (Some 7%float) CameraOptions.empty)
                  1 (Some 3%nat) (Fixture.map0 Tile))
     = [CameraWillChange Immediate; CameraDidChange Immediate; Update].
Proof.
  pose proof (renderStillCamera_stores (CameraOptions.withZoom (Some 7%float) CameraOptions.empty)
                1 3%nat (Fixture.map0 Tile) (or_intror eq_refl) eq_refl eq_refl) as Hs.
  cbv zeta in Hs. split; [exact (proj1 Hs) | exact (proj2 (proj2 (proj2 (proj2 Hs))))].
Defined.

Lemma pitchBy_pitch_witness :
  TransformState.getPitch
    (stateOfMap (stateOf (Map.pitchBy (-30) (AnimationOptions.mk None Fixture.linear None) 0
                            (Fixture.map0 Continuous))))
  = util.deg2rad 30.
Proof.
  exact (proj1 (pitchBy_pitch (-30) (AnimationOptions.mk None Fixture.linear None) 0
                  (Fixture.map0 Continuous) eq_refl)).
Defined.
End Examples.

(** * Examples: the theorems at a concrete style and a concrete view *)

Section AndroidExamples.
Import android.
Import StyleFixture.
Local Existing Instance StyleFixture.constants.

(** The calls that apply [builder0]: the image goes without its stretches. *)
Example applying_builder0 :
  effectsOf (Style.onDidFinishLoadingStyle fresh) =
  [Native (AddSource roads);
   Native (AddLayerBelow water "org.maplibre.annotations.points");
   Native (AddLayerAbove labels "water");
   Native (AddImages [Image.mk pin "pin" false None None None]);
   Native (SetTransitionOptions (TransitionOptions.mk 6))].
Proof. vm_compute. reflexivity. Qed.

Lemma stale_style_rejects_witness :
  Style.fullyLoaded fresh = false /\
  Style.call (Method.AddLayerAt hills 0) fresh
  = (Throw (IllegalStateException
              "Calling addLayerAbove when a newer style is loading/has loaded."),
     fresh, []).
Proof.
  split; [reflexivity | apply (stale_style_rejects (Method.AddLayerAt hills 0) fresh); reflexivity].
Defined.

Lemma addSource_then_getSource_witness :
  Style.addSource parks loaded0
    = (Ok tt, stateOf (Style.addSource parks loaded0), effectsOf (Style.addSource parks loaded0))
  /\ Style.getSource "parks" (stateOf (Style.addSource parks loaded0))
     = (Ok (Some parks), stateOf (Style.addSource parks loaded0), []).
Proof.
  split; [vm_compute; reflexivity|].
  apply (addSource_then_getSource parks loaded0 _ (effectsOf (Style.addSource parks loaded0))).
  vm_compute. reflexivity.
Defined.

(** The lenient peer removes nothing: the cached source stays. *)
Lemma removeSource_then_getSource_witness :
  Style.removeSource "roads" loaded0'
    = (Ok false, stateOf (Style.removeSource "roads" loaded0'),
       effectsOf (Style.removeSource "roads" loaded0'))
  /\ Style.getSource "roads" (stateOf (Style.removeSource "roads" loaded0'))
     = (Ok (Some roads), stateOf (Style.removeSource "roads" loaded0'), []).
Proof.
  split; [vm_compute; reflexivity|].
  apply (removeSource_then_getSource "roads" loaded0' _ false
           (effectsOf (Style.removeSource "roads" loaded0'))).
  vm_compute. reflexivity.
Defined.

Lemma addLayer_then_getLayer_witness :
  Style.addsLayer (Method.AddLayerAt hills 0) = Some hills
  /\ Style.getLayer "hills" (stateOf (Style.call (Method.AddLayerAt hills 0) loaded0))
     = (Ok (Some hills), stateOf (Style.call (Method.AddLayerAt hills 0) loaded0), []).
Proof.
  split; [reflexivity|].
  apply (addLayer_then_getLayer (Method.AddLayerAt hills 0) hills loaded0 _
           (effectsOf (Style.call (Method.AddLayerAt hills 0) loaded0)));
    [reflexivity | vm_compute; reflexivity].
Defined.

Lemma removeLayer_forgets_witness :
  Style.fullyLoaded loaded0 = true
  /\ Style.getLayer "water" (stateOf (Style.removeLayer "water" loaded0))
     = Style.native (GetLayer "water") (stateOf (Style.removeLayer "water" loaded0)).
Proof.
  split; [vm_compute; reflexivity|].
  apply (removeLayer_forgets "water" loaded0). vm_compute. reflexivity.
Defined.

Lemma removeLayerAt_keeps_cache_witness :
  Style.fullyLoaded loaded0 = true
  /\ Style.layers loaded0 !! "water" = Some water
  /\ Style.getLayer "water" (stateOf (Style.removeLayerAt 0 loaded0))
     = (Ok (Some water), stateOf (Style.removeLayerAt 0 loaded0), []).
Proof.
  split; [vm_compute; reflexivity|]. split; [vm_compute; reflexivity|].
  apply (removeLayerAt_keeps_cache 0 "water" water loaded0); vm_compute; reflexivity.
Defined.

Lemma onDidFinishLoadingStyle_applies_builder_witness :
  Style.neverThrows (H:=lenient)
  /\ Style.fullyLoaded fresh' = false
  /\ effectsOf (Style.onDidFinishLoadingStyle fresh')
     = Native <$> Style.builderCalls builder0
  /\ Style.sources (stateOf (Style.onDidFinishLoadingStyle fresh')) !! "roads" = Some roads.
Proof.
  assert (Hn : Style.neverThrows (H:=lenient))
    by (intros c p; destruct c; eexists _, _; reflexivity).
  pose proof (onDidFinishLoadingStyle_applies_builder fresh' Hn eq_refl) as Hb.
  cbv zeta in Hb. destruct Hb as (_ & He & Hs & _).
  split; [exact Hn|]. split; [reflexivity|]. split; [exact He|].
  rewrite Hs. vm_compute. reflexivity.
Defined.

(** A map whose key set iterates "pin" before "anchor". *)
Lemma addImages_one_per_entry_witness :
  Style.fullyLoaded loaded0 = true /\
  effectsOf (Style.addImages [("pin", pin); ("anchor", anchor)] true loaded0)
  = [Native (AddImages [Image.mk pin "pin" true None None None;
                        Image.mk anchor "anchor" true None None None])].
Proof.
  split; [vm_compute; reflexivity|].
  apply (addImages_one_per_entry [("pin", pin); ("anchor", anchor)] true loaded0).
  - vm_compute. reflexivity.
  - apply (bool_decide_unpack (NoDup ["pin"; "anchor"])). vm_compute. exact I.
Defined.

Lemma getMapAsync_once_in_order_witness :
  forallb MapView.benign calls0 = true
  /\ MapView.ready (MapView.run calls0 MapView.new).2 = [1%nat; 2%nat; 3%nat]
  /\ MapView.onMapReadyCallbackList (MapView.run calls0 MapView.new).1 = [].
Proof.
  split; [reflexivity|].
  exact (proj2 (getMapAsync_once_in_order calls0 eq_refl)).
Defined.

Lemma destroyed_before_surface_never_ready_witness :
  MapView.ready
    (MapView.run ([MapView.GetMapAsync (Some 1%nat); MapView.OnStart]
                  ++ MapView.OnDestroy
                     :: [MapView.OnSurfaceCreatedRun true; MapView.GetMapAsync (Some 2%nat)])
       MapView.new).2
  = [].
Proof.
  apply (destroyed_before_surface_never_ready
           [MapView.GetMapAsync (Some 1%nat); MapView.OnStart]
           [MapView.OnSurfaceCreatedRun true; MapView.GetMapAsync (Some 2%nat)]);
    reflexivity.
Defined.

Lemma initial_render_clears_foreground_once_witness :
  MapView.count MapView.isSetForegroundNull
    (MapView.run (MapView.RenderedFrame <$> frames0) withMap).2
  = 1%nat.
Proof.
  apply (initial_render_clears_foreground_once frames0 withMap); [reflexivity|].
  vm_compute. reflexivity.
Defined.
End AndroidExamples.
